(** * Modmail plugins: invite tracking and support utilities

    A shallow embedding of the two cogs of the repository:

    - [src/invites/invites.py]: the [Invites] cog (guild configuration,
      log embeds, webhook fallback, member join and leave listeners);
    - [src/supportutils/core/config.py]: the recursive merge of default
      keys into a stored configuration document;
    - [src/supportutils/core/views.py]: the contact panel view.

    Python objects that the handlers mutate (the configuration cache, the
    tracker, the contact manager) live in an explicit world that every
    handler threads through a state-and-exception monad.  Whatever Discord
    or the host bot answers is read from a [Host] record.  In the invites
    cog, awaited calls are taken to return normally, except where the
    source catches their exceptions; conversions and lookups that may raise
    on the data at hand ([int], [Webhook.from_url], [list.index], item
    access) return a [result].  In [ContactView.handle_interaction] the
    awaited calls that send the dropdown, create the thread, wait for it
    and send into it may raise as well. *)

From Stdlib Require Import ZArith Lia.
From stdpp Require Import gmap strings list fin_maps pretty sorting.

Open Scope string_scope.
Open Scope Z_scope.

(** ** Python exceptions and the handler monad *)

(** An exception is known by its class name and its message, which is what
    [type(e).__name__] and [str(e)] give. *)
Record exn := Exn { exn_type : string; exn_msg : string }.

Definition TypeError (msg : string) : exn := Exn "TypeError" msg.
Definition KeyError (key : string) : exn := Exn "KeyError" key.
Definition ValueError (msg : string) : exn := Exn "ValueError" msg.
Definition AttributeError (msg : string) : exn := Exn "AttributeError" msg.
Definition RuntimeError (msg : string) : exn := Exn "RuntimeError" msg.

Inductive result (A : Type) : Type :=
| Ok (a : A)
| Raise (e : exn).
Arguments Ok {A} a.
Arguments Raise {A} e.

#[export] Instance result_bind : MBind result := λ A B f r,
  match r with Ok a => f a | Raise e => Raise e end.

(** A computation over a world [W]: it returns or raises, and in both cases
    leaves the world as mutated so far. *)
Definition M (W A : Type) : Type := W → result A * W.

#[export] Instance M_ret W : MRet (M W) := λ A a w, (Ok a, w).
#[export] Instance M_bind W : MBind (M W) := λ A B f m w,
  match m w with
  | (Ok a, w') => f a w'
  | (Raise e, w') => (Raise e, w')
  end.

Definition gets {W A} (f : W → A) : M W A := λ w, (Ok (f w), w).
Definition modify {W} (f : W → W) : M W unit := λ w, (Ok tt, f w).
Definition raise {W A} (e : exn) : M W A := λ w, (Raise e, w).
Definition lift {W A} (r : result A) : M W A := λ w, (r, w).

(** The line feed of Python's ["\n"]. *)
Definition nl : string := String (Ascii.ascii_of_nat 10) "".

(** [str(n)] for a Python integer. *)
Definition py_str (n : Z) : string := pretty n.

(** [Config.deepcopy]: values of the embedding are immutable, a copy is the
    value itself. *)
Definition deepcopy {A} (a : A) : A := a.

(** [sep.join(parts)]. *)
Definition join (sep : string) (parts : list string) : string :=
  String.concat sep parts.

(** ** The invites cog *)

Module Invites.

(** *** Data *)

(** [GuildConfigData], with the [store_data] key of [default_config]: a
    guild document carries the four keys of the defaults. *)
Record GuildConfigData := {
  channel : string;
  webhook : option string;
  enable : bool;
  store_data : bool;
}.

(** [Invites.default_config]: the channel is [str(int())]. *)
Definition default_config : GuildConfigData :=
  {| channel := py_str 0; webhook := None; enable := false; store_data := true |}.

(** Modelled from the spec: the external wrapper [modmail_utils.Config]
    is not part of the sources.  The spec describes a per-guild document
    cached in memory, the cache being the source of truth between explicit
    persistence calls, persisted as a whole.  [cache] is the in-memory
    dictionary keyed by [str(guild.id)], [database] the persisted copy. *)
Record Config := {
  cache : gmap string GuildConfigData;
  database : gmap string GuildConfigData;
}.

(** Modelled from the spec: [Config.get(key)] and
    [Config.__setitem__(key, item)] read and write the cache. *)
Definition config_get (key : string) (c : Config) : option GuildConfigData :=
  cache c !! key.

Definition config_setitem (key : string) (item : GuildConfigData) (c : Config) : Config :=
  {| cache := <[key := item]> (cache c); database := database c |}.

(** Modelled from the spec: [await Config.update()], the explicit flush of
    the cache after a command has edited it. *)
Definition config_update (c : Config) : Config :=
  {| cache := cache c; database := cache c |}.

Record User := { user_id : Z; user_name : string }.

Record TextChannel := {
  channel_id : Z;
  channel_guild : Z;
  channel_mention : string;
}.

Record Webhook := { webhook_url : string; webhook_token : option string }.

(** [discord.Invite], with the attributes the cog reads. *)
Record Invite := {
  code : string;
  uses : Z;
  inviter : option User;
  invite_channel : option TextChannel;
  created_at : option Z;
  expires_at : option Z;
}.

(** [discord.Invite.__eq__] compares the invite ids, that is the codes;
    [vanity_inv] may be [None]. *)
Definition invite_eqb (i : Invite) (vanity_inv : option Invite) : bool :=
  match vanity_inv with
  | Some v => bool_decide (code i = code v)
  | None => false
  end.

Record Member := {
  member_id : Z;
  member_name : string;
  member_mention : string;
  member_bot : bool;
  member_guild : Z;
  member_avatar : string;
  member_created_at : Z;
  member_joined_at : Z;
  member_nick : option string;
  (** [role.mention] of [member.roles], lowest first, with a flag telling
      the guild's default role. *)
  member_roles : list (string * bool);
}.

(** The stored form of an invite, the [data] of a [PartialInvite]: the
    listeners read its code, channel id and inviter id. *)
Record InviteData := {
  data_code : string;
  data_channel_id : option Z;
  data_inviter_id : option Z;
}.

(** One entry of [user_data["guilds"]]: a dictionary with the key
    ["invite"]. *)
Record GuildEntry := { entry_invite : option InviteData }.

(** [UserInviteRecord]: per user, the guild entries keyed by
    [str(guild.id)]. *)
Record UserData := { guilds : gmap string GuildEntry }.

(** Modelled from the spec: the class [InviteTracker] of
    [invites/core/models.py] is not part of the sources.  The cog reads
    and writes its [invite_cache] (per guild, the set of cached invites,
    hashed by code) and reads its [vanity_invites]; the stored
    invite-usage records are keyed by user id. *)
Record InviteTracker := {
  invite_cache : gmap Z (gmap string Invite);
  vanity_invites : gmap Z Invite;
  user_records : gmap Z UserData;
}.

Inductive Color := MainColor | Green | Red.

Record Embed := {
  title : string;
  description : string;
  color : Color;
  thumbnail : string;
  footer : string;
  fields : list (string * string);
}.

Definition add_field (name value : string) (e : Embed) : Embed :=
  {| title := title e; description := description e; color := color e;
     thumbnail := thumbnail e; footer := footer e;
     fields := fields e ++ [(name, value)] |}.

Definition add_description (s : string) (e : Embed) : Embed :=
  {| title := title e; description := description e ++ s; color := color e;
     thumbnail := thumbnail e; footer := footer e; fields := fields e |}.

(** What a handler asks of Discord, in the order it asks. *)
Inductive ApiCall :=
| ChannelSend (chan : TextChannel) (embed : Embed)
| WebhookSend (wh : Webhook) (embed : Embed) (username avatar_url : string) (wait : bool)
| CtxSend (embed : Embed)
| LoggerError (msg : string).

(** The answers of Discord and of the host bot. *)
Record Host := {
  bot_user_id : Z;
  bot_user_name : string;
  bot_avatar_url : string;
  (** [guild.get_channel(int(s))]: [int] raises [ValueError] on a string
      that is no integer literal. *)
  guild_get_channel : Z → string → result (option TextChannel);
  (** [bot.get_channel(int(s))]. *)
  bot_get_channel : string → result (option TextChannel);
  (** [channel.guild.get_member(bot.user.id)] is not [None]. *)
  guild_has_bot_member : Z → bool;
  (** [channel.permissions_for(bot_me).manage_webhooks]. *)
  manage_webhooks : TextChannel → bool;
  (** [await channel.webhooks()]. *)
  channel_webhooks : TextChannel → list Webhook;
  (** [await channel.create_webhook(...)], which may raise. *)
  create_webhook : TextChannel → result Webhook;
  (** [discord.Webhook.from_url(url)], which raises [ValueError] on a
      string that is no webhook URL. *)
  webhook_from_url : string → result Webhook;
  (** [await guild.invites()]. *)
  guild_invites : Z → list Invite;
  (** [member.guild.members]. *)
  guild_members : Z → list Member;
  (** [dt_formatter.time_age] and [dt_formatter.age], which read the
      clock. *)
  time_age : Z → string;
  age : Z → string;
  (** Resolution of a stored channel or user id, for [PartialInvite]. *)
  resolve_channel : Z → option TextChannel;
  resolve_user : Z → option User;
}.

Record World := {
  config : Config;
  tracker : InviteTracker;
  calls : list ApiCall;
}.

Definition set_config (f : Config → Config) (w : World) : World :=
  {| config := f (config w); tracker := tracker w; calls := calls w |}.

Definition set_tracker (f : InviteTracker → InviteTracker) (w : World) : World :=
  {| config := config w; tracker := f (tracker w); calls := calls w |}.

Definition call (c : ApiCall) : M World unit :=
  modify (λ w, {| config := config w; tracker := tracker w; calls := calls w ++ [c] |}).

(** *** Configuration access *)

(** A guild id as the callers pass it: [Union[int, str]]. *)
Inductive GuildId := IdInt (n : Z) | IdStr (s : string).

Definition guild_key (guild_id : GuildId) : string :=
  match guild_id with IdInt n => py_str n | IdStr s => s end.

(** [Invites.guild_config]. *)
Definition guild_config (guild_id : GuildId) : M World GuildConfigData :=
  let guild_id := guild_key guild_id in
  config ← gets (λ w, config_get guild_id (config w));
  match config with
  | Some config => mret config
  | None =>
      let config := deepcopy default_config in
      modify (set_config (config_setitem guild_id config));;
      mret config
  end.

(** The dictionary returned by [guild_config] is the one held by the
    cache: a later read or [dict.update] through the local name [config]
    goes to the cache entry of the guild. *)
Definition config_read (key : string) : M World GuildConfigData :=
  config ← gets (λ w, config_get key (config w));
  match config with
  | Some config => mret config
  | None => raise (KeyError key)
  end.

Definition config_dict_update (key : string) (f : GuildConfigData → GuildConfigData)
  : M World unit :=
  modify (set_config (λ c, {| cache := alter f key (cache c); database := database c |})).

Definition flush : M World unit := modify (set_config config_update).

(** *** The invite tracker *)

(** [set(invites)]: invites hash and compare by code, and adding an equal
    element to a set keeps the one already there. *)
Definition snapshot (invites : list Invite) : gmap string Invite :=
  list_to_map ((λ i, (code i, i)) <$> invites).

(** Modelled from the spec: an invite of the fresh snapshot whose use
    count is greater than the cached count of the same code. *)
Definition increased (old : gmap string Invite) (entry : string * Invite) : bool :=
  match old !! entry.1 with
  | Some cached => bool_decide (uses cached < uses entry.2)
  | None => false
  end.

(** Modelled from the spec: the inference of
    [InviteTracker.get_used_invite] is not part of the sources.  It
    compares the cached invite snapshot (uses-count per code) against the
    freshly fetched one; the candidate invites are those whose use count
    increased. *)
Definition candidates (old new : gmap string Invite) : list Invite :=
  (map_to_list (filter (λ entry, increased old entry = true) new)).*2.

(** Modelled from the spec: the vanity fallback of
    [InviteTracker.get_used_invite].  If the guild has a vanity URL and the
    join cannot otherwise be explained, the vanity invite is offered as a
    candidate. *)
Definition infer_used_invite (vanity_inv : option Invite) (old new : gmap string Invite)
  : list Invite :=
  match candidates old new with
  | [] => option_list vanity_inv
  | pred_invs => pred_invs
  end.

(** Modelled from the spec: [InviteTracker.get_used_invite(member)].  The
    fresh snapshot replaces the cached one: invites are fetched and stored
    in the cache every time a new member joins (docstring of
    [invites_refresh]). *)
Definition get_used_invite (h : Host) (member : Member) : M World (list Invite) :=
  let guild := member_guild member in
  old ← gets (λ w, default ∅ (invite_cache (tracker w) !! guild));
  vanity_inv ← gets (λ w, vanity_invites (tracker w) !! guild);
  let new := snapshot (guild_invites h guild) in
  modify (set_tracker (λ t,
    {| invite_cache := <[guild := new]> (invite_cache t);
       vanity_invites := vanity_invites t;
       user_records := user_records t |}));;
  mret (infer_used_invite vanity_inv old new).

(** Modelled from the spec: the invite data that is stored for a user. *)
Definition invite_data (invite : Invite) : InviteData :=
  {| data_code := code invite;
     data_channel_id := channel_id <$> invite_channel invite;
     data_inviter_id := user_id <$> inviter invite |}.

Definition set_user_records (f : gmap Z UserData → gmap Z UserData) : M World unit :=
  modify (set_tracker (λ t,
    {| invite_cache := invite_cache t;
       vanity_invites := vanity_invites t;
       user_records := f (user_records t) |})).

(** Modelled from the spec: [InviteTracker.save_user_data(member, invite)].
    The record of the user maps the guild id to the invite data used to
    join, and is kept across several guild memberships. *)
Definition save_user_data (member : Member) (invite : Invite) : M World unit :=
  let key := py_str (member_guild member) in
  let entry := {| entry_invite := Some (invite_data invite) |} in
  set_user_records (λ recs,
    let old := default ∅ (guilds <$> recs !! member_id member) in
    <[member_id member := {| guilds := <[key := entry]> old |}]> recs).

(** Modelled from the spec: [InviteTracker.get_user_data(member)], the
    stored record of the user, or [None]. *)
Definition get_user_data (member : Member) : M World (option UserData) :=
  gets (λ w, user_records (tracker w) !! member_id member).

(** Modelled from the spec: [InviteTracker.remove_user_data(user_id)]
    deletes the whole record and returns it, or [None] if there was none. *)
Definition remove_user_data (user_id : Z) : M World (option UserData) :=
  data ← gets (λ w, user_records (tracker w) !! user_id);
  set_user_records (delete user_id);;
  mret data.

(** Modelled from the spec: [InviteTracker.update_user_data(member, data)]
    writes the record of the user. *)
Definition update_user_data (member : Member) (data : UserData) : M World unit :=
  set_user_records (<[member_id member := data]>).

(** *** Webhooks and log embeds *)

(** [discord.utils.find(lambda x: x.token is not None, webhooks)]. *)
Definition find_own_webhook (webhooks : list Webhook) : option Webhook :=
  List.find (λ x, bool_decide (webhook_token x ≠ None)) webhooks.

(** [Invites._get_or_create_webhook].  The avatar read before the creation
    has no effect on the cog and is left out. *)
Definition _get_or_create_webhook (h : Host) (chan : TextChannel) : M World (option Webhook) :=
  if negb (guild_has_bot_member h (channel_guild chan)) || negb (manage_webhooks h chan)
  then mret None
  else
    let webhooks := channel_webhooks h chan in
    let wh := match webhooks with [] => None | _ => find_own_webhook webhooks end in
    match wh with
    | Some wh => mret (Some wh)
    | None =>
        match create_webhook h chan with
        | Ok wh => mret (Some wh)
        | Raise e =>
            call (LoggerError (exn_type e ++ ": " ++ exn_msg e));;
            mret None
        end
    end.

(** [Invites.send_log_embed]. *)
Definition send_log_embed (h : Host) (chan : TextChannel) (embed : Embed) : M World unit :=
  let key := py_str (channel_guild chan) in
  config ← guild_config (IdInt (channel_guild chan));
  webhook ←
    match webhook config with
    | None =>
        webhook ← _get_or_create_webhook h chan;
        match webhook with
        | Some wh =>
            config_dict_update key (λ c,
              {| channel := channel c; webhook := Some (webhook_url wh);
                 enable := enable c; store_data := store_data c |});;
            flush;;
            mret (Some wh)
        | None => mret None
        end
    | Some wh_url => wh ← lift (webhook_from_url h wh_url); mret (Some wh)
    end;
  match webhook with
  | Some wh => call (WebhookSend wh embed (bot_user_name h) (bot_avatar_url h) true)
  | None => call (ChannelSend chan embed)
  end.

(** *** Formatting *)

(** [discord.utils.format_dt(dt, "F")] on a time given in seconds. *)
Definition format_dt (dt : Z) : string := "<t:" ++ py_str dt ++ ":F>".

(** [Invites._string_fmt_dt]. *)
Definition _string_fmt_dt (dt : option Z) : string :=
  match dt with
  | None => "None"
  | Some dt => format_dt dt
  end.

(** The ordinal suffix of the join position, as [on_member_join] picks
    it. *)
Definition ordinal_suffix (join_position : Z) : string :=
  let suffix :=
    default "th" (["th"; "st"; "nd"; "rd"; "th"] !! Z.to_nat (Z.min (join_position `mod` 10) 4)) in
  if bool_decide (11 ≤ join_position `mod` 100 ≤ 13) then "th" else suffix.

(** [sorted(members, key=lambda m: m.joined_at)]: a stable sort. *)
Fixpoint insert_by_joined (m : Member) (l : list Member) : list Member :=
  match l with
  | [] => [m]
  | x :: l' =>
      if member_joined_at m <=? member_joined_at x then m :: l
      else x :: insert_by_joined m l'
  end.

Definition sorted_by_joined (members : list Member) : list Member :=
  foldr insert_by_joined [] members.

(** [list.index(member)]: members compare by id; [ValueError] when the
    member is not in the list. *)
Fixpoint index (member : Member) (l : list Member) : result Z :=
  match l with
  | [] => Raise (ValueError "x not in list")
  | x :: l' =>
      if bool_decide (member_id x = member_id member) then Ok 0
      else match index member l' with
           | Ok n => Ok (n + 1)
           | Raise e => Raise e
           end
  end.

Definition join_position_of (h : Host) (member : Member) : result Z :=
  match index member (sorted_by_joined (guild_members h (member_guild member))) with
  | Ok n => Ok (n + 1)
  | Raise e => Raise e
  end.

Definition inviter_text (u : User) : string :=
  "Name: " ++ user_name u ++ nl ++ "ID: `" ++ py_str (user_id u) ++ "`".

Definition more_than_one_warning : string :=
  nl ++ "⚠️ *More than 1 used invites are predicted.*" ++ nl.

Definition unresolved_warning : string :=
  nl ++ "⚠️ *Something went wrong! Invite info could not be resolved.*" ++ nl.

(** The embed of [on_member_join], up to the account field. *)
Definition join_embed_head (h : Host) (member : Member) (join_position : Z) : Embed :=
  let desc :=
    member_mention member ++ " is the " ++ py_str join_position
      ++ ordinal_suffix join_position ++ " to join." in
  add_field "Account created:" (time_age h (member_created_at member))
    {| title := member_name member ++ " just joined.";
       description := desc ++ nl;
       color := Green;
       thumbnail := member_avatar member;
       footer := "User ID: " ++ py_str (member_id member);
       fields := [] |}.

(** The fields of the single predicted invite. *)
Definition single_invite_fields (invite : Invite) (vanity_inv : option Invite)
    (embed : Embed) : Embed :=
  let embed :=
    if invite_eqb invite vanity_inv then add_field "Vanity:" "True" embed
    else
      let inviter :=
        match inviter invite with
        | Some u => inviter_text u
        | None => "`None`"
        end in
      add_field "Invite created at:" (_string_fmt_dt (created_at invite))
        (add_field "Invite created by:" inviter embed) in
  add_field "Invite uses:" (py_str (uses invite))
    (add_field "Invite expires:" (_string_fmt_dt (expires_at invite)) embed).

(** The part of [on_member_join] that reports the predicted invites. *)
Definition report_invites (pred_invs : list Invite) (vanity_inv : option Invite)
    (embed : Embed) : Embed :=
  match pred_invs with
  | [] => add_description unresolved_warning embed
  | _ =>
      let codes :=
        (λ i, if negb (invite_eqb i vanity_inv) then code i else "Vanity URL") <$> pred_invs in
      let channels :=
        (λ i, match invite_channel i with
              | Some c => channel_mention c
              | None => "`None`"
              end) <$> pred_invs in
      let embed :=
        add_field "Invite channel:" (join nl channels)
          (add_field "Invite code:" (join nl codes) embed) in
      match pred_invs with
      | [invite] => single_invite_fields invite vanity_inv embed
      | _ => add_description more_than_one_warning embed
      end
  end.

(** *** Listeners *)

(** [Invites.on_member_join]. *)
Definition on_member_join (h : Host) (member : Member) : M World unit :=
  if member_bot member then mret tt
  else
    let key := py_str (member_guild member) in
    config ← guild_config (IdInt (member_guild member));
    if negb (enable config) then mret tt
    else
      chan ← lift (guild_get_channel h (member_guild member) (channel config));
      match chan with
      | None => mret tt
      | Some chan =>
          join_position ← lift (join_position_of h member);
          let embed := join_embed_head h member join_position in
          pred_invs ← get_used_invite h member;
          vanity_inv ← gets (λ w, vanity_invites (tracker w) !! member_guild member);
          let embed := report_invites pred_invs vanity_inv embed in
          send_log_embed h chan embed;;
          config ← config_read key;
          match pred_invs with
          | [invite] =>
              if store_data config then save_user_data member invite else mret tt
          | _ => mret tt
          end
      end.

(** [PartialInvite.from_data] resolves the stored ids; the embed of
    [on_member_remove] shows what it finds. *)
Definition stored_invite_fields (h : Host) (invdata : InviteData) (embed : Embed) : Embed :=
  let inv_channel :=
    match data_channel_id invdata ≫= resolve_channel h with
    | Some c => channel_mention c
    | None =>
        match data_channel_id invdata with
        | Some channel_id =>
            if bool_decide (channel_id ≠ 0) then "<#" ++ py_str channel_id ++ ">" else "`None`"
        | None => "`None`"
        end
    end in
  let inviter :=
    match data_inviter_id invdata ≫= resolve_user h with
    | Some u => inviter_text u
    | None =>
        match data_inviter_id invdata with
        | Some inviter_id =>
            if bool_decide (inviter_id ≠ 0) then "(`" ++ py_str inviter_id ++ "`)" else "`None`"
        | None => "`None`"
        end
    end in
  add_field "Invite created by:" inviter
    (add_field "Invite channel:" inv_channel
       (add_field "Invite code:" (data_code invdata) embed)).

(** The embed of [on_member_remove]. *)
Definition leave_embed (h : Host) (member : Member) (invdata : option InviteData) : Embed :=
  let desc := member_mention member ++ " just left the server." in
  let embed :=
    add_field "Time on server:" (age h (member_joined_at member))
      (add_field "Joined at:" (format_dt (member_joined_at member))
         {| title := member_name member ++ " left.";
            description := desc ++ nl;
            color := Red;
            thumbnail := member_avatar member;
            footer := "User ID: " ++ py_str (member_id member);
            fields := [] |}) in
  let embed :=
    match member_nick member with
    | Some nick =>
        if bool_decide (nick ≠ "")
        then add_description (nl ++ "**Nickname:**" ++ nl ++ nick ++ nl) embed
        else embed
    | None => embed
    end in
  let role_list := (filter (λ r, r.2 = false) (reverse (member_roles member))).*1 in
  let embed :=
    match role_list with
    | [] => embed
    | _ => add_description (nl ++ "**Roles:**" ++ nl ++ join " " role_list ++ nl) embed
    end in
  match invdata with
  | Some invdata => stored_invite_fields h invdata embed
  | None => embed
  end.

(** [Invites.on_member_remove]. *)
Definition on_member_remove (h : Host) (member : Member) : M World unit :=
  if member_bot member then mret tt
  else
    let key := py_str (member_guild member) in
    config ← guild_config (IdInt (member_guild member));
    if negb (enable config) then mret tt
    else
      user_data ← get_user_data member;
      invdata ←
        match user_data with
        | Some user_data =>
            match guilds user_data !! key with
            | Some entry =>
                (* [user_data["guilds"].pop(key).get("invite")] *)
                let user_data := {| guilds := delete key (guilds user_data) |} in
                let invdata := entry_invite entry in
                (if bool_decide (guilds user_data = ∅) || negb (store_data config)
                 then remove_user_data (member_id member);; mret tt
                 else update_user_data member user_data);;
                mret invdata
            | None => mret None
            end
        | None => mret None
        end;
      chan ← lift (guild_get_channel h (member_guild member) (channel config));
      match chan with
      | None => mret tt
      | Some chan => send_log_embed h chan (leave_embed h member invdata)
      end.

(** *** Commands *)

Record Context := { ctx_guild : Z }.

Definition plain_embed (text : string) : Embed :=
  {| title := ""; description := text; color := MainColor;
     thumbnail := ""; footer := ""; fields := [] |}.

(** [Invites.invites_config_channel]. *)
Definition invites_config_channel (h : Host) (ctx : Context) (chan : option TextChannel)
  : M World unit :=
  let key := py_str (ctx_guild ctx) in
  config ← guild_config (IdInt (ctx_guild ctx));
  description ←
    match chan with
    | None =>
        chan ← lift (bot_get_channel h (channel config));
        match chan with
        | Some chan =>
            mret ("Invites logging channel is currently set to " ++ channel_mention chan ++ ".")
        | None => mret "Invites logging channel is not set."
        end
    | Some chan =>
        (* [new_config = {"channel": str(channel.id), "webhook": None}] *)
        config_dict_update key (λ c,
          {| channel := py_str (channel_id chan); webhook := None;
             enable := enable c; store_data := store_data c |});;
        flush;;
        mret ("Log channel is now set to " ++ channel_mention chan ++ ".")
    end;
  call (CtxSend (plain_embed description)).

(** [Invites.invites_config_enable]. *)
Definition invites_config_enable (h : Host) (ctx : Context) (mode : option bool)
  : M World unit :=
  let key := py_str (ctx_guild ctx) in
  config ← guild_config (IdInt (ctx_guild ctx));
  '(mode, description) ←
    match mode with
    | None =>
        let mode := enable config in
        mret (mode, "Invites tracking logging is currently "
                      ++ (if mode then "`enabled`" else "`disabled`") ++ ".")
    | Some mode =>
        (* [new_config = {"enable": mode}] *)
        config_dict_update key (λ c,
          {| channel := channel c; webhook := webhook c;
             enable := mode; store_data := store_data c |});;
        let description :=
          (if mode then "Enabled " else "Disabled ") ++ "the logging for invites tracking." in
        flush;;
        mret (mode, description)
    end;
  call (CtxSend (plain_embed description));;
  if mode : bool
  then modify (set_tracker (λ t,
         {| invite_cache :=
              <[ctx_guild ctx := snapshot (guild_invites h (ctx_guild ctx))]> (invite_cache t);
            vanity_invites := vanity_invites t;
            user_records := user_records t |}))
  else mret tt.

(** [Invites.invites_config_reset]. *)
Definition invites_config_reset (ctx : Context) : M World unit :=
  let guild_id := py_str (ctx_guild ctx) in
  modify (set_config (config_setitem guild_id default_config));;
  flush;;
  call (CtxSend
    (add_field "Webhook URL:" "`None`"
       (add_field "Enabled:" "`False`"
          (add_field "Channel:" "`None`"
             (plain_embed "Configuration settings has been reset to default."))))).

(** [Invites.inv_store_enable]. *)
Definition inv_store_enable (ctx : Context) (mode : option bool) : M World unit :=
  let key := py_str (ctx_guild ctx) in
  config ← guild_config (IdInt (ctx_guild ctx));
  description ←
    match mode with
    | None =>
        let mode := store_data config in
        mret ("Invites tracking data store is currently "
                ++ (if mode then "`enabled`" else "`disabled`") ++ ".")
    | Some mode =>
        (* [new_config = {"enable": mode}] *)
        config_dict_update key (λ c,
          {| channel := channel c; webhook := webhook c;
             enable := mode; store_data := store_data c |});;
        let description :=
          (if mode then "Enabled " else "Disabled ") ++ "data store for invites tracking." in
        flush;;
        mret description
    end;
  call (CtxSend (plain_embed description)).

End Invites.

(** ** Python values of a stored document *)

Module Py.

(** The values of a configuration document: JSON-like, with dictionaries
    keyed by strings and kept in insertion order.  The induction principle
    that fits the nesting is [value_nested_ind] below. *)
#[local] Unset Elimination Schemes.
Inductive value :=
| VNone
| VBool (b : bool)
| VInt (n : Z)
| VStr (s : string)
| VList (l : list value)
| VDict (d : list (string * value)).
#[local] Set Elimination Schemes.

Abbreviation dict := (list (string * value)).

Definition is_dict (v : value) : bool :=
  match v with VDict _ => true | _ => false end.

(** [d.get(key)]: the value of the first entry with the key. *)
Fixpoint dict_get (key : string) (d : dict) : option value :=
  match d with
  | [] => None
  | (k, v) :: d' => if decide (k = key) then Some v else dict_get key d'
  end.

(** [d[key] = v]: an existing entry keeps its place, a new one goes last. *)
Fixpoint dict_set (key : string) (v : value) (d : dict) : dict :=
  match d with
  | [] => [(key, v)]
  | (k, v') :: d' =>
      if decide (k = key) then (k, v) :: d' else (k, v') :: dict_set key v d'
  end.

Definition keys (d : dict) : list string := d.*1.

(** [sub in s] on strings. *)
Definition is_substring (sub s : string) : bool :=
  match String.index 0 sub s with Some _ => true | None => false end.

(** [key in data]: membership in a dictionary's keys, a substring test on a
    string, an element test on a list; the other values are not
    iterable. *)
Definition contains (key : string) (data : value) : result bool :=
  match data with
  | VDict d => Ok (bool_decide (is_Some (dict_get key d)))
  | VStr s => Ok (is_substring key s)
  | VList l => Ok (existsb (λ v, match v with VStr s => bool_decide (s = key) | _ => false end) l)
  | _ => Raise (TypeError "argument is not iterable")
  end.

(** [data[key]] for a string key. *)
Definition getitem (key : string) (data : value) : result value :=
  match data with
  | VDict d =>
      match dict_get key d with
      | Some v => Ok v
      | None => Raise (KeyError key)
      end
  | VStr _ => Raise (TypeError "string indices must be integers")
  | VList _ => Raise (TypeError "list indices must be integers or slices, not str")
  | _ => Raise (TypeError "object is not subscriptable")
  end.

(** [data[key] = v] for a string key. *)
Definition setitem (key : string) (v : value) (data : value) : result value :=
  match data with
  | VDict d => Ok (VDict (dict_set key v d))
  | VList _ => Raise (TypeError "list indices must be integers or slices, not str")
  | _ => Raise (TypeError "object does not support item assignment")
  end.

(** [data.get(key)], an attribute of dictionaries only. *)
Definition get (key : string) (data : value) : result value :=
  match data with
  | VDict d => Ok (default VNone (dict_get key d))
  | _ => Raise (AttributeError "object has no attribute 'get'")
  end.

End Py.

(** ** The configuration of the support utilities *)

Module SupportUtilityConfig.
Import Py.

(** [_default_config]. *)
Definition _default_config : value :=
  VDict [
    ("contact", VDict [
      ("message", VNone);
      ("channel", VNone);
      ("embed", VDict [
        ("title", VStr "Contact Staff");
        ("description", VStr "Use button or dropdown below to contact our staff.");
        ("footer", VNone)]);
      ("button", VDict []);
      ("select", VDict [
        ("options", VList []);
        ("placeholder", VStr "Choose a category")]);
      ("override_dmdisabled", VBool false);
      ("confirmation", VDict [
        ("enable", VBool true);
        ("embed", VDict [
          ("title", VStr "Confirm thread creation");
          ("description", VStr "Use the button below to confirm thread creation which will directly contact the moderators.");
          ("footer", VNone)])])]);
    ("feedback", VDict [
      ("enable", VBool false);
      ("channel", VNone);
      ("embed", VDict [
        ("title", VStr "Feedback");
        ("description", VStr "Press the button below to give a feedback.");
        ("footer", VNone)]);
      ("button", VDict []);
      ("response", VStr "Thanks for your time. Your feedback has been submitted to our staff team.");
      ("active_sessions", VList []);
      ("rating", VDict [
        ("enable", VBool false);
        ("placeholder", VStr "Choose a rating")])])].

(** The child dictionary [data[key]] is mutated in place by the recursive
    call: the parent sees the result under the same key. *)
Definition store_child (key : string) (child : value) (data : value) : value :=
  match data with
  | VDict d => VDict (dict_set key child d)
  | _ => data
  end.

(** The loop of [recursively_resolve_keys] over [base.items()], the
    recursive call being [rec]. *)
Fixpoint resolve_items (rec : value → value → result value)
    (items : dict) (data : value) : result value :=
  match items with
  | [] => Ok data
  | (key, value) :: items =>
      match contains key data with
      | Raise e => Raise e
      | Ok false =>
          match setitem key (deepcopy value) data with
          | Ok data => resolve_items rec items data
          | Raise e => Raise e
          end
      | Ok true =>
          if is_dict value then
            (* go deeper *)
            match getitem key data with
            | Ok child =>
                match rec value child with
                | Ok child => resolve_items rec items (store_child key child data)
                | Raise e => Raise e
                end
            | Raise e => Raise e
            end
          else resolve_items rec items data
      end
  end.

(** [SupportUtilityConfig.recursively_resolve_keys(base, data)]; it returns
    [data] as the call leaves it. *)
Fixpoint recursively_resolve_keys (base : value) (data : value) {struct base}
  : result value :=
  match base with
  | VDict items => resolve_items recursively_resolve_keys items data
  | _ => Raise (AttributeError "object has no attribute 'items'")
  end.

(** [SupportUtilityConfig.fetch], on the cache that [Config.fetch] has
    filled with the stored document. *)
Definition fetch (_cache : value) : result value :=
  recursively_resolve_keys _default_config _cache.

End SupportUtilityConfig.

(** ** The contact panel view *)

Module Views.
Import Py.

(** [core.models.DMDisabled] of the host bot. *)
Inductive DMDisabled := NONE | NEW_THREADS | ALL_THREADS.

(** A thread of the host bot; [thread_channel] is the mention of its
    channel, if it has one. *)
Record Thread := { thread_channel : option string }.

Record InteractionUser := { user_id : Z; user_repr : string }.

(** The host bot, as [interaction_check] asks it. *)
Record Bot := {
  (** [bot.guild.get_member(user.id)] is not [None]. *)
  guild_get_member : Z → bool;
  (** [await bot.threads.find(recipient=user)]. *)
  threads_find : Z → option Thread;
  (** [await bot.is_blocked(user)]. *)
  is_blocked : Z → bool;
  (** [bot.config["dm_disabled"]] and
      [bot.config["disabled_new_thread_response"]]. *)
  dm_disabled : DMDisabled;
  disabled_new_thread_response : string;
  bot_user_name : string;
}.

(** What the view does with the interaction. *)
Inductive Action :=
| Defer
| SendMessage (embed_description : string) (ephemeral : bool)
| LoggerInfo (msg : string).

(** [ContactView.interaction_check]: the actions taken, and the value
    returned. *)
Definition interaction_check (bot : Bot) (user : InteractionUser) : list Action * bool :=
  if negb (guild_get_member bot (user_id user)) then ([Defer], false)
  else
    let exists_ := threads_find bot (user_id user) in
    match exists_ with
    | Some thread =>
        let content := "A thread for you already exists" in
        let content :=
          match thread_channel thread with
          | Some mention => content ++ " in " ++ mention
          | None => content
          end in
        let content := content ++ "." in
        ([SendMessage content true], false)
    | None =>
        if is_blocked bot (user_id user) then
          ([SendMessage
              ("You are currently blocked from contacting " ++ bot_user_name bot ++ ".") true],
           false)
        else
          match dm_disabled bot with
          | NEW_THREADS | ALL_THREADS =>
              ([LoggerInfo
                  ("A new thread using contact menu was blocked from " ++ user_repr user
                     ++ " due to disabled Modmail.");
                SendMessage (disabled_new_thread_response bot) true],
               false)
          | NONE => ([], true)
          end
    end.

(** [discord.ButtonStyle], with its names and aliases. *)
Inductive ButtonStyle := primary | secondary | success | danger | link.

Definition ButtonStyle_getitem (name : value) : result ButtonStyle :=
  match name with
  | VStr s =>
      if decide (s = "primary") then Ok primary
      else if decide (s = "secondary") then Ok secondary
      else if decide (s = "success") then Ok success
      else if decide (s = "danger") then Ok danger
      else if decide (s = "link") then Ok link
      else if decide (s = "blurple") then Ok primary
      else if decide (s = "grey") then Ok secondary
      else if decide (s = "gray") then Ok secondary
      else if decide (s = "green") then Ok success
      else if decide (s = "red") then Ok danger
      else if decide (s = "url") then Ok link
      else Raise (KeyError s)
  | VList _ | VDict _ => Raise (TypeError "unhashable type")
  | _ => Raise (KeyError "")
  end.

Record Button := {
  emoji : value;
  label : value;
  style : ButtonStyle;
  custom_id : string;
}.

(** A [ContactView] object; [select_options] is unset until [__init__]
    assigns it. *)
Record ContactView := {
  message : option Z;
  timeout : option Z;
  select_options : option value;
  children : list Button;
}.

(** The [ContactManager] of the cog: the attached view, [MISSING] being
    [None], and the contact configuration. *)
Record ContactManager := {
  view : option nat;
  config : value;
}.

(** The objects: the manager and the views, by object identity. *)
Record World := {
  manager : ContactManager;
  views : gmap nat ContactView;
}.

Definition set_view (self : nat) (f : ContactView → ContactView) : M World unit :=
  modify (λ w, {| manager := manager w; views := alter f self (views w) |}).

(** [BaseView.__init__(cog, message=message, timeout=None)] on the new
    object. *)
Definition BaseView__init__ (self : nat) (message : option Z) : M World unit :=
  modify (λ w,
    {| manager := manager w;
       views := <[self := {| message := message; timeout := None;
                             select_options := None; children := [] |}]> (views w) |}).

Definition already_attached : string :=
  "Another view is already attached to ContactManager instance.".

(** [ContactView.__init__(self, cog, message)]. *)
Definition ContactView__init__ (self : nat) (message : option Z) : M World unit :=
  BaseView__init__ self message;;
  manager_view ← gets (λ w, view (manager w));
  match manager_view with
  | Some _ => raise (RuntimeError already_attached)
  | None =>
      modify (λ w,
        {| manager := {| view := Some self; config := config (manager w) |};
           views := views w |});;
      manager_config ← gets (λ w, config (manager w));
      select ← lift (getitem "select" manager_config);
      options ← lift (getitem "options" select);
      set_view self (λ v,
        {| message := Views.message v; timeout := timeout v;
           select_options := Some options; children := children v |});;
      button_config ← lift (getitem "button" manager_config);
      emoji ← lift (get "emoji" button_config);
      label ← lift (get "label" button_config);
      let label :=
        match emoji, label with
        | VNone, VNone => VStr "Contact"
        | _, _ => label
        end in
      style_name ← lift (get "style" button_config);
      let style :=
        match ButtonStyle_getitem style_name with
        | Ok style => style
        | Raise _ => secondary
        end in
      let payload :=
        {| emoji := emoji; label := label; style := style;
           custom_id := "contact_button" |} in
      set_view self (λ v,
        {| message := Views.message v; timeout := timeout v;
           select_options := select_options v; children := children v ++ [payload] |})
  end.

End Views.

(** ** More of the invites cog *)

Module InviteCommands.
Import Invites.

(** *** The list of invites *)

(** [sorted(invites_list, key=lambda invite: invite.uses)]: a stable
    sort. *)
Fixpoint insert_by_uses (i : Invite) (l : list Invite) : list Invite :=
  match l with
  | [] => [i]
  | x :: l' => if uses i <=? uses x then i :: l else x :: insert_by_uses i l'
  end.

Definition sorted_by_uses (invites : list Invite) : list Invite :=
  foldr insert_by_uses [] invites.

(** An embed of the paginator session; the colour of every page is the
    dark theme. *)
Record Page := { page_title : string; page_description : string }.

(** The line of an invite; [invite.inviter.id] raises on an invite without
    inviter.  [str_user] is [str(invite.inviter)]. *)
Definition invite_line (str_user : User → string) (invite : Invite) : result string :=
  match inviter invite with
  | Some u =>
      Ok (py_str (uses invite) ++ " - " ++ str_user u ++ " (`" ++ py_str (user_id u)
            ++ "`) - " ++ code invite ++ nl)
  | None => Raise (AttributeError "'NoneType' object has no attribute 'id'")
  end.

(** [embed.description += line] on the embed that was appended last. *)
Fixpoint append_to_last (line : string) (embeds : list Page) : list Page :=
  match embeds with
  | [] => []
  | [embed] =>
      [{| page_title := page_title embed;
          page_description := page_description embed ++ line |}]
  | embed :: embeds => embed :: append_to_last line embeds
  end.

(** One turn of the loop of [invites_list], on the embeds and the number of
    entries of the current embed. *)
Definition list_step (line : string) (state : list Page * Z) : list Page * Z :=
  let '(embeds, entries) := state in
  if entries =? 25 then
    ((embeds ++ [{| page_title := "List of Invites (Continued)";
                    page_description := line |}])%list, 1)
  else (append_to_last line embeds, entries + 1).

Fixpoint list_loop (str_user : User → string) (invites : list Invite)
    (state : list Page * Z) : result (list Page) :=
  match invites with
  | [] => Ok state.1
  | invite :: invites =>
      match invite_line str_user invite with
      | Ok line => list_loop str_user invites (list_step line state)
      | Raise e => Raise e
      end
  end.

Definition no_invites : string := "Currently there are no list of invites available.".

(** [Invites.invites_list]: the embeds handed to the paginator session. *)
Definition invites_list (str_user : User → string) (fetched : list Invite)
  : result (list Page) :=
  let embeds := [{| page_title := "List of Invites"; page_description := "" |}] in
  match fetched with
  | [] => Ok [{| page_title := "List of Invites"; page_description := no_invites |}]
  | _ => list_loop str_user (reverse (sorted_by_uses fetched)) (embeds, 0)
  end.

(** *** Invite creation *)

(** The invite of [on_invite_create], with the attributes that only this
    listener reads. *)
Record CreatedInvite := {
  created : Invite;
  created_guild : Z;
  created_url : string;
  created_max_uses : Z;
}.

(** [cached_invites.update({invite})]: a set keeps the element it has when
    an equal one is added. *)
Definition set_add (invite : Invite) (cached : gmap string Invite) : gmap string Invite :=
  match cached !! code invite with
  | Some _ => cached
  | None => <[code invite := invite]> cached
  end.

(** The embed of [on_invite_create]; [blue] is [discord.Color.blue()]. *)
Definition created_embed (blue : Color) (invite : CreatedInvite) : result Embed :=
  match inviter (created invite) with
  | None => Raise (AttributeError "'NoneType' object has no attribute 'name'")
  | Some u =>
      let max_usage :=
        if bool_decide (created_max_uses invite ≠ 0) then py_str (created_max_uses invite)
        else "Unlimited" in
      Ok (add_field "Max usage:" max_usage
           (add_field "Expires at:" (_string_fmt_dt (expires_at (created invite)))
             (add_field "Created at:" (_string_fmt_dt (created_at (created invite)))
               (add_field "Channel:"
                  (match invite_channel (created invite) with
                   | Some c => channel_mention c
                   | None => "None"
                   end)
                  (add_field "Created by:" (inviter_text u)
                     {| title := "Invite created"; description := created_url invite;
                        color := blue; thumbnail := ""; footer := ""; fields := [] |})))))
  end.

(** [Invites.on_invite_create]. *)
Definition on_invite_create (h : Host) (blue : Color) (invite : CreatedInvite)
  : M World unit :=
  let guild := created_guild invite in
  config ← guild_config (IdInt guild);
  if negb (enable config) then mret tt
  else
    cached_invites ← gets (λ w, invite_cache (tracker w) !! guild);
    let cached_invites :=
      match cached_invites with
      | None => snapshot (guild_invites h guild)
      | Some cached_invites => set_add (created invite) cached_invites
      end in
    modify (set_tracker (λ t,
      {| invite_cache := <[guild := cached_invites]> (invite_cache t);
         vanity_invites := vanity_invites t;
         user_records := user_records t |}));;
    chan ← lift (guild_get_channel h guild (channel config));
    match chan with
    | None => mret tt
    | Some chan =>
        embed ← lift (created_embed blue invite);
        send_log_embed h chan embed
    end.

(** *** Stored user data *)

Definition BadArgument (msg : string) : exn := Exn "BadArgument" msg.

(** [Invites.inv_store_del]. *)
Definition inv_store_del (user_id : Z) : M World unit :=
  data ← remove_user_data user_id;
  match data with
  | None => raise (BadArgument ("Data for user ID `" ++ py_str user_id ++ "` does not exist."))
  | Some _ =>
      call (CtxSend (plain_embed ("Data for user ID `" ++ py_str user_id ++ "` is now removed.")))
  end.

End InviteCommands.

(** ** The contact panel at work *)

Module ContactFlow.
Import Py.

(** [a == b] on the values of a document. *)
Fixpoint py_eq (a b : value) {struct a} : bool :=
  match a, b with
  | VNone, VNone => true
  | VBool x, VBool y => bool_decide (x = y)
  | VBool x, VInt n => bool_decide (n = if x then 1 else 0)
  | VInt n, VBool x => bool_decide (n = if x then 1 else 0)
  | VInt n, VInt m => bool_decide (n = m)
  | VStr s, VStr t => bool_decide (s = t)
  | VList l, VList l' =>
      (fix go (l l' : list value) : bool :=
         match l, l' with
         | [], [] => true
         | x :: l, y :: l' => py_eq x y && go l l'
         | _, _ => false
         end) l l'
  | VDict d, VDict d' =>
      bool_decide (length d = length d')
      && (fix go (d : dict) : bool :=
            match d with
            | [] => true
            | (k, v) :: d =>
                match dict_get k d' with
                | Some v' => py_eq v v'
                | None => false
                end && go d
            end) d
  | _, _ => false
  end.

(** [bool(v)]. *)
Definition truthy (v : value) : bool :=
  match v with
  | VNone => false
  | VBool b => b
  | VInt n => bool_decide (n ≠ 0)
  | VStr s => bool_decide (s ≠ "")
  | VList l => bool_decide (l ≠ [])
  | VDict d => bool_decide (d ≠ [])
  end.

(** [for data in v]: the elements of a list, the keys of a dictionary, the
    characters of a string. *)
Definition iter (v : value) : result (list value) :=
  match v with
  | VList l => Ok l
  | VDict d => Ok (VStr <$> keys d)
  | VStr s => Ok ((λ c, VStr (String c "")) <$> String.list_ascii_of_string s)
  | _ => Raise (TypeError "object is not iterable")
  end.

(** [discord.SelectOption]. *)
Record SelectOption := {
  opt_emoji : value;
  opt_label : value;
  opt_description : value;
  opt_value : value;
}.

(** [discord.SelectOption(emoji=emoji, label=label, description=description)]:
    the value is the label when none is given, and the emoji is a string or
    [None]. *)
Definition SelectOption__init__ (emoji label description : value) : result SelectOption :=
  match emoji with
  | VNone | VStr _ =>
      Ok {| opt_emoji := emoji; opt_label := label; opt_description := description;
            opt_value := label |}
  | _ => Raise (TypeError "expected str, Emoji, or PartialEmoji")
  end.

(** [DropdownMenu.get_option], on the options of the menu. *)
Fixpoint get_option (options : list SelectOption) (value : string) : result SelectOption :=
  match options with
  | [] => Raise (ValueError ("Cannot find select option with value of `" ++ value ++ "`."))
  | option :: options =>
      if py_eq (VStr value) (opt_value option) then Ok option
      else get_option options value
  end.

(** What the user and the host bot answer during one interaction. *)
Record Host := {
  (** The value that the user submits in the dropdown, [None] when the
      dropdown times out. *)
  submitted : option string;
  (** [await interaction.followup.send(view=view, ephemeral=True)]. *)
  followup_send : list SelectOption → result unit;
  (** [int(s)] for a string: the number it denotes, if it denotes one. *)
  int_str : string → option Z;
  (** [str(v)] for a value that is neither a string nor an integer. *)
  str_other : value → string;
  (** [bot.get_channel(id)] is not [None]; the channel is known by its
      id. *)
  get_channel : Z → bool;
  (** Modelled from the spec: [ContactManager.create], which creates the
      support thread; it returns a thread, cancelled or not, or raises. *)
  manager_create : result bool;
  (** [await thread.wait_until_ready()]. *)
  wait_until_ready : result unit;
  (** [await thread.channel.send(embed=embed)]. *)
  thread_channel_send : result unit;
}.

Inductive Event :=
| ResponseDefer
| FollowupSend (options : list SelectOption) (placeholder : value)
| MessageDelete
| LoggerError (msg : string)
(** [BaseView.on_error] for an exception of an item callback. *)
| ViewError (e : exn)
| ManagerCreate (recipient : Z) (category : option Z)
| ThreadSend (title description : string).

Definition emit (e : Event) : M (list Event) unit := modify (λ evs, (evs ++ [e])%list).

(** [str(v)] in an f-string. *)
Definition format_value (h : Host) (v : value) : string :=
  match v with
  | VStr s => s
  | VInt n => py_str n
  | _ => str_other h v
  end.

(** [int(v)]. *)
Definition int_ (h : Host) (v : value) : result Z :=
  match v with
  | VInt n => Ok n
  | VBool b => Ok (if b then 1 else 0)
  | VStr s =>
      match int_str h s with
      | Some n => Ok n
      | None => Raise (ValueError ("invalid literal for int() with base 10: " ++ s))
      end
  | _ => Raise (TypeError "int() argument must be a string, a bytes-like object or a real number")
  end.

(** The option built from one entry of the select options. *)
Definition build_option (data : value) : result SelectOption :=
  emoji ← get "emoji" data;
  label ← getitem "label" data;
  description ← get "description" data;
  SelectOption__init__ emoji label description.

Fixpoint build_options (datas : list value) : result (list SelectOption) :=
  match datas with
  | [] => Ok []
  | data :: datas =>
      option ← build_option data;
      options ← build_options datas;
      Ok (option :: options)
  end.

(** [DropdownMenu.callback] followed by [ContactView._dropdown_callback],
    run by the dropdown view when the user submits [value]: the option
    left in [view.inputs], if any.  An exception of the callback goes to
    [on_error], and the view keeps waiting until it times out.  The calls
    to Discord in the two callbacks are taken to return.  The default flags
    that the callback sets on the options are not kept: the message of the
    dropdown is deleted at once. *)
Definition dropdown_callback (options : list SelectOption) (value : string)
  : M (list Event) (option SelectOption) :=
  match get_option options value with
  | Raise e => emit (ViewError e);; mret None
  | Ok option => emit ResponseDefer;; emit MessageDelete;; mret (Some option)
  end.

(** The loop that looks up the category id of the chosen label. *)
Fixpoint find_category_id (datas : list value) (label : value) : result value :=
  match datas with
  | [] => Ok VNone
  | data :: datas =>
      data_label ← get "label" data;
      if py_eq data_label label then get "category" data
      else find_category_id datas label
  end.

(** The first part of [ContactView.handle_interaction]: the category of the
    thread to create, [None] being the main category, or no thread at all
    when the dropdown was left alone. *)
Definition choose_category (h : Host) (view : Views.ContactView) (config : value)
  : M (list Event) (option (option Z)) :=
  match Views.select_options view with
  | None => raise (AttributeError "'ContactView' object has no attribute 'select_options'")
  | Some select_options =>
      if truthy select_options then
        datas ← lift (iter select_options);
        options ← lift (build_options datas);
        select ← lift (getitem "select" config);
        placeholder ← lift (get "placeholder" select);
        lift (followup_send h options);;
        emit (FollowupSend options placeholder);;
        inputs ← match submitted h with
                 | Some value => dropdown_callback options value
                 | None => mret None
                 end;
        match inputs with
        | None => mret None
        | Some option =>
            category_id ← lift (find_category_id datas (opt_label option));
            match category_id with
            | VNone =>
                raise (ValueError ("Category ID for " ++ format_value h (opt_label option)
                                     ++ " was not set."))
            | _ =>
                channel_id ← lift (int_ h category_id);
                if get_channel h channel_id then mret (Some (Some channel_id))
                else
                  (* just log, the thread will be created in main category *)
                  emit (LoggerError ("Category with ID " ++ format_value h category_id
                                       ++ " not found."));;
                  mret (Some None)
            end
        end
      else mret (Some None)
  end.

(** [user.mention]. *)
Definition mention (user : Views.InteractionUser) : string :=
  "<@" ++ py_str (Views.user_id user) ++ ">".

(** [ContactView.handle_interaction(interaction, button)]. *)
Definition handle_interaction (h : Host) (view : Views.ContactView) (config : value)
    (user : Views.InteractionUser) : M (list Event) unit :=
  emit ResponseDefer;;
  category ← choose_category h view config;
  match category with
  | None => mret tt
  | Some category =>
      emit (ManagerCreate (Views.user_id user) category);;
      cancelled ← lift (manager_create h);
      if cancelled : bool then mret tt
      else
        lift (wait_until_ready h);;
        lift (thread_channel_send h);;
        emit (ThreadSend "Created Thread" ("Thread started by " ++ mention user ++ "."))
  end.

End ContactFlow.

(** ** Modals *)

Module ModalFlow.

(** A text input of a modal: its name in the view and what the user
    typed. *)
Record TextInput := { name : string; value : string }.

(** The inputs of a view: the typed text, or [None]. *)
Abbreviation Inputs := (gmap string (option string)).

(** The loop of [Modal.on_submit] over [self.children], on
    [self.view.inputs]. *)
Definition on_submit (children : list TextInput) (inputs : Inputs) : Inputs :=
  foldl (λ inputs child,
    let value := value child in
    let value :=
      (* resolve empty string value *)
      if bool_decide (value = "") then None else Some value in
    <[name child := value]> inputs) inputs children.

End ModalFlow.

(** * Specification vocabulary *)

Import Invites.
Import Py SupportUtilityConfig.

(** What [send_log_embed] does when no webhook URL is stored: a webhook is
    looked up or created, and its URL stored when there is one. *)
Definition send_with_fresh_webhook (h : Host) (chan : TextChannel) (embed : Embed)
  : M World unit :=
  webhook ← _get_or_create_webhook h chan;
  match webhook with
  | Some wh =>
      config_dict_update (py_str (channel_guild chan)) (λ c,
        {| channel := channel c; webhook := Some (webhook_url wh);
           enable := enable c; store_data := store_data c |});;
      flush;;
      call (WebhookSend wh embed (bot_user_name h) (bot_avatar_url h) true)
  | None => call (ChannelSend chan embed)
  end.

(** The webhook URL stored for a guild; a guild without a document has the
    default, which is [None]. *)
Definition stored_webhook (guild : Z) (w : World) : option string :=
  config_get (py_str guild) (config w) ≫= webhook.

(** The creation of a webhook fails: the bot is no member of the guild or
    lacks the permission to manage webhooks, or no webhook of its own
    exists and [create_webhook] raises. *)
Definition creation_fails (h : Host) (chan : TextChannel) : Prop :=
  guild_has_bot_member h (channel_guild chan) = false
  ∨ manage_webhooks h chan = false
  ∨ (find_own_webhook (channel_webhooks h chan) = None
     ∧ ∃ e, create_webhook h chan = Raise e).

(** A webhook is obtained: the bot may manage webhooks, and either owns one
    in the channel or creates one. *)
Definition webhook_obtained (h : Host) (chan : TextChannel) (wh : Webhook) : Prop :=
  guild_has_bot_member h (channel_guild chan) = true
  ∧ manage_webhooks h chan = true
  ∧ (find_own_webhook (channel_webhooks h chan) = Some wh
     ∨ (find_own_webhook (channel_webhooks h chan) = None
        ∧ create_webhook h chan = Ok wh)).

(** A call that only writes to the log. *)
Definition is_logger_error (c : ApiCall) : Prop :=
  match c with LoggerError _ => True | _ => False end.

(** The world after the calls [l]. *)
Definition log_calls (l : list ApiCall) (w : World) : World :=
  {| config := config w; tracker := tracker w; calls := calls w ++ l |}.

(** The embed reaches Discord through the channel or through a webhook. *)
Definition sends_embed (chan : TextChannel) (embed : Embed) (c : ApiCall) : Prop :=
  c = ChannelSend chan embed
  ∨ ∃ wh username avatar_url, c = WebhookSend wh embed username avatar_url true.

(** Two documents that differ at most by the webhook URL. *)
Definition same_but_webhook (c c' : GuildConfigData) : Prop :=
  channel c' = channel c ∧ enable c' = enable c ∧ store_data c' = store_data c.

(** The record of a user after [save_user_data]. *)
Definition saved_records (member : Member) (invite : Invite) (recs : gmap Z UserData)
  : gmap Z UserData :=
  <[member_id member :=
      {| guilds :=
           <[py_str (member_guild member) := {| entry_invite := Some (invite_data invite) |}]>
             (default ∅ (guilds <$> recs !! member_id member)) |}]> recs.

(** The value found by following a path of keys through nested
    dictionaries. *)
Fixpoint get_path (path : list string) (v : value) : option value :=
  match path with
  | [] => Some v
  | key :: path =>
      match v with
      | VDict d =>
          match dict_get key d with
          | Some child => get_path path child
          | None => None
          end
      | _ => None
      end
  end.

(** A dictionary literal has each key once, at every depth. *)
Fixpoint unique_keys (v : value) : bool :=
  match v with
  | VDict items =>
      bool_decide (NoDup (keys items)) && forallb (λ '(_, v), unique_keys v) items
  | _ => true
  end.

(** A stored partial document of the defaults [base]: a dictionary which,
    under each of its keys that holds a dictionary in the defaults, holds a
    partial document of that dictionary.  Keys may be missing at any depth,
    other keys may be present, and the values stored where the defaults
    hold no dictionary are free. *)
Fixpoint partial_document (base data : value) {struct base} : bool :=
  match base with
  | VDict items =>
      match data with
      | VDict d =>
          forallb (λ '(key, value),
            match dict_get key d with
            | Some child => if is_dict value then partial_document value child else true
            | None => true
            end) items
      | _ => false
      end
  | _ => true
  end.

(** What [recursively_resolve_keys base data] leaves in [data']: every
    stored path is still there, with its stored value wherever the defaults
    hold no dictionary; every path of the defaults is there; and a key
    missing from a stored dictionary holds the default value. *)
Definition resolved (base data data' : value) : Prop :=
  is_dict data' = true
  ∧ (∀ path v, get_path path data = Some v →
       ∃ v', get_path path data' = Some v' ∧ is_dict v' = is_dict v
             ∧ ((∀ sub, get_path path base ≠ Some (VDict sub)) → v' = v))
  ∧ (∀ path, is_Some (get_path path base) → is_Some (get_path path data'))
  ∧ (∀ path key v d,
       get_path path data = Some (VDict d) → dict_get key d = None →
       get_path (path ++ [key]) base = Some v →
       get_path (path ++ [key]) data' = Some v).

(** The call on the defaults [base] returns, with a resolved document. *)
Definition resolves (base : value) : Prop :=
  ∀ data,
    is_dict base = true → unique_keys base = true → partial_document base data = true →
    ∃ data', recursively_resolve_keys base data = Ok data' ∧ resolved base data data'.

(** The members of the guild that joined before [member], and those that
    joined no later. *)
Definition joined_before (member : Member) (members : list Member) : list Member :=
  filter (λ x, member_joined_at x < member_joined_at member) members.

Definition joined_no_later (member : Member) (members : list Member) : list Member :=
  filter (λ x, member_joined_at x ≤ member_joined_at member) members.

(** The members that joined at the same time as [member]. *)
Definition joined_with (member : Member) (members : list Member) : list Member :=
  filter (λ x, member_joined_at x = member_joined_at member) members.

(** The order of [sorted(members, key=lambda m: m.joined_at)]. *)
Definition joined_le (x y : Member) : Prop := member_joined_at x ≤ member_joined_at y.

(** The order in which [invites_list] shows the invites. *)
Definition listing (invites : list Invite) : list Invite :=
  reverse (InviteCommands.sorted_by_uses invites).

(** The embeds that show groups of lines: the first one under the title of
    the list, the others as its continuation. *)
Definition pages_of (groups : list (list string)) : list InviteCommands.Page :=
  imap (λ i group,
    {| InviteCommands.page_title :=
         if decide (i = 0%nat) then "List of Invites" else "List of Invites (Continued)";
       InviteCommands.page_description := foldr String.append "" group |}) groups.

(** Every run of the computation [m], returning or raising, relates the
    world before to the world after by [R]. *)
Definition keeps {W A} (R : W → W → Prop) (m : M W A) : Prop :=
  ∀ w r w', m w = (r, w') → R w w'.

(** The tracker is the same. *)
Definition same_tracker (w w' : World) : Prop := tracker w' = tracker w.

(** The loop of [recursively_resolve_keys] has nothing to do for the item:
    the key is in [data] and, where the default value is a dictionary, the
    recursive call returns the stored child as it is. *)
Definition settled (rec : value → value → result value) (item : string * value)
    (data : value) : Prop :=
  contains item.1 data = Ok true
  ∧ (is_dict item.2 = true →
     ∃ child, getitem item.1 data = Ok child ∧ rec item.2 child = Ok child).

(** The threads that the contact panel asked for: the recipient and the
    category of each [ContactManager.create]. *)
Definition creates (evs : list ContactFlow.Event) : list (Z * option Z) :=
  omap (λ e, match e with
             | ContactFlow.ManagerCreate recipient category => Some (recipient, category)
             | _ => None
             end) evs.

(** The events about the thread: its creation and the message in it. *)
Definition is_thread_event (e : ContactFlow.Event) : bool :=
  match e with
  | ContactFlow.ManagerCreate _ _ | ContactFlow.ThreadSend _ _ => true
  | _ => false
  end.

Definition no_thread_event (evs : list ContactFlow.Event) : bool :=
  forallb (λ e, negb (is_thread_event e)) evs.

(** What follows the request for a thread: the creation, then, for a
    thread that is not cancelled, the wait and the message in the thread.
    The result of the three calls, and whether the message was sent. *)
Definition after_creation (h : ContactFlow.Host) : result unit * bool :=
  match ContactFlow.manager_create h with
  | Raise e => (Raise e, false)
  | Ok true => (Ok tt, false)
  | Ok false =>
      match ContactFlow.wait_until_ready h with
      | Raise e => (Raise e, false)
      | Ok _ =>
          match ContactFlow.thread_channel_send h with
          | Raise e => (Raise e, false)
          | Ok _ => (Ok tt, true)
          end
      end
  end.

(** The events [evs'] extend [evs] with no event about the thread. *)
Definition quiet (evs evs' : list ContactFlow.Event) : Prop :=
  ∃ new, evs' = (evs ++ new)%list ∧ no_thread_event new = true.

(** The user chose the label [v] in the dropdown, and [category_id] is the
    category of the first select option of the view with that label. *)
Definition routed (h : ContactFlow.Host) (view : Views.ContactView) (v : string)
    (category_id : value) : Prop :=
  ∃ datas before data after,
    Views.select_options view = Some (VList datas)
    ∧ ContactFlow.submitted h = Some v
    ∧ datas = (before ++ data :: after)%list
    ∧ Forall (λ d, get "label" d ≠ Ok (VStr v)) before
    ∧ get "label" data = Ok (VStr v)
    ∧ get "category" data = Ok category_id
    ∧ category_id ≠ VNone.

(** ** Sample inputs *)

(** No document, no cached invite, no stored record. *)
Definition empty_world : World :=
  {| config := {| cache := ∅; database := ∅ |};
     tracker := {| invite_cache := ∅; vanity_invites := ∅; user_records := ∅ |};
     calls := [] |}.

(** The document of the guild 7: logging to the channel 5 through a stored
    webhook, data storing enabled. *)
Definition sample_config : GuildConfigData :=
  {| channel := "5"; webhook := Some "https://discord.com/api/webhooks/1/t";
     enable := true; store_data := true |}.

Definition sample_world : World :=
  {| config := {| cache := {["7" := sample_config]}; database := {["7" := sample_config]} |};
     tracker := {| invite_cache := ∅; vanity_invites := ∅; user_records := ∅ |};
     calls := [] |}.

Definition log_channel : TextChannel :=
  {| channel_id := 5; channel_guild := 7; channel_mention := "<#5>" |}.

Definition created_webhook : Webhook :=
  {| webhook_url := "https://discord.com/api/webhooks/2/u"; webhook_token := Some "u" |}.

Definition bob : User := {| user_id := 2; user_name := "bob" |}.

Definition alice : Member :=
  {| member_id := 1; member_name := "alice"; member_mention := "<@1>";
     member_bot := false; member_guild := 7;
     member_avatar := "https://cdn.discordapp.com/avatars/1.png";
     member_created_at := 100; member_joined_at := 200;
     member_nick := None; member_roles := [("@everyone", true)] |}.

Definition invite_abc (n : Z) : Invite :=
  {| code := "abc"; uses := n; inviter := Some bob;
     invite_channel := Some log_channel; created_at := Some 50; expires_at := None |}.

Definition invite_xyz (n : Z) : Invite :=
  {| code := "xyz"; uses := n; inviter := None;
     invite_channel := None; created_at := Some 60; expires_at := Some 900 |}.

Definition vanity_invite : Invite :=
  {| code := "modmail"; uses := 10; inviter := None;
     invite_channel := Some log_channel; created_at := None; expires_at := None |}.

(** A host whose bot is a member of every guild; [may_manage] is its
    permission to manage webhooks, [creation] the outcome of
    [create_webhook], [fresh] the invites that Discord returns. *)
Definition sample_host (may_manage : bool) (creation : result Webhook) (fresh : list Invite)
  : Host :=
  {| bot_user_id := 99;
     bot_user_name := "Modmail";
     bot_avatar_url := "https://cdn.discordapp.com/avatars/99.png";
     guild_get_channel := λ _ s, if decide (s = "5") then Ok (Some log_channel) else Ok None;
     bot_get_channel := λ s, if decide (s = "5") then Ok (Some log_channel) else Ok None;
     guild_has_bot_member := λ _, true;
     manage_webhooks := λ _, may_manage;
     channel_webhooks := λ _, [];
     create_webhook := λ _, creation;
     webhook_from_url := λ url, Ok {| webhook_url := url; webhook_token := None |};
     guild_invites := λ _, fresh;
     guild_members := λ _, [alice];
     time_age := λ _, "2 years ago";
     age := λ _, "3 days";
     resolve_channel := λ _, None;
     resolve_user := λ _, None |}.

Definition creation_error : exn := Exn "HTTPException" "500 Internal Server Error".

(** The guild 7 logs to the channel 5 and has cached two invites. *)
Definition join_world : World :=
  {| config := {| cache := {["7" := sample_config]}; database := {["7" := sample_config]} |};
     tracker :=
       {| invite_cache := {[7 := snapshot [invite_abc 3; invite_xyz 1]]};
          vanity_invites := ∅;
          user_records := ∅ |};
     calls := [] |}.

Definition entry_abc : GuildEntry := {| entry_invite := Some (invite_data (invite_abc 4)) |}.

Definition alice_data : UserData := {| guilds := {["7" := entry_abc; "8" := entry_abc]} |}.

(** The user 1 has a stored record with entries for the guilds 7 and 8. *)
Definition leave_world : World :=
  {| config := {| cache := {["7" := sample_config]}; database := {["7" := sample_config]} |};
     tracker :=
       {| invite_cache := ∅; vanity_invites := ∅; user_records := {[1 := alice_data]} |};
     calls := [] |}.

Definition disabled_config : GuildConfigData :=
  {| channel := "5"; webhook := None; enable := false; store_data := true |}.

(** The same record, in a guild whose logging is disabled. *)
Definition disabled_world : World :=
  {| config := {| cache := {["7" := disabled_config]}; database := {["7" := disabled_config]} |};
     tracker :=
       {| invite_cache := ∅; vanity_invites := ∅; user_records := {[1 := alice_data]} |};
     calls := [] |}.

(** A stored document with one default key changed and most keys
    missing. *)
Definition stored_document : value :=
  VDict [
    ("contact", VDict [
      ("channel", VStr "1234");
      ("embed", VDict [("title", VStr "Help desk")])]);
    ("version", VInt 3)].

Definition plain_bot : Views.Bot :=
  {| Views.guild_get_member := λ _, true;
     Views.threads_find := λ _, None;
     Views.is_blocked := λ _, false;
     Views.dm_disabled := Views.NONE;
     Views.disabled_new_thread_response := "Modmail is not accepting new threads.";
     Views.bot_user_name := "Modmail" |}.

Definition contact_config : value :=
  default VNone (dict_get "contact"
    match _default_config with VDict d => d | _ => [] end).

Definition detached_world : Views.World :=
  {| Views.manager := {| Views.view := None; Views.config := contact_config |};
     Views.views := ∅ |}.

Definition attached_world : Views.World :=
  {| Views.manager := {| Views.view := Some 1%nat; Views.config := contact_config |};
     Views.views :=
       {[1%nat := {| Views.message := None; Views.timeout := None;
                     Views.select_options := Some (VList []); Views.children := [] |}]} |}.

(** An invite that has just been created in the guild 7, and the event
    that announces it. *)
Definition invite_new (n : Z) : Invite :=
  {| code := "new"; uses := n; inviter := Some bob;
     invite_channel := Some log_channel; created_at := Some 70; expires_at := None |}.

Definition created_invite : InviteCommands.CreatedInvite :=
  {| InviteCommands.created := invite_new 0;
     InviteCommands.created_guild := 7;
     InviteCommands.created_url := "https://discord.gg/new";
     InviteCommands.created_max_uses := 0 |}.

Definition foreign_webhook : Webhook :=
  {| webhook_url := "https://discord.com/api/webhooks/3/v"; webhook_token := None |}.

(** A host in whose log channel two webhooks exist, the second one owned
    by the bot. *)
Definition webhook_host : Host :=
  {| bot_user_id := 99;
     bot_user_name := "Modmail";
     bot_avatar_url := "https://cdn.discordapp.com/avatars/99.png";
     guild_get_channel := λ _ s, if decide (s = "5") then Ok (Some log_channel) else Ok None;
     bot_get_channel := λ s, if decide (s = "5") then Ok (Some log_channel) else Ok None;
     guild_has_bot_member := λ _, true;
     manage_webhooks := λ _, true;
     channel_webhooks := λ _, [foreign_webhook; created_webhook];
     create_webhook := λ _, Raise creation_error;
     webhook_from_url := λ url, Ok {| webhook_url := url; webhook_token := None |};
     guild_invites := λ _, [];
     guild_members := λ _, [alice];
     time_age := λ _, "2 years ago";
     age := λ _, "3 days";
     resolve_channel := λ _, None;
     resolve_user := λ _, None |}.

(** The stored document after loading, and a manager that holds its
    contact part. *)
Definition loaded_document : value :=
  match fetch stored_document with Ok loaded => loaded | Raise _ => VNone end.

Definition loaded_world : Views.World :=
  {| Views.manager :=
       {| Views.view := None;
          Views.config :=
            match getitem "contact" loaded_document with
            | Ok contact => contact
            | Raise _ => VNone
            end |};
     Views.views := ∅ |}.

(** A contact panel with two select options, the first one routed to the
    category 42. *)
Definition panel_options : list value :=
  [VDict [("label", VStr "Billing"); ("category", VStr "42")];
   VDict [("label", VStr "Other")]].

Definition panel_view : Views.ContactView :=
  {| Views.message := Some 11; Views.timeout := None;
     Views.select_options := Some (VList panel_options); Views.children := [] |}.

Definition carol : Views.InteractionUser := {| Views.user_id := 3; Views.user_repr := "carol" |}.

(** A host that sees the category 42; [choice] is what the user submits. *)
Definition contact_host (choice : option string) : ContactFlow.Host :=
  {| ContactFlow.submitted := choice;
     ContactFlow.followup_send := λ _, Ok tt;
     ContactFlow.int_str := λ s, if decide (s = "42") then Some 42 else None;
     ContactFlow.str_other := λ _, "";
     ContactFlow.get_channel := λ n, bool_decide (n = 42);
     ContactFlow.manager_create := Ok false;
     ContactFlow.wait_until_ready := Ok tt;
     ContactFlow.thread_channel_send := Ok tt |}.

(** The same host, when the message in the new thread cannot be sent. *)
Definition forbidden : exn := Exn "Forbidden" "403 Forbidden (error code: 50013)".

Definition silent_thread_host (choice : option string) : ContactFlow.Host :=
  {| ContactFlow.submitted := choice;
     ContactFlow.followup_send := λ _, Ok tt;
     ContactFlow.int_str := λ s, if decide (s = "42") then Some 42 else None;
     ContactFlow.str_other := λ _, "";
     ContactFlow.get_channel := λ n, bool_decide (n = 42);
     ContactFlow.manager_create := Ok false;
     ContactFlow.wait_until_ready := Ok tt;
     ContactFlow.thread_channel_send := Raise forbidden |}.





(** A guild in which three members joined at the same time as Alice, who
    is listed third. *)
Definition guild_member (id : Z) (name : string) (joined : Z) : Member :=
  {| member_id := id; member_name := name; member_mention := "<@" ++ py_str id ++ ">";
     member_bot := false; member_guild := 7;
     member_avatar := "https://cdn.discordapp.com/embed/avatars/0.png";
     member_created_at := 100; member_joined_at := joined;
     member_nick := None; member_roles := [("@everyone", true)] |}.

Definition crowd_before : list Member :=
  [guild_member 2 "bob" 150; guild_member 3 "carol" 200].

Definition crowd_after : list Member :=
  [guild_member 4 "dave" 200; guild_member 5 "erin" 300; guild_member 6 "frank" 120].

Definition crowded_host : Host :=
  {| bot_user_id := 99;
     bot_user_name := "Modmail";
     bot_avatar_url := "https://cdn.discordapp.com/avatars/99.png";
     guild_get_channel := λ _ s, if decide (s = "5") then Ok (Some log_channel) else Ok None;
     bot_get_channel := λ s, if decide (s = "5") then Ok (Some log_channel) else Ok None;
     guild_has_bot_member := λ _, true;
     manage_webhooks := λ _, true;
     channel_webhooks := λ _, [];
     create_webhook := λ _, Ok created_webhook;
     webhook_from_url := λ url, Ok {| webhook_url := url; webhook_token := None |};
     guild_invites := λ _, [];
     guild_members := λ _, (crowd_before ++ alice :: crowd_after)%list;
     time_age := λ _, "2 years ago";
     age := λ _, "3 days";
     resolve_channel := λ _, None;
     resolve_user := λ _, None |}.

(** Twenty-seven invites, the n-th used n times. *)
Definition numbered_invite (n : Z) : Invite :=
  {| code := "inv" ++ py_str n; uses := n; inviter := Some bob;
     invite_channel := Some log_channel; created_at := Some 50; expires_at := None |}.

Definition many_invites : list Invite := numbered_invite <$> seqZ 1 27.

(** * Properties *)

(** ** Configuration of a guild *)

(** A guild with a cached document reads it back and leaves the world as
    it is. *)
Lemma guild_config_cached (guild_id : GuildId) (w : World) (cfg : GuildConfigData) :
  config_get (guild_key guild_id) (config w) = Some cfg →
  guild_config guild_id w = (Ok cfg, w).
Proof.
  intros Hget. unfold guild_config, gets, mbind, M_bind. rewrite Hget. reflexivity.
Qed.

Lemma guild_config_missing (guild_id : GuildId) (w : World) :
  config_get (guild_key guild_id) (config w) = None →
  guild_config guild_id w
  = (Ok default_config, set_config (config_setitem (guild_key guild_id) default_config) w).
Proof.
  intros Hget. unfold guild_config, gets, mbind, M_bind. rewrite Hget. reflexivity.
Qed.

(** Whatever the cache holds, the access returns and the document it
    returns is the one the cache holds afterwards. *)
Lemma guild_config_returns (guild_id : GuildId) (w : World) :
  ∃ cfg w', guild_config guild_id w = (Ok cfg, w')
    ∧ config_get (guild_key guild_id) (config w') = Some cfg
    ∧ tracker w' = tracker w ∧ calls w' = calls w
    ∧ database (config w') = database (config w).
Proof.
  destruct (config_get (guild_key guild_id) (config w)) as [cfg|] eqn:Hget.
  - exists cfg, w. rewrite (guild_config_cached _ _ _ Hget). done.
  - eexists _, _. rewrite (guild_config_missing _ _ Hget).
    split; [reflexivity|]. unfold config_get. simpl. rewrite lookup_insert_eq. done.
Qed.

(** C5: a guild without a configuration document gets exactly the declared
    defaults (channel ["0"], no webhook, logging disabled, data storing
    enabled); the defaults are installed in the cache under the guild's
    key, nothing else changes, and the next access returns the same
    document from the cache. *)
Theorem guild_config_defaults (guild_id : GuildId) (w : World) :
  config_get (guild_key guild_id) (config w) = None →
  ∃ w',
    guild_config guild_id w = (Ok default_config, w')
    ∧ default_config
      = {| channel := "0"; webhook := None; enable := false; store_data := true |}
    ∧ cache (config w') = <[guild_key guild_id := default_config]> (cache (config w))
    ∧ database (config w') = database (config w)
    ∧ tracker w' = tracker w ∧ calls w' = calls w
    ∧ guild_config guild_id w' = (Ok default_config, w').
Proof.
  intros Hget. eexists. rewrite (guild_config_missing _ _ Hget).
  repeat split.
  apply guild_config_cached. unfold config_get. simpl. apply lookup_insert_eq.
Qed.

(** The first access of the guild 42 in a world without documents. *)
Lemma guild_config_defaults_witness :
  ∃ w',
    guild_config (IdInt 42) empty_world = (Ok default_config, w')
    ∧ default_config
      = {| channel := "0"; webhook := None; enable := false; store_data := true |}
    ∧ cache (config w') = <[guild_key (IdInt 42) := default_config]> (cache (config empty_world))
    ∧ database (config w') = database (config empty_world)
    ∧ tracker w' = tracker empty_world ∧ calls w' = calls empty_world
    ∧ guild_config (IdInt 42) w' = (Ok default_config, w').
Proof. apply (guild_config_defaults (IdInt 42) empty_world). reflexivity. Defined.

(** ** Commands that edit the configuration *)

(** With a mode, [inv_store_enable] writes the mode under the key
    ["enable"]; the data storing flag keeps its value. *)
Lemma inv_store_enable_effect (ctx : Context) (mode : bool) (w : World) :
  ∃ cfg w1 w',
    guild_config (IdInt (ctx_guild ctx)) w = (Ok cfg, w1)
    ∧ inv_store_enable ctx (Some mode) w = (Ok tt, w')
    ∧ config_get (py_str (ctx_guild ctx)) (config w')
      = Some {| channel := channel cfg; webhook := webhook cfg;
                enable := mode; store_data := store_data cfg |}.
Proof.
  destruct (guild_config_returns (IdInt (ctx_guild ctx)) w)
    as (cfg & w1 & Hcfg & Hget & _).
  exists cfg, w1. eexists. split; [exact Hcfg|].
  unfold inv_store_enable, mbind, M_bind. rewrite Hcfg. simpl.
  split; [reflexivity|].
  unfold config_get in *. simpl in *. rewrite lookup_alter_eq, Hget. reflexivity.
Qed.

(** C4: at the guild document [sample_config] (logging enabled, data
    storing enabled), [invites store enable False] leaves the data storing
    flag set and clears the logging flag instead. *)
Theorem inv_store_enable_failing_input :
  ∃ w',
    inv_store_enable {| ctx_guild := 7 |} (Some false) sample_world = (Ok tt, w')
    ∧ config_get "7" (config w')
      = Some {| channel := "5"; webhook := Some "https://discord.com/api/webhooks/1/t";
                enable := false; store_data := true |}.
Proof.
  destruct (inv_store_enable_effect {| ctx_guild := 7 |} false sample_world)
    as (cfg & w1 & w' & Hcfg & Hrun & Hget).
  cbn [ctx_guild] in *.
  rewrite (guild_config_cached (IdInt 7) sample_world sample_config) in Hcfg by reflexivity.
  injection Hcfg as <- <-. exists w'. split; [exact Hrun | exact Hget].
Qed.

(** The sibling command [invites_config_enable] writes the same key. *)
Lemma invites_config_enable_effect (h : Host) (ctx : Context) (mode : bool) (w : World) :
  ∃ cfg w1 w',
    guild_config (IdInt (ctx_guild ctx)) w = (Ok cfg, w1)
    ∧ invites_config_enable h ctx (Some mode) w = (Ok tt, w')
    ∧ config_get (py_str (ctx_guild ctx)) (config w')
      = Some {| channel := channel cfg; webhook := webhook cfg;
                enable := mode; store_data := store_data cfg |}.
Proof.
  destruct (guild_config_returns (IdInt (ctx_guild ctx)) w)
    as (cfg & w1 & Hcfg & Hget & _).
  exists cfg, w1.
  unfold invites_config_enable, mbind, M_bind. rewrite Hcfg.
  unfold config_get in *.
  destruct mode; simpl; eexists; (split; [reflexivity|]);
    (split; [reflexivity|]); simpl; rewrite lookup_alter_eq; simpl in Hget;
    rewrite Hget; reflexivity.
Qed.

Lemma send_log_embed_no_url (h : Host) (chan : TextChannel) (embed : Embed)
    (w w1 : World) (cfg : GuildConfigData) :
  guild_config (IdInt (channel_guild chan)) w = (Ok cfg, w1) →
  webhook cfg = None →
  send_log_embed h chan embed w = send_with_fresh_webhook h chan embed w1.
Proof.
  intros Hcfg Hurl.
  unfold send_log_embed, send_with_fresh_webhook, mbind, M_bind.
  rewrite Hcfg, Hurl.
  destruct (_get_or_create_webhook h chan w1) as [[[wh|]|e] w2]; reflexivity.
Qed.

(** C10: [invites config channel <channel>] stores [str(channel.id)] and
    resets the webhook URL to [None], keeps the logging and data storing
    flags, leaves the documents of other guilds and the tracker alone and
    flushes the cache; the next log send of the guild therefore looks up or
    creates a webhook.  Without an argument the command only reads: the
    configuration is the one a plain access leaves, identical to the
    previous one when the guild had a document. *)
Theorem invites_config_channel_frame (h : Host) (ctx : Context) (w : World) :
  let key := py_str (ctx_guild ctx) in
  ∃ cfg w1,
    guild_config (IdInt (ctx_guild ctx)) w = (Ok cfg, w1)
    ∧ (∀ chan : TextChannel, ∃ w',
         invites_config_channel h ctx (Some chan) w = (Ok tt, w')
         ∧ config_get key (config w')
           = Some {| channel := py_str (channel_id chan); webhook := None;
                     enable := enable cfg; store_data := store_data cfg |}
         ∧ (∀ k, k ≠ key → cache (config w') !! k = cache (config w) !! k)
         ∧ database (config w') = cache (config w')
         ∧ tracker w' = tracker w
         ∧ (∀ chan' embed, channel_guild chan' = ctx_guild ctx →
              send_log_embed h chan' embed w' = send_with_fresh_webhook h chan' embed w'))
    ∧ (∃ r w',
         invites_config_channel h ctx None w = (r, w')
         ∧ config w' = config w1
         ∧ tracker w' = tracker w
         ∧ (config_get key (config w) = Some cfg → config w' = config w)).
Proof.
  intros key.
  destruct (guild_config_returns (IdInt (ctx_guild ctx)) w)
    as (cfg & w1 & Hcfg & Hget & Htr & Hcalls & Hdb).
  exists cfg, w1. split; [exact Hcfg|]. split.
  - intros chan. eexists.
    unfold invites_config_channel, mbind, M_bind. rewrite Hcfg. simpl.
    split; [reflexivity|]. unfold config_get in *. simpl in *.
    assert (Hnew : alter
        (λ c, {| channel := py_str (channel_id chan); webhook := None;
                 enable := enable c; store_data := store_data c |})
        (py_str (ctx_guild ctx)) (cache (config w1)) !! py_str (ctx_guild ctx)
      = Some {| channel := py_str (channel_id chan); webhook := None;
                enable := enable cfg; store_data := store_data cfg |}).
    { rewrite lookup_alter_eq, Hget. reflexivity. }
    split; [exact Hnew|]. split; [|split; [reflexivity|split; [exact Htr|]]].
    + intros k Hk. rewrite lookup_alter_ne by (subst key; congruence).
      destruct (config_get (py_str (ctx_guild ctx)) (config w)) as [c|] eqn:Hw.
      * rewrite (guild_config_cached (IdInt (ctx_guild ctx)) w c Hw) in Hcfg.
        injection Hcfg as _ <-. reflexivity.
      * rewrite (guild_config_missing (IdInt (ctx_guild ctx)) w Hw) in Hcfg.
        injection Hcfg as _ <-. simpl. rewrite lookup_insert_ne; [reflexivity|].
        subst key. congruence.
    + intros chan' embed Hguild.
      eapply send_log_embed_no_url;
        [apply guild_config_cached; unfold config_get; simpl; rewrite Hguild; exact Hnew
        |reflexivity].
  - unfold invites_config_channel, mbind, M_bind. rewrite Hcfg. simpl.
    assert (Hsame : config_get key (config w) = Some cfg → config w1 = config w).
    { intros Hw. rewrite (guild_config_cached (IdInt (ctx_guild ctx)) w cfg Hw) in Hcfg.
      injection Hcfg as <-. reflexivity. }
    destruct (bot_get_channel h (channel cfg)) as [[c|]|e]; simpl;
      eexists _, _; (split; [reflexivity|]); simpl; auto.
Qed.

(** ** Log embeds and the webhook fallback *)

Lemma find_own_webhook_match (webhooks : list Webhook) :
  match webhooks with [] => None | _ => find_own_webhook webhooks end
  = find_own_webhook webhooks.
Proof. destruct webhooks; reflexivity. Qed.

Lemma get_or_create_fails (h : Host) (chan : TextChannel) (w : World) :
  creation_fails h chan →
  ∃ logged, _get_or_create_webhook h chan w = (Ok None, log_calls logged w)
    ∧ Forall is_logger_error logged.
Proof.
  unfold _get_or_create_webhook. rewrite find_own_webhook_match.
  intros [Hm | [Hp | [Hfind [e He]]]].
  - exists []. rewrite Hm. simpl. split; [|constructor].
    unfold mret, M_ret, log_calls. rewrite app_nil_r. by destruct w.
  - exists []. rewrite Hp, orb_true_r. split; [|constructor].
    unfold mret, M_ret, log_calls. rewrite app_nil_r. by destruct w.
  - rewrite Hfind, He.
    destruct (negb (guild_has_bot_member h (channel_guild chan))
              || negb (manage_webhooks h chan)).
    + exists []. split; [|constructor].
      unfold mret, M_ret, log_calls. rewrite app_nil_r. by destruct w.
    + exists [LoggerError (exn_type e ++ ": " ++ exn_msg e)].
      split; [reflexivity|]. repeat constructor.
Qed.

Lemma get_or_create_obtains (h : Host) (chan : TextChannel) (wh : Webhook) (w : World) :
  webhook_obtained h chan wh →
  _get_or_create_webhook h chan w = (Ok (Some wh), w).
Proof.
  unfold _get_or_create_webhook. rewrite find_own_webhook_match.
  intros (Hm & Hp & [Hfind | [Hfind Hnew]]); rewrite Hm, Hp; simpl.
  - rewrite Hfind. reflexivity.
  - rewrite Hfind, Hnew. reflexivity.
Qed.

Lemma guild_config_webhook (guild : Z) (w w1 : World) (cfg : GuildConfigData) :
  guild_config (IdInt guild) w = (Ok cfg, w1) →
  webhook cfg = stored_webhook guild w.
Proof.
  intros Hcfg. unfold stored_webhook.
  destruct (config_get (py_str guild) (config w)) as [c|] eqn:Hget.
  - rewrite (guild_config_cached (IdInt guild) w c Hget) in Hcfg.
    injection Hcfg as <- _. reflexivity.
  - rewrite (guild_config_missing (IdInt guild) w Hget) in Hcfg.
    injection Hcfg as <- _. reflexivity.
Qed.

(** C7: with no webhook URL stored, a failed creation of the webhook
    (missing membership or permission, or an exception of
    [create_webhook]) does not propagate: the send returns, the failure is
    at most logged, and the embed goes to the channel directly.  When a
    webhook is obtained, from the channel or from the stored URL, the embed
    goes through the webhook, under the name and avatar of the bot. *)
Theorem send_log_embed_fallback (h : Host) (chan : TextChannel) (embed : Embed) (w : World) :
  (stored_webhook (channel_guild chan) w = None →
   creation_fails h chan →
   ∃ w' logged,
     send_log_embed h chan embed w = (Ok tt, w')
     ∧ calls w' = (calls w ++ logged ++ [ChannelSend chan embed])%list
     ∧ Forall is_logger_error logged
     ∧ stored_webhook (channel_guild chan) w' = None)
  ∧ (∀ wh,
       stored_webhook (channel_guild chan) w = None →
       webhook_obtained h chan wh →
       ∃ w',
         send_log_embed h chan embed w = (Ok tt, w')
         ∧ calls w'
           = (calls w ++ [WebhookSend wh embed (bot_user_name h) (bot_avatar_url h) true])%list
         ∧ stored_webhook (channel_guild chan) w' = Some (webhook_url wh))
  ∧ (∀ wh_url wh,
       stored_webhook (channel_guild chan) w = Some wh_url →
       webhook_from_url h wh_url = Ok wh →
       ∃ w',
         send_log_embed h chan embed w = (Ok tt, w')
         ∧ calls w'
           = (calls w ++ [WebhookSend wh embed (bot_user_name h) (bot_avatar_url h) true])%list).
Proof.
  destruct (guild_config_returns (IdInt (channel_guild chan)) w)
    as (cfg & w1 & Hcfg & Hget & Htr & Hcalls & Hdb).
  pose proof (guild_config_webhook _ _ _ _ Hcfg) as Hwh.
  split; [|split].
  - intros Hnone Hfail. rewrite Hnone in Hwh.
    rewrite (send_log_embed_no_url h chan embed w w1 cfg Hcfg Hwh).
    destruct (get_or_create_fails h chan w1 Hfail) as (logged & Hrun & Hlog).
    unfold send_with_fresh_webhook, mbind, M_bind. rewrite Hrun.
    eexists _, logged. split; [reflexivity|]. simpl.
    rewrite Hcalls, <- app_assoc. repeat split; [exact Hlog|].
    unfold stored_webhook, config_get in *. simpl in *. rewrite Hget. exact Hwh.
  - intros wh Hnone Hobt. rewrite Hnone in Hwh.
    rewrite (send_log_embed_no_url h chan embed w w1 cfg Hcfg Hwh).
    unfold send_with_fresh_webhook, mbind, M_bind.
    rewrite (get_or_create_obtains h chan wh w1 Hobt).
    eexists. split; [reflexivity|]. simpl. rewrite Hcalls. split; [reflexivity|].
    unfold stored_webhook, config_get in *. simpl in *.
    rewrite lookup_alter_eq, Hget. reflexivity.
  - intros wh_url wh Hsome Hurl. rewrite Hsome in Hwh.
    unfold send_log_embed, mbind, M_bind. rewrite Hcfg, Hwh. unfold lift.
    rewrite Hurl. eexists. split; [reflexivity|]. simpl. rewrite Hcalls. reflexivity.
Qed.

(** The creation of a webhook never raises, and leaves at most a logged
    error. *)
Lemma get_or_create_returns (h : Host) (chan : TextChannel) (w : World) :
  ∃ wh logged, _get_or_create_webhook h chan w = (Ok wh, log_calls logged w)
    ∧ Forall is_logger_error logged.
Proof.
  assert (Hnil : ∀ o : option Webhook, (Ok o, w) = (Ok o, log_calls [] w)).
  { intros o. unfold log_calls. rewrite app_nil_r. by destruct w. }
  unfold _get_or_create_webhook. rewrite find_own_webhook_match.
  destruct (negb (guild_has_bot_member h (channel_guild chan))
            || negb (manage_webhooks h chan)).
  { exists None, []. split; [apply Hnil | constructor]. }
  destruct (find_own_webhook (channel_webhooks h chan)) as [wh|].
  { exists (Some wh), []. split; [apply Hnil | constructor]. }
  destruct (create_webhook h chan) as [wh|e].
  - exists (Some wh), []. split; [apply Hnil | constructor].
  - exists None, [LoggerError (exn_type e ++ ": " ++ exn_msg e)].
    split; [reflexivity | repeat constructor].
Qed.

(** A log send keeps the tracker and every cached document up to its
    webhook URL; when it returns, its last call carries the embed. *)
Lemma send_log_embed_effect (h : Host) (chan : TextChannel) (embed : Embed)
    (w w' : World) (r : result unit) :
  send_log_embed h chan embed w = (r, w') →
  tracker w' = tracker w
  ∧ (∀ k c, config_get k (config w) = Some c →
       ∃ c', config_get k (config w') = Some c' ∧ same_but_webhook c c')
  ∧ (r = Ok tt → ∃ logged s,
       calls w' = (calls w ++ logged ++ [s])%list ∧ sends_embed chan embed s).
Proof.
  destruct (guild_config_returns (IdInt (channel_guild chan)) w)
    as (cfg & w1 & Hcfg & Hget & Htr & Hcalls & Hdb).
  assert (Hkeep : ∀ k c, config_get k (config w) = Some c →
            config_get k (config w1) = Some c).
  { intros k c Hk.
    destruct (config_get (py_str (channel_guild chan)) (config w)) as [c0|] eqn:Hw.
    - rewrite (guild_config_cached (IdInt (channel_guild chan)) w c0 Hw) in Hcfg.
      injection Hcfg as _ <-. exact Hk.
    - rewrite (guild_config_missing (IdInt (channel_guild chan)) w Hw) in Hcfg.
      injection Hcfg as _ <-. unfold config_get in *. simpl.
      rewrite lookup_insert_ne; [exact Hk|]. intros Heq. subst k. simpl in *. congruence. }
  unfold send_log_embed, mbind, M_bind. rewrite Hcfg.
  destruct (webhook cfg) as [wh_url|].
  - unfold lift. destruct (webhook_from_url h wh_url) as [wh|e]; simpl;
      intros [= <- <-]; simpl.
    + split; [exact Htr|]. split.
      * intros k c Hk. exists c. split; [by apply Hkeep | done].
      * intros _. exists [], (WebhookSend wh embed (bot_user_name h) (bot_avatar_url h) true).
        rewrite Hcalls. split; [reflexivity|]. right. by eexists _, _, _.
    + split; [exact Htr|]. split; [|discriminate].
      intros k c Hk. exists c. split; [by apply Hkeep | done].
  - destruct (get_or_create_returns h chan w1) as (wh & logged & Hrun & _).
    rewrite Hrun. destruct wh as [wh|]; simpl; intros [= <- <-]; simpl.
    + split; [exact Htr|]. split.
      * intros k c Hk. apply Hkeep in Hk. unfold config_get in *. simpl.
        destruct (decide (py_str (channel_guild chan) = k)) as [<-|Hne].
        -- rewrite lookup_alter_eq, Hk. simpl. eexists. split; [reflexivity|done].
        -- rewrite lookup_alter_ne by done. exists c. done.
      * intros _.
        exists logged, (WebhookSend wh embed (bot_user_name h) (bot_avatar_url h) true).
        rewrite Hcalls, <- app_assoc. split; [reflexivity|]. right. by eexists _, _, _.
    + split; [exact Htr|]. split.
      * intros k c Hk. exists c. split; [by apply Hkeep | done].
      * intros _. exists logged, (ChannelSend chan embed).
        rewrite Hcalls, <- app_assoc. split; [reflexivity|]. by left.
Qed.

(** ** Member joins *)

Lemma guild_config_inv (guild_id : GuildId) (w w1 : World) (cfg : GuildConfigData) :
  guild_config guild_id w = (Ok cfg, w1) →
  config_get (guild_key guild_id) (config w1) = Some cfg
  ∧ tracker w1 = tracker w ∧ calls w1 = calls w.
Proof.
  intros Hcfg.
  destruct (guild_config_returns guild_id w) as (cfg' & w1' & H' & Hget & Htr & Hcalls & _).
  rewrite Hcfg in H'. injection H' as <- <-. done.
Qed.



(** ** Member leaves *)

(** Past its guards, [on_member_remove] removes the entry of the guild from
    the stored record of the user, whether or not the log embed that
    follows can be sent. *)
Lemma on_member_remove_handled (h : Host) (member : Member) (w w1 : World)
    (cfg : GuildConfigData) (data : UserData) (entry : GuildEntry) :
  member_bot member = false →
  guild_config (IdInt (member_guild member)) w = (Ok cfg, w1) →
  enable cfg = true →
  user_records (tracker w) !! member_id member = Some data →
  guilds data !! py_str (member_guild member) = Some entry →
  ∃ r w',
    on_member_remove h member w = (r, w')
    ∧ let rest := delete (py_str (member_guild member)) (guilds data) in
      (rest = ∅ ∨ store_data cfg = false →
       user_records (tracker w') = delete (member_id member) (user_records (tracker w)))
      ∧ (rest ≠ ∅ → store_data cfg = true →
         user_records (tracker w')
         = <[member_id member := {| guilds := rest |}]> (user_records (tracker w)))
      ∧ (∀ d, user_records (tracker w') !! member_id member = Some d →
           guilds d !! py_str (member_guild member) = None
           ∧ ∀ k, k ≠ py_str (member_guild member) → guilds d !! k = guilds data !! k).
Proof.
  intros Hbot Hcfg Hen Hdata Hentry.
  destruct (guild_config_inv _ _ _ _ Hcfg) as (Hget & Htr & Hcalls).
  set (key := py_str (member_guild member)) in *.
  set (rest := delete key (guilds data)).
  set (recs' := if bool_decide (rest = ∅) || negb (store_data cfg)
                then delete (member_id member) (user_records (tracker w))
                else <[member_id member := {| guilds := rest |}]> (user_records (tracker w))).
  assert (Hrun : ∃ r w', on_member_remove h member w = (r, w')
            ∧ user_records (tracker w') = recs').
  { unfold on_member_remove. rewrite Hbot. unfold mbind, M_bind.
    rewrite Hcfg, Hen. cbv beta iota. cbn [negb].
    unfold get_user_data, gets. cbv beta iota. rewrite Htr, Hdata. cbv beta iota.
    fold key. rewrite Hentry. cbn [guilds]. fold rest. subst recs'.
    destruct (bool_decide (rest = ∅) || negb (store_data cfg)).
    - unfold remove_user_data, set_user_records, gets, modify, mbind, M_bind, mret, M_ret, lift.
      cbv beta iota.
      destruct (guild_get_channel h (member_guild member) (channel cfg)) as [[chan|]|e].
      + match goal with
        | |- context [send_log_embed ?a ?b ?c ?d] =>
            destruct (send_log_embed a b c d) as [r w'] eqn:Hsend
        end.
        destruct (send_log_embed_effect _ _ _ _ _ _ Hsend) as (Htr' & _).
        exists r, w'. split; [reflexivity|]. rewrite Htr'. simpl. rewrite Htr. reflexivity.
      + eexists _, _. split; [reflexivity|]. simpl. rewrite Htr. reflexivity.
      + eexists _, _. split; [reflexivity|]. simpl. rewrite Htr. reflexivity.
    - unfold update_user_data, set_user_records, gets, modify, mbind, M_bind, mret, M_ret, lift.
      cbv beta iota.
      destruct (guild_get_channel h (member_guild member) (channel cfg)) as [[chan|]|e].
      + match goal with
        | |- context [send_log_embed ?a ?b ?c ?d] =>
            destruct (send_log_embed a b c d) as [r w'] eqn:Hsend
        end.
        destruct (send_log_embed_effect _ _ _ _ _ _ Hsend) as (Htr' & _).
        exists r, w'. split; [reflexivity|]. rewrite Htr'. simpl. rewrite Htr. reflexivity.
      + eexists _, _. split; [reflexivity|]. simpl. rewrite Htr. reflexivity.
      + eexists _, _. split; [reflexivity|]. simpl. rewrite Htr. reflexivity. }
  destruct Hrun as (r & w' & Hrun & Hrecs). exists r, w'. split; [exact Hrun|].
  simpl. fold key. fold rest. rewrite Hrecs. subst recs'. split; [|split].
  - intros [Hempty | Hstore].
    + rewrite bool_decide_eq_true_2 by exact Hempty. reflexivity.
    + rewrite Hstore, orb_true_r. reflexivity.
  - intros Hne Hstore. rewrite bool_decide_eq_false_2 by exact Hne.
    rewrite Hstore. reflexivity.
  - intros d. destruct (bool_decide (rest = ∅) || negb (store_data cfg)).
    + rewrite lookup_delete_eq. discriminate.
    + rewrite lookup_insert_eq. intros [= <-]. simpl. subst rest. split.
      * apply lookup_delete_eq.
      * intros k Hk. apply lookup_delete_ne. congruence.
Qed.

(** A bot member or a guild whose logging is disabled stops the listener
    before it reads the stored records. *)
Lemma on_member_remove_ignored (h : Host) (member : Member) (w w1 : World)
    (cfg : GuildConfigData) :
  guild_config (IdInt (member_guild member)) w = (Ok cfg, w1) →
  member_bot member = true ∨ enable cfg = false →
  ∃ w', on_member_remove h member w = (Ok tt, w') ∧ tracker w' = tracker w.
Proof.
  intros Hcfg Hguard. destruct (guild_config_inv _ _ _ _ Hcfg) as (_ & Htr & _).
  unfold on_member_remove. destruct (member_bot member) eqn:Hbot.
  { exists w. done. }
  destruct Hguard as [|Hen]; [discriminate|].
  unfold mbind, M_bind. rewrite Hcfg, Hen. exists w1. done.
Qed.

(** C3, amended: when a human member leaves a guild whose logging is
    enabled and the stored record of the user has an entry for the guild,
    the entry is removed; the whole record is deleted exactly when no entry
    remains or data storing is disabled for the guild, and otherwise the
    record is kept with its other entries unchanged.  For a bot member or a
    guild whose logging is disabled, the stored records stay as they
    are. *)
Theorem on_member_remove_records (h : Host) (member : Member) (w w1 : World)
    (cfg : GuildConfigData) :
  guild_config (IdInt (member_guild member)) w = (Ok cfg, w1) →
  (member_bot member = true ∨ enable cfg = false →
   ∃ w', on_member_remove h member w = (Ok tt, w') ∧ tracker w' = tracker w)
  ∧ (∀ data entry,
       member_bot member = false →
       enable cfg = true →
       user_records (tracker w) !! member_id member = Some data →
       guilds data !! py_str (member_guild member) = Some entry →
       ∃ r w',
         on_member_remove h member w = (r, w')
         ∧ let rest := delete (py_str (member_guild member)) (guilds data) in
           (rest = ∅ ∨ store_data cfg = false →
            user_records (tracker w')
            = delete (member_id member) (user_records (tracker w)))
           ∧ (rest ≠ ∅ → store_data cfg = true →
              user_records (tracker w')
              = <[member_id member := {| guilds := rest |}]> (user_records (tracker w)))
           ∧ (∀ d, user_records (tracker w') !! member_id member = Some d →
                guilds d !! py_str (member_guild member) = None
                ∧ ∀ k, k ≠ py_str (member_guild member) →
                       guilds d !! k = guilds data !! k)).
Proof.
  intros Hcfg. split.
  - by apply (on_member_remove_ignored h member w w1 cfg).
  - intros data entry Hbot Hen Hdata Hentry.
    by apply (on_member_remove_handled h member w w1 cfg data entry).
Qed.

(** ** Inference of the used invite *)

(** The tracker applies the inference to the cached snapshot of the guild
    and to the freshly fetched invites, and caches the fresh snapshot. *)
Lemma get_used_invite_infers (h : Host) (member : Member) (w : World) :
  let guild := member_guild member in
  let new := snapshot (guild_invites h guild) in
  ∃ w',
    get_used_invite h member w
    = (Ok (infer_used_invite (vanity_invites (tracker w) !! guild)
             (default ∅ (invite_cache (tracker w) !! guild)) new), w')
    ∧ invite_cache (tracker w') = <[guild := new]> (invite_cache (tracker w))
    ∧ vanity_invites (tracker w') = vanity_invites (tracker w)
    ∧ user_records (tracker w') = user_records (tracker w)
    ∧ config w' = config w ∧ calls w' = calls w.
Proof.
  intros guild new. eexists.
  split; [unfold get_used_invite, mbind, M_bind; simpl; reflexivity|]. done.
Qed.

(** ** Merging the default keys into a stored document *)

Lemma value_nested_ind (P : value → Prop) :
  P VNone → (∀ b, P (VBool b)) → (∀ n, P (VInt n)) → (∀ s, P (VStr s)) →
  (∀ l, Forall P l → P (VList l)) →
  (∀ d, Forall (λ kv, P kv.2) d → P (VDict d)) →
  ∀ v, P v.
Proof.
  intros HN HB HI HS HL HD. fix IH 1. intros [ | b | n | s | l | d].
  - exact HN.
  - apply HB.
  - apply HI.
  - apply HS.
  - apply HL. revert l. fix IHl 1. intros [|v l].
    + constructor.
    + constructor; [apply IH | apply IHl].
  - apply HD. revert d. fix IHd 1. intros [|[k v] d].
    + constructor.
    + constructor; [apply IH | apply IHd].
Qed.

Lemma dict_get_set_eq (key : string) (v : value) (d : dict) :
  dict_get key (dict_set key v d) = Some v.
Proof.
  induction d as [|[k v'] d IH]; simpl.
  - by rewrite decide_True.
  - destruct (decide (k = key)) as [->|Hne]; simpl.
    + by rewrite decide_True.
    + by rewrite decide_False.
Qed.

Lemma dict_get_set_ne (key key' : string) (v : value) (d : dict) :
  key ≠ key' → dict_get key' (dict_set key v d) = dict_get key' d.
Proof.
  intros Hne. induction d as [|[k v'] d IH]; simpl.
  - by rewrite decide_False.
  - destruct (decide (k = key)) as [->|Hk]; simpl.
    + by rewrite !decide_False.
    + destruct (decide (k = key')); [reflexivity | exact IH].
Qed.

Lemma dict_get_not_key (key : string) (d : dict) :
  key ∉ keys d → dict_get key d = None.
Proof.
  unfold keys. induction d as [|[k v] d IH]; simpl; [reflexivity|].
  intros Hnot. apply not_elem_of_cons in Hnot as [Hne Hnot].
  rewrite decide_False by congruence. by apply IH.
Qed.

Lemma get_path_leaf (path : list string) (v w : value) :
  is_dict v = false → get_path path v = Some w → path = [] ∧ w = v.
Proof.
  destruct path as [|key path]; simpl.
  - intros _ [= <-]. done.
  - destruct v; try discriminate.
Qed.

(** The loop over the items, one level deep: keys outside the defaults keep
    their entry, missing keys receive the default, present keys are
    resolved in depth when the default is a dictionary and kept as they are
    otherwise. *)
Lemma resolve_items_spec (items : dict) :
  Forall (λ kv, resolves kv.2) items →
  NoDup (keys items) →
  Forall (λ kv, unique_keys kv.2 = true) items →
  ∀ d,
    Forall (λ kv, ∀ child,
      dict_get kv.1 d = Some child → is_dict kv.2 = true →
      partial_document kv.2 child = true) items →
    ∃ d',
      resolve_items recursively_resolve_keys items (VDict d) = Ok (VDict d')
      ∧ (∀ k, dict_get k items = None → dict_get k d' = dict_get k d)
      ∧ (∀ k v, dict_get k items = Some v → dict_get k d = None → dict_get k d' = Some v)
      ∧ (∀ k v c, dict_get k items = Some v → dict_get k d = Some c →
           if is_dict v then ∃ c', dict_get k d' = Some c' ∧ resolved v c c'
           else dict_get k d' = Some c).
Proof.
  induction items as [|[key value] items IH]; intros Hrec Hnodup Huniq d Hpart.
  { exists d. simpl. split; [done|]. split; [done|]. split; intros; discriminate. }
  apply Forall_cons in Hrec as [Hrec_value Hrec].
  apply Forall_cons in Huniq as [Huniq_value Huniq].
  apply Forall_cons in Hpart as [Hpart_value Hpart].
  unfold keys in Hnodup. simpl in Hnodup. apply NoDup_cons in Hnodup as [Hfresh Hnodup].
  pose proof (dict_get_not_key key items Hfresh) as Hkey_items.
  simpl in Hrec_value, Huniq_value, Hpart_value.
  (* the rest of the loop, run on a dictionary that agrees with [d] outside [key] *)
  assert (Hrest : ∀ d1, (∀ k, k ≠ key → dict_get k d1 = dict_get k d) →
    ∃ d',
      resolve_items recursively_resolve_keys items (VDict d1) = Ok (VDict d')
      ∧ dict_get key d' = dict_get key d1
      ∧ (∀ k, k ≠ key → dict_get k items = None → dict_get k d' = dict_get k d)
      ∧ (∀ k v, dict_get k items = Some v → dict_get k d = None → dict_get k d' = Some v)
      ∧ (∀ k v c, dict_get k items = Some v → dict_get k d = Some c →
           if is_dict v then ∃ c', dict_get k d' = Some c' ∧ resolved v c c'
           else dict_get k d' = Some c)).
  { intros d1 Hd1.
    assert (Hother : ∀ k v, dict_get k items = Some v → k ≠ key).
    { intros k v Hk ->. congruence. }
    destruct (IH Hrec Hnodup Huniq d1) as (d' & Hrun & Hi & Hii & Hiii).
    { apply Forall_forall. intros [k v] Hin child Hchild Hdict. simpl in *.
      assert (Hk : k ≠ key).
      { intros ->. apply Hfresh. apply list_elem_of_fmap. by exists (key, v). }
      rewrite Hd1 in Hchild by exact Hk.
      rewrite Forall_forall in Hpart. by apply (Hpart (k, v) Hin child). }
    exists d'. split; [exact Hrun|]. split; [by apply Hi|]. split; [|split].
    - intros k Hk Hnone. rewrite Hi by exact Hnone. by apply Hd1.
    - intros k v Hk Hnone. apply Hii; [exact Hk|].
      rewrite Hd1; [exact Hnone | by eapply Hother].
    - intros k v c Hk Hc. apply Hiii; [exact Hk|].
      rewrite Hd1; [exact Hc | by eapply Hother]. }
  simpl. destruct (dict_get key d) as [child|] eqn:Hchild.
  - rewrite bool_decide_eq_true_2 by by eexists.
    destruct (is_dict value) eqn:Hdict.
    + destruct (Hrec_value child Hdict Huniq_value (Hpart_value child eq_refl eq_refl))
        as (child' & Hchild' & Hres).
      rewrite Hchild'. simpl.
      destruct (Hrest (dict_set key child' d)) as (d' & Hrun & Hkey & Hi & Hii & Hiii).
      { intros k Hk. apply dict_get_set_ne. congruence. }
      rewrite dict_get_set_eq in Hkey.
      exists d'. split; [exact Hrun|]. split; [|split].
      * intros k. destruct (decide (key = k)) as [<-|Hne]; [discriminate|]. by apply Hi.
      * intros k v. destruct (decide (key = k)) as [<-|Hne]; [congruence|]. apply Hii.
      * intros k v c. destruct (decide (key = k)) as [<-|Hne]; [|apply Hiii].
        intros [= <-] Hc. rewrite Hchild in Hc. injection Hc as <-.
        rewrite Hdict. by exists child'.
    + destruct (Hrest d) as (d' & Hrun & Hkey & Hi & Hii & Hiii); [done|].
      exists d'. split; [exact Hrun|]. split; [|split].
      * intros k. destruct (decide (key = k)) as [<-|Hne]; [discriminate|]. by apply Hi.
      * intros k v. destruct (decide (key = k)) as [<-|Hne]; [congruence|]. apply Hii.
      * intros k v c. destruct (decide (key = k)) as [<-|Hne]; [|apply Hiii].
        intros [= <-] Hc. rewrite Hdict. congruence.
  - rewrite bool_decide_eq_false_2 by (intros [? ?]; discriminate). simpl.
    destruct (Hrest (dict_set key value d)) as (d' & Hrun & Hkey & Hi & Hii & Hiii).
    { intros k Hk. apply dict_get_set_ne. congruence. }
    rewrite dict_get_set_eq in Hkey.
    exists d'. split; [exact Hrun|]. split; [|split].
    + intros k. destruct (decide (key = k)) as [<-|Hne]; [discriminate|]. by apply Hi.
    + intros k v. destruct (decide (key = k)) as [<-|Hne]; [|apply Hii].
      intros [= <-] _. exact Hkey.
    + intros k v c. destruct (decide (key = k)) as [<-|Hne]; [congruence|]. apply Hiii.
Qed.

Lemma forallb_Forall {A} (f : A → bool) (l : list A) :
  forallb f l = true → Forall (λ x, f x = true) l.
Proof.
  induction l as [|x l IH]; simpl; [constructor|].
  intros [Hx Hl]%andb_true_iff. constructor; [exact Hx | by apply IH].
Qed.

(** On a stored partial document, [recursively_resolve_keys] returns and
    leaves the document resolved. *)
Lemma recursively_resolve_keys_spec (base : value) : resolves base.
Proof.
  induction base as [ | b | n | s | l _ | items IH] using value_nested_ind;
    intros data Hdict Huniq Hpart; try discriminate.
  destruct data as [ | | | | | d]; try discriminate.
  simpl in Huniq. apply andb_true_iff in Huniq as [Hnodup Huniq].
  apply bool_decide_eq_true in Hnodup.
  apply forallb_Forall in Huniq. simpl in Hpart. apply forallb_Forall in Hpart.
  destruct (resolve_items_spec items IH Hnodup) with (d := d)
    as (d' & Hrun & Hi & Hii & Hiii).
  { apply Forall_forall. intros [k v] Hin. rewrite Forall_forall in Huniq.
    exact (Huniq (k, v) Hin). }
  { apply Forall_forall. intros [k v] Hin child Hchild Hd. simpl in *.
    rewrite Forall_forall in Hpart. specialize (Hpart (k, v) Hin). simpl in Hpart.
    rewrite Hchild, Hd in Hpart. exact Hpart. }
  exists (VDict d'). split; [exact Hrun|].
  split; [reflexivity|]. split; [|split].
  - intros path v Hget. destruct path as [|k path]; simpl in *.
    { injection Hget as <-. exists (VDict d'). split; [reflexivity|]. split; [reflexivity|].
      intros Hno. destruct (Hno items). reflexivity. }
    destruct (dict_get k d) as [c|] eqn:Hc; [|discriminate].
    destruct (dict_get k items) as [bv|] eqn:Hb.
    + pose proof (Hiii k bv c Hb Hc) as H3. destruct (is_dict bv) eqn:Hbd.
      * destruct H3 as (c' & -> & _ & HB & _). by apply HB.
      * rewrite H3. exists v. done.
    + rewrite (Hi k Hb), Hc. exists v. done.
  - intros path Hsome. destruct path as [|k path]; simpl in *; [by eexists|].
    destruct (dict_get k items) as [bv|] eqn:Hb; [|by destruct Hsome].
    destruct (dict_get k d) as [c|] eqn:Hc.
    + pose proof (Hiii k bv c Hb Hc) as H3. destruct (is_dict bv) eqn:Hbd.
      * destruct H3 as (c' & -> & _ & _ & HC & _). by apply HC.
      * rewrite H3. destruct Hsome as [x Hx].
        apply get_path_leaf in Hx as [-> _]; [by eexists | exact Hbd].
    + rewrite (Hii k bv Hb Hc). exact Hsome.
  - intros path key v dd Hget Hnone Hbase. destruct path as [|k path]; simpl in *.
    { injection Hget as <-.
      destruct (dict_get key items) as [bv|] eqn:Hb; [|discriminate].
      injection Hbase as <-. rewrite (Hii key bv Hb Hnone). reflexivity. }
    destruct (dict_get k d) as [c|] eqn:Hc; [|discriminate].
    destruct (dict_get k items) as [bv|] eqn:Hb; [|discriminate].
    destruct (is_dict bv) eqn:Hbd.
    + pose proof (Hiii k bv c Hb Hc) as H3. rewrite Hbd in H3.
      destruct H3 as (c' & -> & _ & _ & _ & HD). by eapply HD.
    + apply get_path_leaf in Hbase as [Hnil _]; [|exact Hbd].
      by destruct path.
Qed.

(** C6: loading a stored partial document of the support-utility
    configuration returns a document in which every key path of the
    default document is present; a key missing from a stored dictionary
    holds the default value of its path; and every stored path is still
    present, with exactly its stored value wherever the defaults hold no
    dictionary at that path (a stored dictionary that the defaults describe
    stays a dictionary and is completed in the same way). *)
Theorem fetch_resolves_defaults (stored : Py.value) :
  partial_document SupportUtilityConfig._default_config stored = true →
  ∃ loaded,
    SupportUtilityConfig.fetch stored = Ok loaded
    ∧ (∀ path,
         is_Some (get_path path SupportUtilityConfig._default_config) →
         is_Some (get_path path loaded))
    ∧ (∀ path key v d,
         get_path path stored = Some (Py.VDict d) → Py.dict_get key d = None →
         get_path (path ++ [key]) SupportUtilityConfig._default_config = Some v →
         get_path (path ++ [key]) loaded = Some v)
    ∧ (∀ path v,
         get_path path stored = Some v →
         ∃ v', get_path path loaded = Some v' ∧ Py.is_dict v' = Py.is_dict v
               ∧ ((∀ sub, get_path path SupportUtilityConfig._default_config
                          ≠ Some (Py.VDict sub)) → v' = v)).
Proof.
  intros Hpart.
  destruct (recursively_resolve_keys_spec SupportUtilityConfig._default_config stored)
    as (loaded & Hrun & _ & Hkept & Hpaths & Hfilled); [reflexivity | reflexivity | exact Hpart |].
  exists loaded. split; [exact Hrun|]. split; [exact Hpaths|]. split; [exact Hfilled | exact Hkept].
Qed.

(** ** The contact panel *)

(** C8: the interaction check of the contact panel lets the thread
    creation proceed exactly when the user is a member of the main guild,
    has no open thread, is not blocked, and Modmail is not disabled for new
    threads; it then sends nothing.  In every other case it returns
    [False]: a non-member gets the interaction deferred and no message,
    every other user gets one ephemeral message that explains the
    refusal. *)
Theorem interaction_check_spec (bot : Views.Bot) (user : Views.InteractionUser) :
  let uid := Views.user_id user in
  let proceeds :=
    Views.guild_get_member bot uid = true
    ∧ Views.threads_find bot uid = None
    ∧ Views.is_blocked bot uid = false
    ∧ Views.dm_disabled bot ≠ Views.NEW_THREADS
    ∧ Views.dm_disabled bot ≠ Views.ALL_THREADS in
  ∃ actions ok,
    Views.interaction_check bot user = (actions, ok)
    ∧ (ok = true ↔ proceeds)
    ∧ (ok = true → actions = [])
    ∧ (Views.guild_get_member bot uid = false → actions = [Views.Defer])
    ∧ (ok = false → Views.guild_get_member bot uid = true →
       ∃ text,
         Views.SendMessage text true ∈ actions
         ∧ (Views.Defer ∉ actions)
         ∧ ∀ text' ephemeral,
             Views.SendMessage text' ephemeral ∈ actions → text' = text ∧ ephemeral = true).
Proof.
  intros uid proceeds. subst uid proceeds. unfold Views.interaction_check.
  destruct (Views.guild_get_member bot (Views.user_id user)); simpl.
  2: { eexists _, _. split; [reflexivity|]. split; [|done]. split; [done|]. by intros (? & _). }
  destruct (Views.threads_find bot (Views.user_id user)) as [thread|].
  { eexists _, _. split; [reflexivity|]. split; [split; [done | by intros (_ & ? & _)]|].
    split; [done|]. split; [done|]. intros _ _. eexists. split; [by left|].
    split; [by intros ?%list_elem_of_singleton|].
    intros text' eph Hin%list_elem_of_singleton. by injection Hin as -> ->. }
  destruct (Views.is_blocked bot (Views.user_id user)).
  { eexists _, _. split; [reflexivity|]. split; [split; [done | by intros (_ & _ & ? & _)]|].
    split; [done|]. split; [done|]. intros _ _. eexists. split; [by left|].
    split; [by intros ?%list_elem_of_singleton|].
    intros text' eph Hin%list_elem_of_singleton. by injection Hin as -> ->. }
  destruct (Views.dm_disabled bot).
  - eexists _, _. split; [reflexivity|]. done.
  - eexists _, _. split; [reflexivity|].
    split; [split; [done | by intros (_ & _ & _ & ? & _)]|].
    split; [done|]. split; [done|]. intros _ _. eexists. split; [right; by left|].
    split.
    + intros Hin. apply elem_of_cons in Hin as [?|Hin]; [done|].
      by apply list_elem_of_singleton in Hin.
    + intros text' eph Hin. apply elem_of_cons in Hin as [?|Hin]; [done|].
      apply list_elem_of_singleton in Hin. by injection Hin as -> ->.
  - eexists _, _. split; [reflexivity|].
    split; [split; [done | by intros (_ & _ & _ & _ & ?)]|].
    split; [done|]. split; [done|]. intros _ _. eexists. split; [right; by left|].
    split.
    + intros Hin. apply elem_of_cons in Hin as [?|Hin]; [done|].
      by apply list_elem_of_singleton in Hin.
    + intros text' eph Hin. apply elem_of_cons in Hin as [?|Hin]; [done|].
      apply list_elem_of_singleton in Hin. by injection Hin as -> ->.
Qed.

(** C9: constructing a [ContactView] while the manager already has a view
    raises [RuntimeError] and leaves the manager and every other view
    object as they were; a construction that returns found no view attached
    and leaves the new object attached to the manager, whose configuration
    is untouched.  On a manager without view whose configuration has the
    select options and the button dictionary, the construction returns. *)
Theorem ContactView_init_single (self : nat) (message : option Z) (w : Views.World) :
  (is_Some (Views.view (Views.manager w)) →
   ∃ w',
     Views.ContactView__init__ self message w
     = (Raise (RuntimeError Views.already_attached), w')
     ∧ Views.manager w' = Views.manager w
     ∧ ∀ other, other ≠ self → Views.views w' !! other = Views.views w !! other)
  ∧ (∀ w',
       Views.ContactView__init__ self message w = (Ok tt, w') →
       Views.view (Views.manager w) = None
       ∧ Views.view (Views.manager w') = Some self
       ∧ Views.config (Views.manager w') = Views.config (Views.manager w)
       ∧ is_Some (Views.views w' !! self)
       ∧ ∀ other, other ≠ self → Views.views w' !! other = Views.views w !! other)
  ∧ (∀ select options button,
       Views.view (Views.manager w) = None →
       Py.getitem "select" (Views.config (Views.manager w)) = Ok select →
       Py.getitem "options" select = Ok options →
       Py.getitem "button" (Views.config (Views.manager w)) = Ok (Py.VDict button) →
       ∃ w', Views.ContactView__init__ self message w = (Ok tt, w')).
Proof.
  unfold Views.ContactView__init__, Views.BaseView__init__, Views.set_view,
    mbind, M_bind, gets, modify, raise, lift, mret, M_ret.
  cbv beta iota. cbn [Views.manager Views.views Views.view Views.config].
  split; [|split].
  - intros [v Hv]. rewrite Hv. eexists. split; [reflexivity|]. split; [reflexivity|].
    intros other Hne. cbn [Views.views]. by rewrite lookup_insert_ne.
  - intros w'. destruct (Views.view (Views.manager w)) as [v|]; [discriminate|].
    cbn [Views.manager Views.views Views.view Views.config].
    destruct (Py.getitem "select" (Views.config (Views.manager w))) as [select|e];
      [|discriminate].
    destruct (Py.getitem "options" select) as [options|e]; [|discriminate].
    cbv beta iota. cbn [Views.manager Views.views Views.view Views.config].
    destruct (Py.getitem "button" (Views.config (Views.manager w))) as [button|e];
      [|discriminate].
    destruct (Py.get "emoji" button) as [emoji|e]; [|discriminate].
    destruct (Py.get "label" button) as [label|e]; [|discriminate].
    destruct (Py.get "style" button) as [style|e]; [|discriminate].
    intros [= <-]. cbn [Views.manager Views.views Views.view Views.config].
    split; [reflexivity|]. split; [reflexivity|]. split; [reflexivity|]. split.
    + rewrite !lookup_alter_eq, lookup_insert_eq. by eexists.
    + intros other Hne. by rewrite !lookup_alter_ne, lookup_insert_ne.
  - intros select options button Hview Hselect Hoptions Hbutton.
    rewrite Hview. cbn [Views.manager Views.views Views.view Views.config].
    rewrite Hselect, Hoptions. cbv beta iota.
    cbn [Views.manager Views.views Views.view Views.config].
    rewrite Hbutton. simpl. eexists. reflexivity.
Qed.

(** ** Concrete runs *)

(** The modelled inference on sample snapshots: one incremented invite,
    several, and none. *)
Example infer_one :
  infer_used_invite None
    (snapshot [invite_abc 3; invite_xyz 1]) (snapshot [invite_abc 4; invite_xyz 1])
  = [invite_abc 4].
Proof. vm_compute. reflexivity. Qed.

Example infer_several :
  infer_used_invite (Some vanity_invite)
    (snapshot [invite_abc 3; invite_xyz 1]) (snapshot [invite_abc 4; invite_xyz 2])
  = [invite_abc 4; invite_xyz 2].
Proof. vm_compute. reflexivity. Qed.

Example infer_none :
  infer_used_invite None
    (snapshot [invite_abc 3; invite_xyz 1]) (snapshot [invite_abc 3; invite_xyz 1])
  = [].
Proof. vm_compute. reflexivity. Qed.

(** A log send when the creation of the webhook raises, when it succeeds,
    and when a URL is stored. *)
Lemma send_log_embed_fallback_witness :
  (∃ w' logged,
     send_log_embed (sample_host true (Raise creation_error) []) log_channel
       (plain_embed "log") empty_world = (Ok tt, w')
     ∧ calls w'
       = (calls empty_world ++ logged ++ [ChannelSend log_channel (plain_embed "log")])%list
     ∧ Forall is_logger_error logged
     ∧ stored_webhook (channel_guild log_channel) w' = None)
  ∧ (∃ w',
       send_log_embed (sample_host true (Ok created_webhook) []) log_channel
         (plain_embed "log") empty_world = (Ok tt, w')
       ∧ calls w'
         = (calls empty_world
              ++ [WebhookSend created_webhook (plain_embed "log") "Modmail"
                    "https://cdn.discordapp.com/avatars/99.png" true])%list
       ∧ stored_webhook (channel_guild log_channel) w'
         = Some (webhook_url created_webhook))
  ∧ (∃ w',
       send_log_embed (sample_host false (Raise creation_error) []) log_channel
         (plain_embed "log") sample_world = (Ok tt, w')
       ∧ calls w'
         = (calls sample_world
              ++ [WebhookSend
                    {| webhook_url := "https://discord.com/api/webhooks/1/t";
                       webhook_token := None |}
                    (plain_embed "log") "Modmail"
                    "https://cdn.discordapp.com/avatars/99.png" true])%list).
Proof.
  split; [|split].
  - apply (proj1 (send_log_embed_fallback (sample_host true (Raise creation_error) [])
                    log_channel (plain_embed "log") empty_world)).
    + reflexivity.
    + right. right. split; [reflexivity|]. exists creation_error. reflexivity.
  - apply (proj1 (proj2 (send_log_embed_fallback (sample_host true (Ok created_webhook) [])
                    log_channel (plain_embed "log") empty_world)) created_webhook).
    + reflexivity.
    + split; [reflexivity|]. split; [reflexivity|]. right. split; reflexivity.
  - apply (proj2 (proj2 (send_log_embed_fallback (sample_host false (Raise creation_error) [])
                    log_channel (plain_embed "log") sample_world))
             "https://discord.com/api/webhooks/1/t").
    + reflexivity.
    + reflexivity.
Defined.

(** Alice leaves the guild 7 and stays recorded for the guild 8; in a guild
    whose logging is disabled her record is not read. *)
Lemma on_member_remove_records_witness :
  (∃ r w',
     on_member_remove (sample_host true (Ok created_webhook) []) alice leave_world = (r, w')
     ∧ (delete (py_str (member_guild alice)) (guilds alice_data) = ∅
        ∨ store_data sample_config = false →
        user_records (tracker w')
        = delete (member_id alice) (user_records (tracker leave_world)))
     ∧ (delete (py_str (member_guild alice)) (guilds alice_data) ≠ ∅ →
        store_data sample_config = true →
        user_records (tracker w')
        = <[member_id alice :=
              {| guilds := delete (py_str (member_guild alice)) (guilds alice_data) |}]>
            (user_records (tracker leave_world)))
     ∧ (∀ d, user_records (tracker w') !! member_id alice = Some d →
          guilds d !! py_str (member_guild alice) = None
          ∧ ∀ k, k ≠ py_str (member_guild alice) → guilds d !! k = guilds alice_data !! k))
  ∧ (∃ w',
       on_member_remove (sample_host true (Ok created_webhook) []) alice disabled_world
       = (Ok tt, w')
       ∧ tracker w' = tracker disabled_world).
Proof.
  split.
  - apply (proj2 (on_member_remove_records (sample_host true (Ok created_webhook) []) alice
                    leave_world leave_world sample_config eq_refl) alice_data entry_abc);
      reflexivity.
  - apply (proj1 (on_member_remove_records (sample_host true (Ok created_webhook) []) alice
                    disabled_world disabled_world disabled_config eq_refl)).
    right. reflexivity.
Defined.

(** C3 as stated fails in a guild whose logging is disabled: the listener
    returns before it reads the stored record, and the entry of the guild
    stays in the record of the user. *)
Lemma on_member_remove_disabled_counterexample :
  user_records (tracker disabled_world) !! member_id alice = Some alice_data
  ∧ guilds alice_data !! py_str (member_guild alice) = Some entry_abc
  ∧ on_member_remove (sample_host true (Ok created_webhook) []) alice disabled_world
    = (Ok tt, disabled_world)
  ∧ ¬ (∀ d, user_records (tracker disabled_world) !! member_id alice = Some d →
         guilds d !! py_str (member_guild alice) = None).
Proof.
  split; [reflexivity|]. split; [reflexivity|]. split; [reflexivity|].
  intros Hremoved. specialize (Hremoved alice_data eq_refl). discriminate.
Qed.

(** Loading the sample document. *)
Lemma fetch_resolves_defaults_witness :
  ∃ loaded,
    fetch stored_document = Ok loaded
    ∧ (∀ path, is_Some (get_path path _default_config) → is_Some (get_path path loaded))
    ∧ (∀ path key v d,
         get_path path stored_document = Some (VDict d) → dict_get key d = None →
         get_path (path ++ [key]) _default_config = Some v →
         get_path (path ++ [key]) loaded = Some v)
    ∧ (∀ path v,
         get_path path stored_document = Some v →
         ∃ v', get_path path loaded = Some v' ∧ is_dict v' = is_dict v
               ∧ ((∀ sub, get_path path _default_config ≠ Some (VDict sub)) → v' = v)).
Proof. apply (fetch_resolves_defaults stored_document). reflexivity. Defined.

(** A stored document that holds [None] where the defaults hold a
    dictionary is no partial document, and loading it raises. *)
Example fetch_malformed :
  partial_document _default_config (VDict [("contact", VNone)]) = false
  ∧ fetch (VDict [("contact", VNone)]) = Raise (TypeError "argument is not iterable").
Proof. split; reflexivity. Qed.

Example fetch_stored_document :
  (fetch stored_document ≫= λ loaded, Ok (get_path ["contact"; "channel"] loaded))
  = Ok (Some (VStr "1234"))
  ∧ (fetch stored_document ≫= λ loaded, Ok (get_path ["contact"; "embed"; "title"] loaded))
    = Ok (Some (VStr "Help desk"))
  ∧ (fetch stored_document ≫= λ loaded, Ok (get_path ["contact"; "embed"; "footer"] loaded))
    = Ok (Some VNone)
  ∧ (fetch stored_document ≫= λ loaded, Ok (get_path ["feedback"; "rating"; "enable"] loaded))
    = Ok (Some (VBool false))
  ∧ (fetch stored_document ≫= λ loaded, Ok (get_path ["version"] loaded))
    = Ok (Some (VInt 3)).
Proof. repeat split. Qed.



Example on_member_join_saves :
  user_records (tracker (on_member_join
    (sample_host true (Ok created_webhook) [invite_abc 4; invite_xyz 1]) alice join_world).2)
  = {[1 := {| guilds := {["7" := entry_abc]} |}]}.
Proof. vm_compute. reflexivity. Qed.

Example on_member_join_ambiguous :
  user_records (tracker (on_member_join
    (sample_host true (Ok created_webhook) [invite_abc 4; invite_xyz 2]) alice join_world).2)
  = ∅.
Proof. vm_compute. reflexivity. Qed.

(** A view attaches to a manager without view; a second one is refused. *)
Lemma ContactView_init_single_witness :
  (∃ w',
     Views.ContactView__init__ 2 None attached_world
     = (Raise (RuntimeError Views.already_attached), w')
     ∧ Views.manager w' = Views.manager attached_world
     ∧ ∀ other, other ≠ 2%nat →
         Views.views w' !! other = Views.views attached_world !! other)
  ∧ (∃ w', Views.ContactView__init__ 2 None detached_world = (Ok tt, w')).
Proof.
  split.
  - apply (proj1 (ContactView_init_single 2 None attached_world)). by eexists.
  - apply (proj2 (proj2 (ContactView_init_single 2 None detached_world))
             (VDict [("options", VList []); ("placeholder", VStr "Choose a category")])
             (VList []) []); reflexivity.
Defined.

Example interaction_check_runs :
  Views.interaction_check plain_bot {| Views.user_id := 1; Views.user_repr := "alice" |}
  = ([], true)
  ∧ Views.interaction_check
      {| Views.guild_get_member := λ _, true;
         Views.threads_find := λ _, Some {| Views.thread_channel := Some "<#9>" |};
         Views.is_blocked := λ _, false;
         Views.dm_disabled := Views.NONE;
         Views.disabled_new_thread_response := "";
         Views.bot_user_name := "Modmail" |}
      {| Views.user_id := 1; Views.user_repr := "alice" |}
    = ([Views.SendMessage "A thread for you already exists in <#9>." true], false).
Proof. split; reflexivity. Qed.

Example ordinal_suffixes :
  ordinal_suffix <$> [1; 2; 3; 4; 11; 12; 13; 21; 22; 23; 101; 111]
  = ["st"; "nd"; "rd"; "th"; "th"; "th"; "th"; "st"; "nd"; "rd"; "st"; "th"].
Proof. reflexivity. Qed.

(** * Further properties *)

(** ** The join position and its suffix *)

Lemma ordinal_suffix_digit (n : Z) :
  ¬ (11 ≤ n `mod` 100 ≤ 13) →
  ordinal_suffix n
  = if decide (n `mod` 10 = 1) then "st"
    else if decide (n `mod` 10 = 2) then "nd"
    else if decide (n `mod` 10 = 3) then "rd"
    else "th".
Proof.
  intros Hteen. unfold ordinal_suffix. rewrite bool_decide_eq_false_2 by exact Hteen.
  assert (Hd : 0 ≤ n `mod` 10 < 10) by (apply Z.mod_pos_bound; lia).
  assert (Hcases : n `mod` 10 = 0 ∨ n `mod` 10 = 1 ∨ n `mod` 10 = 2 ∨ n `mod` 10 = 3
                   ∨ 4 ≤ n `mod` 10) by lia.
  destruct Hcases as [-> | [-> | [-> | [-> | Hbig]]]]; try reflexivity.
  rewrite Z.min_r by lia.
  rewrite !decide_False by lia. reflexivity.
Qed.

(** X1: the suffix that [on_member_join] appends to the join position is
    the English ordinal suffix: "st", "nd" and "rd" for the positions that
    end in 1, 2 and 3, except those that end in 11, 12 and 13, and "th" for
    every other position. *)
Theorem ordinal_suffix_english (n : Z) :
  (ordinal_suffix n = "st" ↔ n `mod` 10 = 1 ∧ n `mod` 100 ≠ 11)
  ∧ (ordinal_suffix n = "nd" ↔ n `mod` 10 = 2 ∧ n `mod` 100 ≠ 12)
  ∧ (ordinal_suffix n = "rd" ↔ n `mod` 10 = 3 ∧ n `mod` 100 ≠ 13)
  ∧ (ordinal_suffix n = "th" ↔
       (n `mod` 10 ≠ 1 ∧ n `mod` 10 ≠ 2 ∧ n `mod` 10 ≠ 3) ∨ 11 ≤ n `mod` 100 ≤ 13).
Proof.
  assert (Hdiv : n `mod` 10 = (n `mod` 100) `mod` 10).
  { Z.to_euclidean_division_equations. lia. }
  destruct (decide (11 ≤ n `mod` 100 ≤ 13)) as [Hteen | Hteen].
  - assert (Hth : ordinal_suffix n = "th").
    { unfold ordinal_suffix. by rewrite bool_decide_eq_true_2. }
    rewrite Hth.
    assert (Hr : n `mod` 100 = 11 ∨ n `mod` 100 = 12 ∨ n `mod` 100 = 13) by lia.
    assert (Hd : n `mod` 10 = n `mod` 100 - 10).
    { rewrite Hdiv. destruct Hr as [-> | [-> | ->]]; reflexivity. }
    repeat split; try discriminate; try (intros [? ?]; lia); auto.
  - rewrite (ordinal_suffix_digit n Hteen).
    assert (Hd : 0 ≤ n `mod` 10 < 10) by (apply Z.mod_pos_bound; lia).
    assert (Hr : 0 ≤ n `mod` 100 < 100) by (apply Z.mod_pos_bound; lia).
    repeat case_decide; repeat split; try discriminate; try tauto;
      try (intros [? ?]; lia); try (intros [(? & ? & ?) | ?]; lia);
      try (intros _; lia).
    all: lia.
Qed.

Lemma insert_by_joined_perm (m : Member) (l : list Member) :
  insert_by_joined m l ≡ₚ m :: l.
Proof.
  induction l as [|x l IH]; simpl; [reflexivity|].
  destruct (member_joined_at m <=? member_joined_at x); [reflexivity|].
  rewrite IH. apply Permutation_swap.
Qed.

Lemma sorted_by_joined_perm (members : list Member) :
  sorted_by_joined members ≡ₚ members.
Proof.
  induction members as [|m l IH]; simpl; [reflexivity|].
  rewrite insert_by_joined_perm. by rewrite IH.
Qed.

Lemma insert_by_joined_sorted (m : Member) (l : list Member) :
  StronglySorted joined_le l → StronglySorted joined_le (insert_by_joined m l).
Proof.
  induction l as [|x l IH]; simpl; intros Hsorted.
  - repeat constructor.
  - apply StronglySorted_cons in Hsorted as [Hx Hl].
    destruct (member_joined_at m <=? member_joined_at x) eqn:Hle.
    + apply Z.leb_le in Hle. apply StronglySorted_cons. split.
      * constructor; [exact Hle|]. eapply Forall_impl; [exact Hx|].
        unfold joined_le in *. simpl. intros y Hy. lia.
      * apply StronglySorted_cons. done.
    + apply Z.leb_gt in Hle. apply StronglySorted_cons. split; [|by apply IH].
      rewrite insert_by_joined_perm. constructor; [|exact Hx].
      unfold joined_le. lia.
Qed.

Lemma sorted_by_joined_sorted (members : list Member) :
  StronglySorted joined_le (sorted_by_joined members).
Proof.
  induction members as [|m l IH]; simpl; [constructor|].
  by apply insert_by_joined_sorted.
Qed.

(** [list.index] finds the first element with the id of the member. *)
Lemma index_found (member : Member) (l : list Member) (n : Z) :
  index member l = Ok n →
  ∃ before x after,
    l = (before ++ x :: after)%list
    ∧ n = Z.of_nat (length before)
    ∧ member_id x = member_id member
    ∧ Forall (λ y, member_id y ≠ member_id member) before.
Proof.
  revert n. induction l as [|y l IH]; simpl; intros n; [discriminate|].
  case_bool_decide as Hid.
  - intros [= <-]. exists [], y, l. done.
  - destruct (index member l) as [k|e]; [|discriminate]. intros [= <-].
    destruct (IH k eq_refl) as (before & x & after & -> & -> & Hx & Hbefore).
    exists (y :: before), x, after. split; [reflexivity|].
    split; [simpl; lia|]. split; [exact Hx|]. by constructor.
Qed.

Lemma index_missing (member : Member) (l : list Member) :
  Forall (λ y, member_id y ≠ member_id member) l →
  index member l = Raise (ValueError "x not in list").
Proof.
  induction 1 as [|y l Hy _ IH]; simpl; [reflexivity|].
  rewrite bool_decide_eq_false_2 by exact Hy. by rewrite IH.
Qed.

Lemma index_present (member : Member) (l : list Member) :
  (∃ x, x ∈ l ∧ member_id x = member_id member) →
  ∃ n, index member l = Ok n.
Proof.
  intros (x & Hin & Hid). induction l as [|y l IH]; simpl.
  - by apply elem_of_nil in Hin.
  - case_bool_decide; [by eexists|].
    apply elem_of_cons in Hin as [->|Hin]; [done|].
    destruct (IH Hin) as [n ->]. by eexists.
Qed.

Lemma filter_length_all {A} (P : A → Prop) `{!∀ x, Decision (P x)} (l : list A) :
  Forall P l → length (filter P l) = length l.
Proof.
  induction 1 as [|x l Hx _ IH]; [reflexivity|].
  rewrite filter_cons_True by exact Hx. simpl. by rewrite IH.
Qed.

Lemma filter_length_none {A} (P : A → Prop) `{!∀ x, Decision (P x)} (l : list A) :
  Forall (λ x, ¬ P x) l → length (filter P l) = 0%nat.
Proof.
  induction 1 as [|x l Hx _ IH]; [reflexivity|].
  by rewrite filter_cons_False.
Qed.

Lemma filter_length_le_split (k : Z) (l : list Member) :
  Z.of_nat (length (filter (λ x, member_joined_at x ≤ k) l))
  = Z.of_nat (length (filter (λ x, member_joined_at x < k) l))
    + Z.of_nat (length (filter (λ x, member_joined_at x = k) l)).
Proof.
  induction l as [|x l IH]; [reflexivity|]. rewrite !filter_cons.
  destruct (decide (member_joined_at x ≤ k)), (decide (member_joined_at x < k)),
    (decide (member_joined_at x = k)); simpl; lia.
Qed.

(** A member inserted into the sorted list comes right after the members
    that joined strictly earlier, and is the first one there with its id. *)
Lemma index_insert_self (m : Member) (s : list Member) :
  StronglySorted joined_le s →
  (∀ x, x ∈ s → member_id x = member_id m → member_joined_at x = member_joined_at m) →
  index m (insert_by_joined m s) = Ok (Z.of_nat (length (joined_before m s))).
Proof.
  unfold joined_before. induction s as [|x s IH]; intros Hsorted Honce.
  { simpl. by rewrite bool_decide_eq_true_2. }
  apply StronglySorted_cons in Hsorted as [Hx Hs]. simpl.
  destruct (member_joined_at m <=? member_joined_at x) eqn:Hle.
  - apply Z.leb_le in Hle. simpl. rewrite bool_decide_eq_true_2 by done.
    rewrite filter_length_none; [reflexivity|].
    constructor; [lia|]. eapply Forall_impl; [exact Hx|].
    unfold joined_le. simpl. intros y Hy. lia.
  - apply Z.leb_gt in Hle. simpl. rewrite bool_decide_eq_false_2.
    + rewrite IH; [|exact Hs|].
      * rewrite filter_cons_True by exact Hle. simpl. f_equal. lia.
      * intros y Hy. apply Honce. by right.
    + intros Hid. assert (member_joined_at x = member_joined_at m); [|lia].
      apply Honce; [by left | exact Hid].
Qed.

Lemma index_cons (m x : Member) (l : list Member) :
  index m (x :: l)
  = if bool_decide (member_id x = member_id m) then Ok 0
    else match index m l with Ok n => Ok (n + 1) | Raise e => Raise e end.
Proof. reflexivity. Qed.

(** Another member inserted into the sorted list moves the member by one
    place exactly when it joined no later. *)
Lemma index_insert_other (a m : Member) (s : list Member) :
  member_id a ≠ member_id m →
  StronglySorted joined_le s →
  (∀ x, x ∈ s → member_id x = member_id m → member_joined_at x = member_joined_at m) →
  ∀ n, index m s = Ok n →
  index m (insert_by_joined a s)
  = Ok (n + if decide (member_joined_at a ≤ member_joined_at m) then 1 else 0).
Proof.
  intros Ha. induction s as [|x s IH]; intros Hsorted Honce n; [discriminate|].
  apply StronglySorted_cons in Hsorted as [Hx Hs]. intros Hn. simpl.
  destruct (member_joined_at a <=? member_joined_at x) eqn:Hle.
  - apply Z.leb_le in Hle. rewrite index_cons, bool_decide_eq_false_2 by exact Ha.
    rewrite Hn. rewrite decide_True; [reflexivity|].
    destruct (index_found _ _ _ Hn) as (before & y & after & Hsplit & _ & Hy & _).
    assert (Hin : y ∈ (x :: s)%list).
    { rewrite Hsplit. apply elem_of_app. right. by left. }
    rewrite <- (Honce y Hin Hy).
    apply elem_of_cons in Hin as [->|Hin]; [exact Hle|].
    rewrite Forall_forall in Hx. specialize (Hx y Hin). unfold joined_le in Hx. lia.
  - apply Z.leb_gt in Hle. rewrite index_cons in Hn. rewrite index_cons.
    case_bool_decide as Hid.
    + injection Hn as <-. rewrite decide_False; [reflexivity|].
      assert (member_joined_at x = member_joined_at m); [|lia].
      apply Honce; [by left | exact Hid].
    + destruct (index m s) as [k|e] eqn:Hk; [|discriminate]. injection Hn as <-.
      rewrite (IH Hs) with (n := k); [f_equal; lia | | reflexivity].
      intros y Hy. apply Honce. by right.
Qed.

(** The place of a member in the sorted list, from its place in the list of
    the guild: before it come the members listed earlier that joined no
    later, and the members listed later that joined strictly earlier. *)
Lemma index_sorted_by_joined (m : Member) (after : list Member) :
  Forall (λ x, member_id x ≠ member_id m) after →
  ∀ before,
    Forall (λ x, member_id x ≠ member_id m) before →
    index m (sorted_by_joined (before ++ m :: after))
    = Ok (Z.of_nat (length (joined_no_later m before))
          + Z.of_nat (length (joined_before m after))).
Proof.
  intros Hafter.
  assert (Honce : ∀ l, Forall (λ x, member_id x ≠ member_id m) l →
            ∀ x, x ∈ sorted_by_joined (l ++ m :: after) → member_id x = member_id m →
                 member_joined_at x = member_joined_at m).
  { intros l Hl x Hx Hid. rewrite sorted_by_joined_perm in Hx.
    apply elem_of_app in Hx as [Hx|Hx].
    - rewrite Forall_forall in Hl. by destruct (Hl x Hx).
    - apply elem_of_cons in Hx as [->|Hx]; [reflexivity|].
      rewrite Forall_forall in Hafter. by destruct (Hafter x Hx). }
  induction before as [|a before IH]; intros Hbefore.
  - simpl. rewrite index_insert_self.
    + f_equal. unfold joined_before. by rewrite (sorted_by_joined_perm after).
    + apply sorted_by_joined_sorted.
    + intros x Hx Hid. rewrite sorted_by_joined_perm in Hx.
      rewrite Forall_forall in Hafter. by destruct (Hafter x Hx).
  - apply Forall_cons in Hbefore as [Ha Hbefore]. simpl.
    rewrite (index_insert_other a m _ Ha (sorted_by_joined_sorted _) (Honce before Hbefore)
               _ (IH Hbefore)).
    f_equal. unfold joined_no_later. rewrite filter_cons.
    destruct (decide (member_joined_at a ≤ member_joined_at m)); simpl; lia.
Qed.

(** X2: the join position that [on_member_join] reports.  For a member that
    the guild lists, with no other entry under its id, it is one more than
    the number of members that joined strictly earlier plus the number of
    members listed before it that joined at the same time: the sort is
    stable.  So it lies above the number of members that joined strictly
    earlier and does not exceed the number of members that joined no
    later.  For a member that the guild does not list, [list.index] raises
    [ValueError]. *)
Theorem join_position_rank (h : Host) (member : Member) :
  let members := guild_members h (member_guild member) in
  (∀ before after,
     members = (before ++ member :: after)%list →
     Forall (λ x, member_id x ≠ member_id member) before →
     Forall (λ x, member_id x ≠ member_id member) after →
     join_position_of h member
     = Ok (1 + Z.of_nat (length (joined_before member members))
             + Z.of_nat (length (joined_with member before))))
  ∧ (member ∈ members →
     (∀ x, x ∈ members → member_id x = member_id member → x = member) →
     ∃ pos,
       join_position_of h member = Ok pos
       ∧ Z.of_nat (length (joined_before member members)) < pos
       ∧ pos ≤ Z.of_nat (length (joined_no_later member members))
       ∧ 1 ≤ pos ≤ Z.of_nat (length members))
  ∧ ((∀ x, x ∈ members → member_id x ≠ member_id member) →
     join_position_of h member = Raise (ValueError "x not in list")).
Proof.
  intros members. unfold join_position_of. fold members. split; [|split].
  - intros before after Hsplit Hbefore Hafter. rewrite Hsplit.
    rewrite (index_sorted_by_joined member after Hafter before Hbefore).
    f_equal. unfold joined_before, joined_no_later, joined_with.
    rewrite filter_app, filter_cons_False by lia. rewrite length_app.
    rewrite filter_length_le_split. lia.
  - intros Hin Honce.
    pose proof (sorted_by_joined_perm members) as Hperm.
    pose proof (sorted_by_joined_sorted members) as Hsorted.
    destruct (index_present member (sorted_by_joined members)) as [n Hn].
    { exists member. split; [by rewrite Hperm | reflexivity]. }
    rewrite Hn. exists (n + 1). split; [reflexivity|].
    destruct (index_found _ _ _ Hn) as (before & x & after & Hsplit & -> & Hid & _).
    assert (x = member) as ->.
    { apply Honce; [|exact Hid]. rewrite <- Hperm, Hsplit. set_solver. }
    rewrite Hsplit in Hsorted, Hperm.
    assert (Hbefore : Forall (λ y, member_joined_at y ≤ member_joined_at member) before).
    { apply Forall_forall. intros y Hy.
      apply (StronglySorted_app_1_elem_of joined_le before (member :: after) y member Hsorted);
        [exact Hy | by left]. }
    assert (Hafter : Forall (λ y, ¬ member_joined_at y < member_joined_at member) after).
    { apply StronglySorted_app_1_r, StronglySorted_cons in Hsorted as [Hafter _].
      eapply Forall_impl; [exact Hafter|]. unfold joined_le. simpl. intros y Hy. lia. }
    unfold joined_before, joined_no_later. rewrite <- !Hperm.
    rewrite !filter_app, !filter_cons.
    destruct (decide (member_joined_at member < member_joined_at member)); [lia|].
    destruct (decide (member_joined_at member ≤ member_joined_at member)); [|lia].
    rewrite !length_app. simpl.
    rewrite (filter_length_none _ after Hafter).
    rewrite (filter_length_all _ before Hbefore).
    pose proof (length_filter (λ y, member_joined_at y < member_joined_at member) before).
    apply Permutation_length in Hperm. rewrite length_app in Hperm. simpl in Hperm.
    lia.
  - intros Hout. rewrite index_missing; [reflexivity|].
    apply Forall_forall. intros y Hy. apply Hout.
    by rewrite <- (sorted_by_joined_perm members).
Qed.

(** ** The list of invites *)

Lemma string_app_assoc (a b c : string) :
  String.append (String.append a b) c = String.append a (String.append b c).
Proof.
  induction a as [|x a IH]; [reflexivity|].
  change (String x (String.append (String.append a b) c)
          = String x (String.append a (String.append b c))).
  by f_equal.
Qed.

Lemma string_app_empty_r (a : string) : String.append a "" = a.
Proof.
  induction a as [|x a IH]; [reflexivity|].
  change (String x (String.append a "") = String x a). by f_equal.
Qed.

Lemma foldr_append_snoc (group : list string) (line : string) :
  foldr String.append "" (group ++ [line]) = foldr String.append "" group ++ line.
Proof.
  induction group as [|x group IH]; simpl.
  - apply string_app_empty_r.
  - by rewrite IH, string_app_assoc.
Qed.

Lemma append_to_last_snoc (line : string) (embeds : list InviteCommands.Page)
    (embed : InviteCommands.Page) :
  InviteCommands.append_to_last line (embeds ++ [embed])
  = (embeds ++ [{| InviteCommands.page_title := InviteCommands.page_title embed;
                   InviteCommands.page_description :=
                     InviteCommands.page_description embed ++ line |}])%list.
Proof.
  induction embeds as [|e embeds IH]; [reflexivity|].
  simpl. rewrite IH. destruct embeds; reflexivity.
Qed.

Lemma pages_of_snoc (groups : list (list string)) (group : list string) :
  pages_of (groups ++ [group])
  = (pages_of groups
     ++ [{| InviteCommands.page_title :=
              if decide (length groups = 0%nat) then "List of Invites"
              else "List of Invites (Continued)";
            InviteCommands.page_description := foldr String.append "" group |}])%list.
Proof.
  unfold pages_of. rewrite imap_app. simpl. by rewrite Nat.add_0_r.
Qed.

(** The loop keeps the embeds in step with groups of lines: every closed
    group has 25 lines, the current one at most 25. *)
Lemma list_loop_groups (str_user : User → string) (invites : list Invite)
    (lines : list string) (closed : list (list string)) (current : list string) :
  Forall2 (λ i line, InviteCommands.invite_line str_user i = Ok line) invites lines →
  Forall (λ g, length g = 25%nat) closed →
  (length current ≤ 25)%nat →
  ∃ closed' current',
    InviteCommands.list_loop str_user invites
      (pages_of (closed ++ [current]), Z.of_nat (length current))
    = Ok (pages_of (closed' ++ [current']))
    ∧ concat (closed' ++ [current']) = (concat (closed ++ [current]) ++ lines)%list
    ∧ Forall (λ g, length g = 25%nat) closed'
    ∧ (length current' ≤ 25)%nat
    ∧ ((1 ≤ length current)%nat ∨ lines ≠ [] → (1 ≤ length current')%nat).
Proof.
  intros Hlines. revert closed current.
  induction Hlines as [|invite line invites lines Hline _ IH]; intros closed current Hclosed Hcur.
  - exists closed, current. simpl. rewrite app_nil_r.
    split; [reflexivity|]. split; [reflexivity|]. split; [exact Hclosed|].
    split; [exact Hcur|]. by intros [?|?].
  - simpl. rewrite Hline. unfold InviteCommands.list_step.
    destruct (Z.of_nat (length current) =? 25) eqn:Hfull.
    + apply Z.eqb_eq in Hfull.
      destruct (IH (closed ++ [current])%list [line])
        as (closed' & current' & Hrun & Hcat & Hc & Hl & Hne).
      { apply Forall_app. split; [exact Hclosed|]. constructor; [lia | constructor]. }
      { simpl. lia. }
      exists closed', current'.
      rewrite (pages_of_snoc (closed ++ [current]) [line]) in Hrun.
      rewrite decide_False in Hrun by (rewrite length_app; simpl; lia).
      simpl in Hrun. rewrite string_app_empty_r in Hrun.
      split; [exact Hrun|]. split.
      { rewrite Hcat. rewrite !concat_app. simpl. rewrite !app_nil_r.
        by rewrite <- !app_assoc. }
      split; [exact Hc|]. split; [exact Hl|].
      intros _. apply Hne. left. simpl. lia.
    + apply Z.eqb_neq in Hfull.
      destruct (IH closed (current ++ [line])%list)
        as (closed' & current' & Hrun & Hcat & Hc & Hl & Hne).
      { exact Hclosed. }
      { rewrite length_app. simpl. lia. }
      exists closed', current'.
      rewrite (pages_of_snoc closed current), append_to_last_snoc. simpl.
      rewrite <- foldr_append_snoc.
      rewrite (pages_of_snoc closed (current ++ [line])) in Hrun.
      replace (Z.of_nat (length current) + 1) with (Z.of_nat (length (current ++ [line])))
        by (rewrite length_app; simpl; lia).
      split; [exact Hrun|]. split.
      { rewrite Hcat. rewrite !concat_app. simpl. rewrite !app_nil_r.
        by rewrite <- !app_assoc. }
      split; [exact Hc|]. split; [exact Hl|].
      intros _. apply Hne. left. rewrite length_app. simpl. lia.
Qed.

Lemma insert_by_uses_perm (i : Invite) (l : list Invite) :
  InviteCommands.insert_by_uses i l ≡ₚ i :: l.
Proof.
  induction l as [|x l IH]; simpl; [reflexivity|].
  destruct (uses i <=? uses x); [reflexivity|].
  rewrite IH. apply Permutation_swap.
Qed.

Lemma listing_perm (invites : list Invite) : listing invites ≡ₚ invites.
Proof.
  unfold listing. rewrite reverse_Permutation.
  induction invites as [|i l IH]; simpl; [reflexivity|].
  rewrite insert_by_uses_perm. by rewrite IH.
Qed.

Lemma insert_by_uses_sorted (i : Invite) (l : list Invite) :
  StronglySorted (λ a b, uses a ≤ uses b) l →
  StronglySorted (λ a b, uses a ≤ uses b) (InviteCommands.insert_by_uses i l).
Proof.
  induction l as [|x l IH]; simpl; intros Hsorted.
  - repeat constructor.
  - apply StronglySorted_cons in Hsorted as [Hx Hl].
    destruct (uses i <=? uses x) eqn:Hle.
    + apply Z.leb_le in Hle. apply StronglySorted_cons. split.
      * constructor; [exact Hle|]. eapply Forall_impl; [exact Hx|].
        simpl. intros y Hy. lia.
      * apply StronglySorted_cons. done.
    + apply Z.leb_gt in Hle. apply StronglySorted_cons. split; [|by apply IH].
      rewrite insert_by_uses_perm. constructor; [lia | exact Hx].
Qed.

Lemma StronglySorted_reverse_flip {A} (R : relation A) (l : list A) :
  StronglySorted R l → StronglySorted (flip R) (reverse l).
Proof.
  induction 1 as [|x l _ IH Hx]; [constructor|].
  rewrite reverse_cons. apply StronglySorted_app_2; [|exact IH | repeat constructor].
  intros y z Hy Hz. apply list_elem_of_singleton in Hz as ->.
  rewrite elem_of_reverse in Hy. rewrite Forall_forall in Hx. unfold flip.
  apply Hx. exact Hy.
Qed.

(** X4: [invites_list] shows every fetched invite once, the most used
    first: the order of the listing is a permutation of the fetched
    invites in which no invite comes before one with more uses. *)
Theorem listing_order (invites : list Invite) :
  listing invites ≡ₚ invites
  ∧ StronglySorted (λ a b, uses b ≤ uses a) (listing invites)
  ∧ ∀ i j a b,
      listing invites !! i = Some a → listing invites !! j = Some b →
      (i < j)%nat → uses b ≤ uses a.
Proof.
  assert (Hsorted : StronglySorted (λ a b, uses b ≤ uses a) (listing invites)).
  { unfold listing.
    apply (StronglySorted_reverse_flip (λ a b, uses a ≤ uses b)).
    induction invites as [|i l IH]; simpl; [constructor|].
    by apply insert_by_uses_sorted. }
  split; [apply listing_perm|]. split; [exact Hsorted|].
  intros i j a b Ha Hb Hij.
  assert (Hsplit : listing invites = (take j (listing invites) ++ drop j (listing invites))%list)
    by (by rewrite take_drop).
  rewrite Hsplit in Hsorted.
  apply (StronglySorted_app_1_elem_of _ _ _ a b Hsorted).
  - apply list_elem_of_lookup. exists i. rewrite lookup_take_lt by exact Hij. exact Ha.
  - apply list_elem_of_lookup. exists 0%nat. rewrite lookup_drop, Nat.add_0_r. exact Hb.
Qed.

Lemma invite_line_ok (str_user : User → string) (invite : Invite) :
  is_Some (inviter invite) → ∃ line, InviteCommands.invite_line str_user invite = Ok line.
Proof. intros [u Hu]. unfold InviteCommands.invite_line. rewrite Hu. by eexists. Qed.

Lemma invite_lines_ok (str_user : User → string) (invites : list Invite) :
  Forall (λ i, is_Some (inviter i)) invites →
  ∃ lines, Forall2 (λ i line, InviteCommands.invite_line str_user i = Ok line) invites lines.
Proof.
  induction 1 as [|i l Hi _ [lines IH]]; [by exists []|].
  destruct (invite_line_ok str_user i Hi) as [line Hline].
  exists (line :: lines). by constructor.
Qed.

Lemma list_loop_raises (str_user : User → string) (invites : list Invite)
    (state : list InviteCommands.Page * Z) :
  (∃ i, i ∈ invites ∧ inviter i = None) →
  InviteCommands.list_loop str_user invites state
  = Raise (AttributeError "'NoneType' object has no attribute 'id'").
Proof.
  intros (bad & Hin & Hbad). revert state.
  induction invites as [|i l IH]; intros state; [by apply elem_of_nil in Hin|].
  simpl. unfold InviteCommands.invite_line at 1.
  destruct (inviter i) as [u|] eqn:Hi; [|reflexivity].
  apply IH. apply elem_of_cons in Hin as [->|Hin]; [congruence | exact Hin].
Qed.

Lemma concat_length_25 (groups : list (list string)) :
  Forall (λ g, length g = 25%nat) groups →
  length (concat groups) = (25 * length groups)%nat.
Proof.
  induction 1 as [|g groups Hg _ IH]; [reflexivity|].
  simpl. rewrite length_app, Hg, IH. lia.
Qed.

(** X3: when every fetched invite has an inviter, [invites_list] hands the
    paginator the lines of the listing cut into embeds of 25 lines: the
    lines of all embeds, in order, are the lines of the listing; every
    embed but the last has exactly 25 lines and the last has between 1 and
    25, so that n invites take (n + 24) / 25 embeds; the first embed is
    titled as the list and the others as its continuation.  Without any
    invite there is one embed that says so.  One invite without inviter
    makes the command raise [AttributeError] instead of listing. *)
Theorem invites_list_pages (str_user : User → string) (invites : list Invite) :
  (invites = [] →
   InviteCommands.invites_list str_user invites
   = Ok [{| InviteCommands.page_title := "List of Invites";
            InviteCommands.page_description := InviteCommands.no_invites |}])
  ∧ (invites ≠ [] →
     Forall (λ i, is_Some (inviter i)) invites →
     ∃ lines groups,
       Forall2 (λ i line, InviteCommands.invite_line str_user i = Ok line)
         (listing invites) lines
       ∧ InviteCommands.invites_list str_user invites = Ok (pages_of groups)
       ∧ concat groups = lines
       ∧ (∀ i g, groups !! i = Some g →
            (1 ≤ length g ≤ 25)%nat ∧ (S i < length groups → length g = 25)%nat)
       ∧ Z.of_nat (length groups) = (Z.of_nat (length invites) + 24) `div` 25)
  ∧ ((∃ i, i ∈ invites ∧ inviter i = None) →
     InviteCommands.invites_list str_user invites
     = Raise (AttributeError "'NoneType' object has no attribute 'id'")).
Proof.
  split; [by intros ->|]. split.
  - intros Hne Hinv.
    assert (Hlisting : Forall (λ i, is_Some (inviter i)) (listing invites)).
    { by rewrite listing_perm. }
    destruct (invite_lines_ok str_user _ Hlisting) as [lines Hlines].
    destruct (list_loop_groups str_user _ lines [] [] Hlines) as
      (closed & current & Hrun & Hcat & Hclosed & Hcur & Hone); [constructor | simpl; lia |].
    assert (Hlen : length lines = length invites).
    { rewrite <- (Forall2_length _ _ _ Hlines). apply Permutation_length, listing_perm. }
    assert (Hpos : (1 ≤ length current)%nat).
    { apply Hone. right. intros ->. destruct invites; [done | discriminate]. }
    exists lines, (closed ++ [current])%list. split; [exact Hlines|]. split.
    { unfold InviteCommands.invites_list. destruct invites as [|i0 l0]; [done|].
      exact Hrun. }
    split; [exact Hcat|]. split.
    + intros i g Hg. rewrite length_app. simpl.
      destruct (decide (i < length closed)%nat) as [Hi|Hi].
      * rewrite lookup_app_l in Hg by exact Hi.
        rewrite Forall_forall in Hclosed.
        assert (length g = 25%nat) by (apply Hclosed; by eapply list_elem_of_lookup_2).
        lia.
      * rewrite lookup_app_r in Hg by lia.
        destruct (i - length closed)%nat eqn:Hk; [|by destruct n].
        injection Hg as <-. split; [lia|]. lia.
    + simpl in Hcat. rewrite <- Hlen, <- Hcat, concat_app, !length_app. simpl.
      rewrite app_nil_r, (concat_length_25 closed Hclosed).
      apply (Z.div_unique _ _ _ (Z.of_nat (length current) - 1)); lia.
  - intros (bad & Hin & Hbad). unfold InviteCommands.invites_list.
    destruct invites as [|i0 l0]; [by apply elem_of_nil in Hin|].
    apply list_loop_raises. exists bad. split; [|exact Hbad].
    fold (listing (i0 :: l0)). by rewrite listing_perm.
Qed.

(** ** Invite creation *)

Lemma set_add_spec (invite : Invite) (cached : gmap string Invite) :
  is_Some (InviteCommands.set_add invite cached !! code invite)
  ∧ (∀ c i, cached !! c = Some i → InviteCommands.set_add invite cached !! c = Some i)
  ∧ (∀ c, c ≠ code invite → InviteCommands.set_add invite cached !! c = cached !! c).
Proof.
  unfold InviteCommands.set_add.
  destruct (cached !! code invite) as [old|] eqn:Hold.
  - split; [by rewrite Hold|]. done.
  - split; [by rewrite lookup_insert_eq|]. split.
    + intros c i Hc. rewrite lookup_insert_ne; [exact Hc | congruence].
    + intros c Hc. by rewrite lookup_insert_ne.
Qed.

(** ** Relations kept by the handlers *)

Section keeps.
Context {W : Type} (R : W → W → Prop) `{!Reflexive R} `{!Transitive R}.

Lemma keeps_ret {A} (a : A) : keeps R (mret a : M W A).
Proof. intros w r w' [= <- <-]. reflexivity. Qed.

Lemma keeps_gets {A} (f : W → A) : keeps R (gets f).
Proof. intros w r w' [= <- <-]. reflexivity. Qed.

Lemma keeps_raise {A} (e : exn) : keeps R (raise e : M W A).
Proof. intros w r w' [= <- <-]. reflexivity. Qed.

Lemma keeps_lift {A} (x : result A) : keeps R (lift x : M W A).
Proof. intros w r w' [= <- <-]. reflexivity. Qed.

Lemma keeps_modify (f : W → W) : (∀ w, R w (f w)) → keeps R (modify f).
Proof. intros Hf w r w' [= <- <-]. apply Hf. Qed.

Lemma keeps_bind {A B} (m : M W A) (f : A → M W B) :
  keeps R m → (∀ a, keeps R (f a)) → keeps R (m ≫= f).
Proof.
  intros Hm Hf w r w'. unfold mbind, M_bind.
  destruct (m w) as [[a|e] w1] eqn:Hrun.
  - intros Hfa. etransitivity; [by eapply Hm | by eapply Hf].
  - intros [= <- <-]. by eapply Hm.
Qed.
End keeps.

(** A run of [m ≫= f] is a run of [m] that raises, or a run of [m] that
    returns followed by a run of [f]. *)
Lemma bind_inv {W A B} (m : M W A) (f : A → M W B) (w w' : W) (r : result B) :
  (m ≫= f) w = (r, w') →
  (∃ a w1, m w = (Ok a, w1) ∧ f a w1 = (r, w'))
  ∨ (∃ e, m w = (Raise e, w') ∧ r = Raise e).
Proof.
  unfold mbind, M_bind. destruct (m w) as [[a|e] w1] eqn:Hrun.
  - intros Hf. left. by exists a, w1.
  - intros [= <- <-]. right. by exists e.
Qed.

#[local] Instance same_tracker_refl : Reflexive same_tracker.
Proof. by intros w. Qed.

#[local] Instance same_tracker_trans : Transitive same_tracker.
Proof. intros w1 w2 w3 H12 H23. unfold same_tracker in *. congruence. Qed.

Lemma send_log_embed_same_tracker (h : Host) (chan : TextChannel) (embed : Embed) :
  keeps same_tracker (send_log_embed h chan embed).
Proof. intros w r w' Hrun. by destruct (send_log_embed_effect _ _ _ _ _ _ Hrun). Qed.

Lemma guild_config_same_tracker (guild_id : GuildId) :
  keeps same_tracker (guild_config guild_id).
Proof.
  intros w r w' Hrun.
  destruct (guild_config_returns guild_id w) as (cfg & w1 & Hcfg & _ & Htr & _).
  rewrite Hcfg in Hrun. by injection Hrun as _ <-.
Qed.

(** X5: in a guild whose logging is enabled, [on_invite_create] leaves the
    new invite in the cached snapshot of the guild and drops or replaces no
    invite that was cached (an invite cached under the same code stays as
    it was); a guild without cached snapshot gets the freshly fetched one.
    The snapshots of other guilds, the vanity invites and the stored
    records are untouched, also when the log channel is missing or the
    embed cannot be built.  In a guild whose logging is disabled the
    listener does nothing. *)
Theorem on_invite_create_cache (h : Host) (blue : Color)
    (invite : InviteCommands.CreatedInvite) (w w1 : World) (cfg : GuildConfigData) :
  let guild := InviteCommands.created_guild invite in
  guild_config (IdInt guild) w = (Ok cfg, w1) →
  (enable cfg = false → InviteCommands.on_invite_create h blue invite w = (Ok tt, w1))
  ∧ (enable cfg = true →
     ∃ r w',
       InviteCommands.on_invite_create h blue invite w = (r, w')
       ∧ (∀ cached, invite_cache (tracker w) !! guild = Some cached →
            ∃ cached',
              invite_cache (tracker w') !! guild = Some cached'
              ∧ is_Some (cached' !! code (InviteCommands.created invite))
              ∧ (∀ c i, cached !! c = Some i → cached' !! c = Some i)
              ∧ (∀ c, c ≠ code (InviteCommands.created invite) → cached' !! c = cached !! c))
       ∧ (invite_cache (tracker w) !! guild = None →
          invite_cache (tracker w') !! guild = Some (snapshot (guild_invites h guild)))
       ∧ (∀ g, g ≠ guild → invite_cache (tracker w') !! g = invite_cache (tracker w) !! g)
       ∧ vanity_invites (tracker w') = vanity_invites (tracker w)
       ∧ user_records (tracker w') = user_records (tracker w)).
Proof.
  intros guild Hcfg. destruct (guild_config_inv _ _ _ _ Hcfg) as (_ & Htr & _).
  split.
  - intros Hen. unfold InviteCommands.on_invite_create. fold guild.
    unfold mbind, M_bind. rewrite Hcfg, Hen. reflexivity.
  - intros Hen.
    destruct (InviteCommands.on_invite_create h blue invite w) as [r w'] eqn:Hrun.
    exists r, w'. split; [reflexivity|].
    unfold InviteCommands.on_invite_create in Hrun. fold guild in Hrun.
    apply bind_inv in Hrun as [(cfg' & w1' & Hc & Hrun) | (e & Hc & _)];
      rewrite Hcfg in Hc; [|discriminate].
    injection Hc as <- <-. rewrite Hen in Hrun. cbn [negb] in Hrun.
    apply bind_inv in Hrun as [(cached & w1' & Hc & Hrun) | (e & Hc & _)];
      [|discriminate].
    injection Hc as <- <-.
    apply bind_inv in Hrun as [([] & w2 & Hc & Hrun) | (e & Hc & _)]; [|discriminate].
    injection Hc as <-.
    assert (Htail : same_tracker
      (set_tracker (λ t,
         {| invite_cache :=
              <[guild := match invite_cache (tracker w1) !! guild with
                         | Some cached =>
                             InviteCommands.set_add (InviteCommands.created invite) cached
                         | None => snapshot (guild_invites h guild)
                         end]> (invite_cache t);
            vanity_invites := vanity_invites t;
            user_records := user_records t |}) w1) w').
    { eapply (keeps_bind same_tracker); [| |exact Hrun].
      - apply (keeps_lift same_tracker).
      - intros [chan|]; [|apply (keeps_ret same_tracker)].
        apply (keeps_bind same_tracker); [apply (keeps_lift same_tracker)|].
        intros embed. apply send_log_embed_same_tracker. }
    unfold same_tracker in Htail. rewrite Htail. simpl. rewrite Htr.
    split; [|split; [|split; [|done]]].
    + intros cached Hcached. rewrite lookup_insert_eq, Hcached.
      eexists. split; [reflexivity|]. apply set_add_spec.
    + intros Hnone. by rewrite lookup_insert_eq, Hnone.
    + intros g Hg. by rewrite lookup_insert_ne.
Qed.

(** ** More commands *)

(** X6: [invites store delete <user_id>] on a user without stored record
    raises [BadArgument], sends no reply and leaves every record as it is;
    on a user with a record it deletes that record, keeps the records of
    all other users and confirms with one reply.  The configuration and the
    cached invites are untouched in both cases. *)
Theorem inv_store_del_spec (user_id : Z) (w : World) :
  ∃ r w',
    InviteCommands.inv_store_del user_id w = (r, w')
    ∧ config w' = config w
    ∧ invite_cache (tracker w') = invite_cache (tracker w)
    ∧ vanity_invites (tracker w') = vanity_invites (tracker w)
    ∧ (∀ other, other ≠ user_id →
         user_records (tracker w') !! other = user_records (tracker w) !! other)
    ∧ user_records (tracker w') !! user_id = None
    ∧ match user_records (tracker w) !! user_id with
      | None =>
          r = Raise (InviteCommands.BadArgument
                       ("Data for user ID `" ++ py_str user_id ++ "` does not exist."))
          ∧ calls w' = calls w
          ∧ user_records (tracker w') = user_records (tracker w)
      | Some _ =>
          r = Ok tt
          ∧ calls w'
            = (calls w ++ [CtxSend (plain_embed
                 ("Data for user ID `" ++ py_str user_id ++ "` is now removed."))])%list
      end.
Proof.
  unfold InviteCommands.inv_store_del, remove_user_data, set_user_records,
    mbind, M_bind, gets, modify, mret, M_ret, raise, call.
  cbv beta iota.
  destruct (user_records (tracker w) !! user_id) as [data|] eqn:Hdata; cbv beta iota;
    eexists _, _; (split; [reflexivity|]); simpl;
    (split; [reflexivity|]); (split; [reflexivity|]); (split; [reflexivity|]);
    (split; [intros other Hne; by rewrite lookup_delete_ne|]);
    (split; [apply lookup_delete_eq|]).
  - done.
  - split; [reflexivity|]. split; [reflexivity|]. by apply delete_id.
Qed.

(** X7: [invites config enable <mode>] writes the mode into the logging flag
    of the guild document and keeps its channel, webhook URL and data
    storing flag, the documents of other guilds, the vanity invites and the
    stored records; it flushes the cache.  The cached invite snapshot of
    the guild is replaced by the freshly fetched invites exactly when the
    mode is true.  Without argument the document is only read, and the
    snapshot is refreshed exactly when logging is enabled. *)
Theorem invites_config_enable_frame (h : Host) (ctx : Context) (w : World) :
  let guild := ctx_guild ctx in
  let key := py_str guild in
  let refreshed (mode : bool) (t : InviteTracker) :=
    if mode then <[guild := snapshot (guild_invites h guild)]> (invite_cache t)
    else invite_cache t in
  ∃ cfg w1,
    guild_config (IdInt guild) w = (Ok cfg, w1)
    ∧ (∀ mode : bool, ∃ w',
         invites_config_enable h ctx (Some mode) w = (Ok tt, w')
         ∧ config_get key (config w')
           = Some {| channel := channel cfg; webhook := webhook cfg;
                     enable := mode; store_data := store_data cfg |}
         ∧ (∀ k, k ≠ key → cache (config w') !! k = cache (config w) !! k)
         ∧ database (config w') = cache (config w')
         ∧ invite_cache (tracker w') = refreshed mode (tracker w)
         ∧ vanity_invites (tracker w') = vanity_invites (tracker w)
         ∧ user_records (tracker w') = user_records (tracker w))
    ∧ (∃ w',
         invites_config_enable h ctx None w = (Ok tt, w')
         ∧ config w' = config w1
         ∧ invite_cache (tracker w') = refreshed (enable cfg) (tracker w)
         ∧ vanity_invites (tracker w') = vanity_invites (tracker w)
         ∧ user_records (tracker w') = user_records (tracker w)).
Proof.
  intros guild key refreshed. subst guild key refreshed.
  destruct (guild_config_returns (IdInt (ctx_guild ctx)) w)
    as (cfg & w1 & Hcfg & Hget & Htr & Hcalls & Hdb).
  assert (Hother : ∀ k, k ≠ py_str (ctx_guild ctx) →
            cache (config w1) !! k = cache (config w) !! k).
  { intros k Hk.
    destruct (config_get (py_str (ctx_guild ctx)) (config w)) as [c|] eqn:Hw.
    - rewrite (guild_config_cached (IdInt (ctx_guild ctx)) w c Hw) in Hcfg.
      by injection Hcfg as _ <-.
    - rewrite (guild_config_missing (IdInt (ctx_guild ctx)) w Hw) in Hcfg.
      injection Hcfg as _ <-. simpl. by rewrite lookup_insert_ne. }
  exists cfg, w1. split; [exact Hcfg|]. split.
  - intros mode. unfold invites_config_enable, mbind, M_bind. rewrite Hcfg.
    unfold config_get in *. simpl in Hget.
    destruct mode; simpl; eexists; (split; [reflexivity|]); simpl;
      rewrite lookup_alter_eq, Hget, Htr; simpl;
      (split; [reflexivity|]);
      (split; [intros k Hk; rewrite lookup_alter_ne by done; by apply Hother|]);
      done.
  - unfold invites_config_enable, mbind, M_bind. rewrite Hcfg.
    destruct (enable cfg); simpl; eexists; (split; [reflexivity|]); simpl;
      rewrite Htr; done.
Qed.

(** X8: [invites config reset] installs the default document for the guild
    whatever was configured (no channel, no webhook URL, logging disabled,
    data storing enabled), flushes the cache and keeps the documents of
    other guilds; the next access of the guild reads the defaults.  It
    clears neither the cached invites nor the stored records. *)
Theorem invites_config_reset_defaults (ctx : Context) (w : World) :
  let key := py_str (ctx_guild ctx) in
  ∃ w',
    invites_config_reset ctx w = (Ok tt, w')
    ∧ config_get key (config w') = Some default_config
    ∧ (∀ k, k ≠ key → cache (config w') !! k = cache (config w) !! k)
    ∧ database (config w') = cache (config w')
    ∧ tracker w' = tracker w
    ∧ guild_config (IdInt (ctx_guild ctx)) w' = (Ok default_config, w')
    ∧ stored_webhook (ctx_guild ctx) w' = None.
Proof.
  intros key. subst key. unfold invites_config_reset, mbind, M_bind. simpl.
  eexists. split; [reflexivity|]. simpl.
  assert (Hget : <[py_str (ctx_guild ctx) := default_config]> (cache (config w))
                 !! py_str (ctx_guild ctx) = Some default_config)
    by apply lookup_insert_eq.
  unfold config_get, stored_webhook. simpl. split; [exact Hget|].
  split; [intros k Hk; by rewrite lookup_insert_ne|].
  split; [reflexivity|]. split; [reflexivity|]. split.
  - apply guild_config_cached. exact Hget.
  - unfold config_get. simpl. by rewrite Hget.
Qed.

(** ** Webhook reuse *)

Lemma find_own_webhook_first (before after : list Webhook) (wh : Webhook) :
  Forall (λ x, webhook_token x = None) before →
  webhook_token wh ≠ None →
  find_own_webhook (before ++ wh :: after) = Some wh.
Proof.
  intros Hbefore Hwh. unfold find_own_webhook.
  induction Hbefore as [|x before Hx _ IH]; simpl.
  - by rewrite bool_decide_eq_true_2.
  - rewrite bool_decide_eq_false_2 by (rewrite Hx; intros Hne; by apply Hne). exact IH.
Qed.

Lemma find_own_webhook_none (webhooks : list Webhook) :
  Forall (λ x, webhook_token x = None) webhooks →
  find_own_webhook webhooks = None.
Proof.
  unfold find_own_webhook. induction 1 as [|x l Hx _ IH]; simpl; [reflexivity|].
  rewrite bool_decide_eq_false_2 by (rewrite Hx; intros Hne; by apply Hne). exact IH.
Qed.

(** X9: when the bot may manage webhooks and the channel already has a
    webhook with a token, [_get_or_create_webhook] returns the first such
    webhook and does nothing else: no webhook is created and nothing is
    logged, whatever [create_webhook] would answer.  Only when no webhook
    of the channel has a token is the outcome that of [create_webhook]. *)
Theorem get_or_create_webhook_reuses (h : Host) (chan : TextChannel) (w : World) :
  guild_has_bot_member h (channel_guild chan) = true →
  manage_webhooks h chan = true →
  (∀ before wh after,
     channel_webhooks h chan = (before ++ wh :: after)%list →
     Forall (λ x, webhook_token x = None) before →
     webhook_token wh ≠ None →
     _get_or_create_webhook h chan w = (Ok (Some wh), w))
  ∧ (Forall (λ x, webhook_token x = None) (channel_webhooks h chan) →
     match create_webhook h chan with
     | Ok wh => _get_or_create_webhook h chan w = (Ok (Some wh), w)
     | Raise e =>
         _get_or_create_webhook h chan w
         = (Ok None, log_calls [LoggerError (exn_type e ++ ": " ++ exn_msg e)] w)
     end).
Proof.
  intros Hmember Hperm. unfold _get_or_create_webhook.
  rewrite find_own_webhook_match, Hmember, Hperm. simpl. split.
  - intros before wh after Hlist Hbefore Hwh.
    by rewrite Hlist, (find_own_webhook_first before after wh Hbefore Hwh).
  - intros Hnone. rewrite (find_own_webhook_none _ Hnone).
    destruct (create_webhook h chan) as [wh|e]; reflexivity.
Qed.

(** A log send with a stored URL goes through the webhook of that URL. *)
Lemma send_log_embed_stored (h : Host) (chan : TextChannel) (embed : Embed)
    (w : World) (wh_url : string) (wh : Webhook) :
  stored_webhook (channel_guild chan) w = Some wh_url →
  webhook_from_url h wh_url = Ok wh →
  send_log_embed h chan embed w
  = (Ok tt, log_calls [WebhookSend wh embed (bot_user_name h) (bot_avatar_url h) true] w).
Proof.
  intros Hsome Hurl.
  destruct (config_get (py_str (channel_guild chan)) (config w)) as [cfg|] eqn:Hget;
    [|unfold stored_webhook in Hsome; by rewrite Hget in Hsome].
  pose proof (guild_config_cached (IdInt (channel_guild chan)) w cfg Hget) as Hcfg.
  pose proof (guild_config_webhook _ _ _ _ Hcfg) as Hwh. rewrite Hsome in Hwh.
  unfold send_log_embed, mbind, M_bind. rewrite Hcfg, Hwh. unfold lift. rewrite Hurl.
  reflexivity.
Qed.

(** X10: the webhook that a log send obtains is remembered.  After a send
    that found no stored URL and obtained a webhook, the URL of that
    webhook is stored and flushed, and the next send of the guild goes
    through the webhook of the stored URL without looking up or creating
    one: its outcome does not depend on the permissions of the bot, on the
    webhooks of the channel or on [create_webhook]. *)
Theorem send_log_embed_remembers (h h' : Host) (chan : TextChannel) (embed embed' : Embed)
    (w : World) (wh wh' : Webhook) :
  stored_webhook (channel_guild chan) w = None →
  webhook_obtained h chan wh →
  webhook_from_url h' (webhook_url wh) = Ok wh' →
  ∃ w1,
    send_log_embed h chan embed w = (Ok tt, w1)
    ∧ stored_webhook (channel_guild chan) w1 = Some (webhook_url wh)
    ∧ database (config w1) = cache (config w1)
    ∧ send_log_embed h' chan embed' w1
      = (Ok tt,
         log_calls [WebhookSend wh' embed' (bot_user_name h') (bot_avatar_url h') true] w1)
    ∧ calls w1
      = (calls w ++ [WebhookSend wh embed (bot_user_name h) (bot_avatar_url h) true])%list.
Proof.
  intros Hnone Hobt Hurl.
  destruct (guild_config_returns (IdInt (channel_guild chan)) w)
    as (cfg & w0 & Hcfg & Hget & Htr & Hcalls & Hdb).
  pose proof (guild_config_webhook _ _ _ _ Hcfg) as Hwh. rewrite Hnone in Hwh.
  rewrite (send_log_embed_no_url h chan embed w w0 cfg Hcfg Hwh).
  unfold send_with_fresh_webhook, mbind, M_bind.
  rewrite (get_or_create_obtains h chan wh w0 Hobt).
  eexists. split; [reflexivity|].
  assert (Hstored : stored_webhook (channel_guild chan)
    (log_calls [WebhookSend wh embed (bot_user_name h) (bot_avatar_url h) true]
       (set_config config_update
          (set_config (λ c,
             {| cache := alter (λ c0,
                  {| channel := channel c0; webhook := Some (webhook_url wh);
                     enable := enable c0; store_data := store_data c0 |})
                  (py_str (channel_guild chan)) (cache c);
                database := database c |}) w0)))
    = Some (webhook_url wh)).
  { unfold stored_webhook, config_get in *. simpl in *.
    by rewrite lookup_alter_eq, Hget. }
  split; [exact Hstored|]. split; [reflexivity|]. split.
  - by apply (send_log_embed_stored h' chan embed' _ (webhook_url wh) wh').
  - simpl. by rewrite Hcalls.
Qed.

(** ** Joins and leaves the tracker does not handle *)

(** X11: [on_member_join] does nothing for a bot, for a guild whose logging
    is disabled and for a guild whose log channel cannot be found: it sends
    nothing, stores nothing and does not even fetch the invites, so that
    the cached snapshot is left as it was.  When the member is missing from
    the member list of the guild, [list.index] raises before the invites
    are compared. *)
Theorem on_member_join_ignored (h : Host) (member : Member) (w w1 : World)
    (cfg : GuildConfigData) :
  guild_config (IdInt (member_guild member)) w = (Ok cfg, w1) →
  tracker w1 = tracker w ∧ calls w1 = calls w
  ∧ (member_bot member = true → on_member_join h member w = (Ok tt, w))
  ∧ (member_bot member = false →
     enable cfg = false
     ∨ guild_get_channel h (member_guild member) (channel cfg) = Ok None →
     on_member_join h member w = (Ok tt, w1))
  ∧ (∀ chan e,
       member_bot member = false → enable cfg = true →
       guild_get_channel h (member_guild member) (channel cfg) = Ok (Some chan) →
       join_position_of h member = Raise e →
       on_member_join h member w = (Raise e, w1)).
Proof.
  intros Hcfg. destruct (guild_config_inv _ _ _ _ Hcfg) as (_ & Htr & Hcalls).
  split; [exact Htr|]. split; [exact Hcalls|].
  unfold on_member_join, mbind, M_bind. split; [|split].
  - intros ->. reflexivity.
  - intros -> Hguard. rewrite Hcfg. destruct (enable cfg); simpl.
    + destruct Hguard as [?|Hchan]; [discriminate|]. unfold lift. by rewrite Hchan.
    + reflexivity.
  - intros chan e -> Hen Hchan Hpos. rewrite Hcfg, Hen. simpl. unfold lift.
    rewrite Hchan, Hpos. reflexivity.
Qed.

Lemma leave_embed_fields (h : Host) (member : Member) (invdata : option InviteData) :
  ∃ channel_text inviter_text,
    fields (leave_embed h member invdata)
    = ([("Joined at:", format_dt (member_joined_at member));
        ("Time on server:", age h (member_joined_at member))]
       ++ match invdata with
          | Some d =>
              [("Invite code:", data_code d); ("Invite channel:", channel_text);
               ("Invite created by:", inviter_text)]
          | None => []
          end)%list.
Proof.
  unfold leave_embed, stored_invite_fields.
  destruct invdata as [d|].
  - destruct (member_nick member) as [nick|]; [case_bool_decide|];
      (destruct (filter _ (reverse (member_roles member))).*1);
      simpl; by eexists _, _.
  - exists "", "".
    destruct (member_nick member) as [nick|]; [case_bool_decide|];
      (destruct (filter _ (reverse (member_roles member))).*1); reflexivity.
Qed.

(** X12: when a human member leaves a guild whose logging is enabled and
    whose log channel is found, the listener hands [send_log_embed] one
    embed, which shows the invite code exactly when the stored record of
    the user had an entry with invite data for the guild, and then shows
    the stored code.  A user without entry for the guild keeps the records
    as they are. *)
Theorem on_member_remove_embed (h : Host) (member : Member) (w w1 : World)
    (cfg : GuildConfigData) (chan : TextChannel) :
  member_bot member = false →
  guild_config (IdInt (member_guild member)) w = (Ok cfg, w1) →
  enable cfg = true →
  guild_get_channel h (member_guild member) (channel cfg) = Ok (Some chan) →
  let entry :=
    user_records (tracker w) !! member_id member
      ≫= λ d, guilds d !! py_str (member_guild member) in
  let embed := leave_embed h member (entry ≫= entry_invite) in
  ∃ r w',
    on_member_remove h member w = (r, w')
    ∧ (entry = None → user_records (tracker w') = user_records (tracker w))
    ∧ (∀ v, ("Invite code:", v) ∈ fields embed
            ↔ ∃ d, entry ≫= entry_invite = Some d ∧ v = data_code d)
    ∧ (r = Ok tt →
       ∃ logged s, calls w' = (calls w ++ logged ++ [s])%list ∧ sends_embed chan embed s).
Proof.
  intros Hbot Hcfg Hen Hchan entry embed.
  destruct (guild_config_inv _ _ _ _ Hcfg) as (_ & Htr & Hcalls).
  assert (Hfields : ∀ v, ("Invite code:", v) ∈ fields embed
            ↔ ∃ d, entry ≫= entry_invite = Some d ∧ v = data_code d).
  { intros v. subst embed.
    destruct (leave_embed_fields h member (entry ≫= entry_invite)) as (ct & it & ->).
    destruct (entry ≫= entry_invite) as [d|]; simpl.
    - rewrite !elem_of_cons, elem_of_nil. split.
      + intros [?|[?|[Heq|[?|[?|[]]]]]]; try discriminate.
        injection Heq as ->. by exists d.
      + intros (d' & [= <-] & ->). auto.
    - rewrite !elem_of_cons, elem_of_nil. split.
      + intros [?|[?|[]]]; discriminate.
      + by intros (d' & ? & _). }
  (* the run: the records are updated, then the embed is sent *)
  assert (Hrun : ∃ w2,
    on_member_remove h member w = send_log_embed h chan embed w2
    ∧ calls w2 = calls w
    ∧ (entry = None → user_records (tracker w2) = user_records (tracker w))).
  { unfold on_member_remove. rewrite Hbot. unfold mbind, M_bind.
    rewrite Hcfg, Hen. cbv beta iota. cbn [negb].
    unfold get_user_data, gets. cbv beta iota. rewrite Htr.
    subst embed entry.
    destruct (user_records (tracker w) !! member_id member) as [data|]; simpl.
    - destruct (guilds data !! py_str (member_guild member)) as [e|]; simpl.
      + destruct (bool_decide (delete (py_str (member_guild member)) (guilds data) = ∅)
                  || negb (store_data cfg)); simpl; unfold lift; rewrite Hchan;
          eexists; (split; [reflexivity|]); simpl; (split; [exact Hcalls | discriminate]).
      + unfold lift. rewrite Hchan. exists w1. simpl. rewrite Htr. done.
    - unfold lift. rewrite Hchan. exists w1. simpl. rewrite Htr. done. }
  destruct Hrun as (w2 & Hrun & Hcalls2 & Hrec2).
  destruct (send_log_embed h chan embed w2) as [r w'] eqn:Hsend.
  destruct (send_log_embed_effect _ _ _ _ _ _ Hsend) as (Htr' & _ & Hsent).
  exists r, w'. split; [exact Hrun|]. split; [|split; [exact Hfields|]].
  - intros Hnone. rewrite Htr'. by apply Hrec2.
  - intros Hok. destruct (Hsent Hok) as (logged & s & Hc & Hs).
    exists logged, s. rewrite Hc, Hcalls2. done.
Qed.

(** ** A join followed by a leave *)

(** The records and the guild document after a join that returned with one
    predicted invite. *)
Lemma on_member_join_single (h : Host) (member : Member) (w w1 w2 wj : World)
    (cfg : GuildConfigData) (chan : TextChannel) (pos : Z) (invite : Invite) :
  member_bot member = false →
  guild_config (IdInt (member_guild member)) w = (Ok cfg, w1) →
  enable cfg = true →
  guild_get_channel h (member_guild member) (channel cfg) = Ok (Some chan) →
  join_position_of h member = Ok pos →
  get_used_invite h member w1 = (Ok [invite], w2) →
  on_member_join h member w = (Ok tt, wj) →
  user_records (tracker wj)
  = (if store_data cfg then saved_records member invite (user_records (tracker w))
     else user_records (tracker w))
  ∧ ∃ cfg', config_get (py_str (member_guild member)) (config wj) = Some cfg'
            ∧ same_but_webhook cfg cfg'.
Proof.
  intros Hbot Hcfg Hen Hchan Hpos Hinf Hjoin.
  destruct (guild_config_inv _ _ _ _ Hcfg) as (Hget & Htr & _).
  assert (Hinf' : config w2 = config w1
            ∧ user_records (tracker w2) = user_records (tracker w1)).
  { unfold get_used_invite, mbind, M_bind in Hinf. simpl in Hinf.
    by injection Hinf as _ <-. }
  destruct Hinf' as [Hc2 Hrec2].
  unfold on_member_join in Hjoin. rewrite Hbot in Hjoin.
  apply bind_inv in Hjoin as [(c & w' & Hc & Hjoin) | (e & _ & ?)]; [|discriminate].
  rewrite Hcfg in Hc. injection Hc as <- <-. rewrite Hen in Hjoin. cbn [negb] in Hjoin.
  apply bind_inv in Hjoin as [(ch & w' & Hc & Hjoin) | (e & _ & ?)]; [|discriminate].
  unfold lift in Hc. rewrite Hchan in Hc. injection Hc as <- <-.
  apply bind_inv in Hjoin as [(p & w' & Hc & Hjoin) | (e & _ & ?)]; [|discriminate].
  unfold lift in Hc. rewrite Hpos in Hc. injection Hc as <- <-.
  apply bind_inv in Hjoin as [(preds & w' & Hc & Hjoin) | (e & _ & ?)]; [|discriminate].
  rewrite Hinf in Hc. injection Hc as <- <-.
  apply bind_inv in Hjoin as [(vanity & w' & Hc & Hjoin) | (e & _ & ?)]; [|discriminate].
  injection Hc as <- <-.
  apply bind_inv in Hjoin as [([] & w3 & Hsend & Hjoin) | (e & _ & ?)]; [|discriminate].
  destruct (send_log_embed_effect _ _ _ _ _ _ Hsend) as (Htr3 & Hcfg3 & _).
  destruct (Hcfg3 (py_str (member_guild member)) cfg) as (cfg3 & Hget3 & Hsame).
  { rewrite Hc2. exact Hget. }
  apply bind_inv in Hjoin as [(c & w' & Hc & Hjoin) | (e & _ & ?)]; [|discriminate].
  unfold config_read, gets, mbind, M_bind in Hc. rewrite Hget3 in Hc.
  injection Hc as <- <-.
  assert (Hrec3 : user_records (tracker w3) = user_records (tracker w)).
  { by rewrite Htr3, Hrec2, Htr. }
  assert (Hstore : store_data cfg3 = store_data cfg) by apply Hsame.
  rewrite <- Hstore. clear Hstore.
  destruct (store_data cfg3) eqn:Hs3.
  - injection Hjoin as <-. simpl. rewrite Hrec3. split; [reflexivity|].
    exists cfg3. split; [exact Hget3 | exact Hsame].
  - injection Hjoin as <-. split; [exact Hrec3|].
    exists cfg3. split; [exact Hget3 | exact Hsame].
Qed.

(** X13: a join that the tracker attributes to one invite and stores,
    followed by the leave of the same member, removes the stored entry
    again.  The record of a user that had no record before is deleted, so
    that the stored records are back to what they were; the same holds for
    a user whose record had entries for other guilds only.  In every case
    the record of the user has no entry for the guild afterwards and the
    records of other users are the ones from before the join. *)
Theorem join_leave_round_trip (h h' : Host) (member : Member) (w w1 w2 wj : World)
    (cfg : GuildConfigData) (chan : TextChannel) (pos : Z) (invite : Invite) :
  member_bot member = false →
  guild_config (IdInt (member_guild member)) w = (Ok cfg, w1) →
  enable cfg = true →
  store_data cfg = true →
  guild_get_channel h (member_guild member) (channel cfg) = Ok (Some chan) →
  join_position_of h member = Ok pos →
  get_used_invite h member w1 = (Ok [invite], w2) →
  on_member_join h member w = (Ok tt, wj) →
  let key := py_str (member_guild member) in
  let recs := user_records (tracker w) in
  ∃ r w',
    on_member_remove h' member wj = (r, w')
    ∧ ((∀ d, recs !! member_id member = Some d → guilds d !! key = None ∧ guilds d ≠ ∅) →
       user_records (tracker w') = recs)
    ∧ (∀ d, user_records (tracker w') !! member_id member = Some d → guilds d !! key = None)
    ∧ (∀ other, other ≠ member_id member →
         user_records (tracker w') !! other = recs !! other).
Proof.
  intros Hbot Hcfg Hen Hstore Hchan Hpos Hinf Hjoin key recs.
  destruct (on_member_join_single h member w w1 w2 wj cfg chan pos invite
              Hbot Hcfg Hen Hchan Hpos Hinf Hjoin) as (Hrecs & cfg' & Hget' & _ & Hen' & Hstore').
  rewrite Hstore in Hrecs. rewrite Hen in Hen'. rewrite Hstore in Hstore'.
  set (entry := {| entry_invite := Some (invite_data invite) |}).
  set (old := default ∅ (guilds <$> recs !! member_id member)).
  assert (Hdata : user_records (tracker wj) !! member_id member
                  = Some {| guilds := <[key := entry]> old |}).
  { rewrite Hrecs. unfold saved_records. by rewrite lookup_insert_eq. }
  destruct (on_member_remove_handled h' member wj wj cfg'
              {| guilds := <[key := entry]> old |} entry)
    as (r & w' & Hrun & Hdel & Hkeep & Hentry); try done.
  { by apply guild_config_cached. }
  { simpl. apply lookup_insert_eq. }
  simpl in Hdel, Hkeep, Hentry. fold key in Hdel, Hkeep, Hentry.
  rewrite delete_insert_eq in Hdel, Hkeep.
  exists r, w'. split; [exact Hrun|].
  assert (Hfinal : user_records (tracker w')
    = if decide (delete key old = ∅) then delete (member_id member) recs
      else <[member_id member := {| guilds := delete key old |}]> recs).
  { case_decide as Hrest.
    - rewrite Hdel by (by left). rewrite Hrecs. unfold saved_records.
      by rewrite delete_insert_eq.
    - rewrite Hkeep by done. rewrite Hrecs. unfold saved_records.
      by rewrite insert_insert_eq. }
  split; [|split].
  - intros Hbefore. rewrite Hfinal. subst old.
    destruct (recs !! member_id member) as [d|] eqn:Hd; simpl.
    + destruct (Hbefore d eq_refl) as [Hnone Hne].
      rewrite delete_id by exact Hnone. rewrite decide_False by exact Hne.
      apply insert_id. rewrite Hd. by destruct d.
    + rewrite delete_empty, decide_True by done. by apply delete_id.
  - intros d Hd. by apply Hentry.
  - intros other Hother. rewrite Hfinal. case_decide.
    + by rewrite lookup_delete_ne.
    + by rewrite lookup_insert_ne.
Qed.

(** ** Resolving twice *)

Lemma dict_set_get_id (key : string) (child : value) (d : dict) :
  dict_get key d = Some child → dict_set key child d = d.
Proof.
  induction d as [|[k v] d IH]; simpl; [discriminate|].
  destruct (decide (k = key)) as [->|Hne].
  - by intros [= ->].
  - intros Hget. by rewrite IH.
Qed.

Lemma store_child_getitem (key : string) (child data : value) :
  getitem key data = Ok child → store_child key child data = data.
Proof.
  destruct data as [ | | | | | d]; try discriminate. simpl.
  destruct (dict_get key d) as [v|] eqn:Hget; [|discriminate].
  intros [= ->]. by rewrite dict_set_get_id.
Qed.

Lemma resolve_items_settled (rec : value → value → result value) (data : value)
    (items : dict) :
  Forall (λ item, settled rec item data) items →
  resolve_items rec items data = Ok data.
Proof.
  induction 1 as [|[key value] items [Hin Hchild] _ IH]; [reflexivity|].
  simpl in *. rewrite Hin. destruct (is_dict value); [|exact IH].
  destruct (Hchild eq_refl) as (child & Hget & Hrec).
  rewrite Hget, Hrec, store_child_getitem by exact Hget. exact IH.
Qed.

(** One step of the loop: the data after the item [(key, value)]. *)
Lemma resolve_items_step (rec : value → value → result value) (key : string)
    (value : value) (items : dict) (data data' : Py.value) :
  resolve_items rec ((key, value) :: items) data = Ok data' →
  ∃ data1,
    resolve_items rec items data1 = Ok data'
    ∧ ((data1 = data ∧ contains key data = Ok true ∧ is_dict value = false)
       ∨ (∃ d, data = VDict d ∧ dict_get key d = None
               ∧ data1 = VDict (dict_set key value d))
       ∨ (∃ d child child', data = VDict d ∧ dict_get key d = Some child
               ∧ is_dict value = true ∧ rec value child = Ok child'
               ∧ data1 = VDict (dict_set key child' d))).
Proof.
  simpl. destruct (contains key data) as [[]|e] eqn:Hin; [| |discriminate].
  - destruct (is_dict value) eqn:Hdict.
    + destruct (getitem key data) as [child|e] eqn:Hget; [|discriminate].
      destruct (rec value child) as [child'|e] eqn:Hrec; [|discriminate].
      intros Hrun. destruct data as [ | | | | | d]; try discriminate.
      simpl in Hget. destruct (dict_get key d) as [c|] eqn:Hd; [|discriminate].
      injection Hget as ->.
      exists (VDict (dict_set key child' d)). split; [exact Hrun|].
      right. right. by exists d, child, child'.
    + intros Hrun. exists data. split; [exact Hrun|]. by left.
  - unfold deepcopy. destruct data as [ | | | | | d]; try discriminate.
    simpl in Hin. injection Hin as Hin. apply bool_decide_eq_false in Hin.
    simpl. intros Hrun. exists (VDict (dict_set key value d)). split; [exact Hrun|].
    right. left. exists d. split; [reflexivity|]. split; [|reflexivity].
    destruct (dict_get key d); [|reflexivity]. exfalso. apply Hin. by eexists.
Qed.

(** The loop leaves alone the keys that are not among its items. *)
Lemma resolve_items_frame (rec : value → value → result value) (items : dict) :
  ∀ data data', resolve_items rec items data = Ok data' →
  ∀ k, k ∉ keys items →
    contains k data' = contains k data ∧ getitem k data' = getitem k data.
Proof.
  induction items as [|[key value] items IH]; intros data data' Hrun k Hk.
  { by injection Hrun as <-. }
  unfold keys in Hk. simpl in Hk. apply not_elem_of_cons in Hk as [Hne Hk].
  apply resolve_items_step in Hrun as (data1 & Hrun & Hstep).
  destruct (IH _ _ Hrun k Hk) as [-> ->].
  destruct Hstep as [(-> & _) | [(d & -> & _ & ->) | (d & c & c' & -> & _ & _ & _ & ->)]];
    [done| |]; simpl; by rewrite dict_get_set_ne.
Qed.

Lemma resolve_items_settles (rec : value → value → result value) (items : dict) :
  NoDup (keys items) →
  Forall (λ item, is_dict item.2 = true →
            rec item.2 item.2 = Ok item.2
            ∧ ∀ c c', rec item.2 c = Ok c' → rec item.2 c' = Ok c') items →
  ∀ data data', resolve_items rec items data = Ok data' →
  Forall (λ item, settled rec item data') items.
Proof.
  induction items as [|[key value] items IH]; intros Hnodup Hrec data data' Hrun.
  { constructor. }
  unfold keys in Hnodup. simpl in Hnodup. apply NoDup_cons in Hnodup as [Hfresh Hnodup].
  apply Forall_cons in Hrec as [Hvalue Hrec]. simpl in Hvalue.
  apply resolve_items_step in Hrun as (data1 & Hrun & Hstep).
  constructor; [|by apply (IH Hnodup Hrec data1)].
  destruct (resolve_items_frame _ _ _ _ Hrun key Hfresh) as [Hin Hget].
  unfold settled. simpl. rewrite Hin, Hget.
  destruct Hstep as [(-> & Hc & Hd) | [(d & -> & Hd & ->) | (d & c & c' & -> & Hd & Hdict & Hc & ->)]].
  - split; [exact Hc|]. intros Hdict. congruence.
  - simpl. rewrite dict_get_set_eq. split.
    + by rewrite bool_decide_eq_true_2 by (by eexists).
    + intros Hdict. exists value. split; [reflexivity|]. by apply Hvalue.
  - simpl. rewrite dict_get_set_eq. split.
    + by rewrite bool_decide_eq_true_2 by (by eexists).
    + intros _. exists c'. split; [reflexivity|]. by apply (proj2 (Hvalue Hdict) c c').
Qed.

Lemma dict_get_elem_of (key : string) (v : value) (d : dict) :
  NoDup (keys d) → (key, v) ∈ d → dict_get key d = Some v.
Proof.
  induction d as [|[k v'] d IH]; intros Hnodup Hin.
  { by apply elem_of_nil in Hin. }
  unfold keys in Hnodup. simpl in Hnodup. apply NoDup_cons in Hnodup as [Hfresh Hnodup].
  simpl. apply elem_of_cons in Hin as [Heq|Hin].
  - injection Heq as <- <-. by rewrite decide_True.
  - rewrite decide_False; [by apply IH|].
    intros ->. apply Hfresh. apply list_elem_of_fmap. by exists (key, v).
Qed.

(** Defaults with unique keys are a document that the call leaves alone,
    and so is every document that the call has returned. *)
Lemma recursively_resolve_keys_fixed (base : value) :
  unique_keys base = true →
  (is_dict base = true → recursively_resolve_keys base base = Ok base)
  ∧ ∀ c c', recursively_resolve_keys base c = Ok c' →
            recursively_resolve_keys base c' = Ok c'.
Proof.
  induction base as [ | b | n | s | l _ | items IH] using value_nested_ind;
    intros Huniq; try (split; [discriminate | intros c c'; discriminate]).
  simpl in Huniq. apply andb_true_iff in Huniq as [Hnodup Huniq].
  apply bool_decide_eq_true in Hnodup. apply forallb_Forall in Huniq.
  assert (Hrec : Forall (λ item, is_dict item.2 = true →
            recursively_resolve_keys item.2 item.2 = Ok item.2
            ∧ ∀ c c', recursively_resolve_keys item.2 c = Ok c' →
                      recursively_resolve_keys item.2 c' = Ok c') items).
  { rewrite Forall_forall in IH, Huniq. apply Forall_forall. intros [k v] Hin Hdict.
    destruct (IH (k, v) Hin (Huniq (k, v) Hin)) as [Hself Hidem]. simpl in *.
    split; [by apply Hself | exact Hidem]. }
  split.
  - intros _. simpl. apply resolve_items_settled.
    rewrite Forall_forall in Hrec. apply Forall_forall. intros [k v] Hin.
    pose proof (dict_get_elem_of k v items Hnodup Hin) as Hget.
    unfold settled. simpl. rewrite Hget. split.
    + by rewrite bool_decide_eq_true_2 by (by eexists).
    + intros Hdict. exists v. split; [reflexivity|]. by apply (Hrec (k, v) Hin).
  - intros c c' Hrun. simpl in *. apply resolve_items_settled.
    by apply (resolve_items_settles _ items Hnodup Hrec c).
Qed.

(** X14: resolving is idempotent.  When the defaults have each key once at
    every depth, a document returned by [recursively_resolve_keys] is
    returned unchanged by a second call, whatever the stored document was:
    no key is added, moved or overwritten the second time. *)
Theorem recursively_resolve_keys_idempotent (base data data' : value) :
  unique_keys base = true →
  recursively_resolve_keys base data = Ok data' →
  recursively_resolve_keys base data' = Ok data'.
Proof.
  intros Huniq Hrun.
  by apply (proj2 (recursively_resolve_keys_fixed base Huniq) data).
Qed.

Lemma resolve_items_fresh (rec : value → value → result value) (items : dict) :
  ∀ d, NoDup (keys (d ++ items)%list) →
  resolve_items rec items (VDict d) = Ok (VDict (d ++ items)%list).
Proof.
  assert (Hset : ∀ key v (d : dict), key ∉ keys d →
            dict_set key v d = (d ++ [(key, v)])%list).
  { intros key v d. induction d as [|[k v'] d IH]; intros Hk; [reflexivity|].
    unfold keys in Hk. simpl in Hk. apply not_elem_of_cons in Hk as [Hne Hk].
    simpl. rewrite decide_False by done. by rewrite IH. }
  induction items as [|[key value] items IH]; intros d Hnodup.
  { by rewrite app_nil_r. }
  assert (Hfresh : key ∉ keys d).
  { unfold keys in *. rewrite fmap_app in Hnodup. apply NoDup_app in Hnodup as (_ & Hdis & _).
    intros Hin. apply (Hdis key Hin). simpl. by left. }
  simpl. rewrite (dict_get_not_key key d Hfresh).
  rewrite bool_decide_eq_false_2 by (intros [? ?]; discriminate).
  unfold deepcopy. rewrite (Hset key value d Hfresh).
  rewrite IH; [by rewrite <- app_assoc|]. by rewrite <- app_assoc.
Qed.

(** X15: with nothing stored, the call returns the defaults themselves, in
    the order of the defaults; with the defaults stored, it returns them
    unchanged. *)
Theorem recursively_resolve_keys_empty (items : dict) :
  unique_keys (VDict items) = true →
  recursively_resolve_keys (VDict items) (VDict []) = Ok (VDict items)
  ∧ recursively_resolve_keys (VDict items) (VDict items) = Ok (VDict items).
Proof.
  intros Huniq. split.
  - simpl in *. apply andb_true_iff in Huniq as [Hnodup _].
    apply bool_decide_eq_true in Hnodup.
    by rewrite (resolve_items_fresh _ items []).
  - by apply (proj1 (recursively_resolve_keys_fixed (VDict items) Huniq)).
Qed.

(** ** From the loaded configuration to the contact panel *)

Lemma dict_get_Some_elem_of (key : string) (v : value) (d : dict) :
  dict_get key d = Some v → (key, v) ∈ d.
Proof.
  induction d as [|[k v'] d IH]; simpl; [discriminate|].
  destruct (decide (k = key)) as [->|Hne].
  - intros [= ->]. by left.
  - intros Hget. right. by apply IH.
Qed.

(** In a stored partial document, a dictionary of the defaults is a
    dictionary wherever it is stored. *)
Lemma partial_document_dict (path : list string) :
  ∀ base data v sub,
    partial_document base data = true →
    get_path path data = Some v → get_path path base = Some (VDict sub) →
    is_dict v = true.
Proof.
  induction path as [|key path IH]; intros base data v sub Hpart Hdata Hbase.
  - simpl in *. injection Hdata as <-. injection Hbase as ->.
    simpl in Hpart. by destruct data.
  - simpl in Hdata, Hbase.
    destruct data as [ | | | | | d]; try discriminate.
    destruct base as [ | | | | | items]; try discriminate.
    destruct (dict_get key d) as [child|] eqn:Hd; [|discriminate].
    destruct (dict_get key items) as [bchild|] eqn:Hitems; [|discriminate].
    simpl in Hpart. apply forallb_Forall in Hpart. rewrite Forall_forall in Hpart.
    specialize (Hpart (key, bchild) (dict_get_Some_elem_of _ _ _ Hitems)).
    simpl in Hpart. rewrite Hd in Hpart.
    assert (Hdict : is_dict bchild = true).
    { destruct path; simpl in Hbase; [by injection Hbase as ->|].
      by destruct bchild. }
    rewrite Hdict in Hpart. by apply (IH bchild child v sub).
Qed.

Lemma get_path_getitem (key : string) (path : list string) (data v : value) :
  get_path (key :: path) data = Some v →
  ∃ child, getitem key data = Ok child ∧ get_path path child = Some v.
Proof.
  simpl. destruct data as [ | | | | | d]; try discriminate. simpl.
  destruct (dict_get key d) as [child|]; [|discriminate].
  intros Hpath. by exists child.
Qed.

(** X16: the contact panel built from a loaded configuration.  When the
    stored document is a partial document of the defaults and the manager,
    which has no view yet, holds the contact part of the loaded
    configuration, the construction of the view returns: the new object is
    persistent (no timeout), lists the select options of the loaded
    configuration and has exactly one button, with the custom id
    [contact_button]; with no button stored, it is the grey button labelled
    Contact. *)
Theorem fetch_then_ContactView (doc loaded : value) (self : nat) (message : option Z)
    (w : Views.World) :
  partial_document _default_config doc = true →
  fetch doc = Ok loaded →
  Views.view (Views.manager w) = None →
  getitem "contact" loaded = Ok (Views.config (Views.manager w)) →
  ∃ w' options button,
    Views.ContactView__init__ self message w = (Ok tt, w')
    ∧ Views.views w' !! self
      = Some {| Views.message := message; Views.timeout := None;
                Views.select_options := Some options; Views.children := [button] |}
    ∧ get_path ["contact"; "select"; "options"] loaded = Some options
    ∧ Views.custom_id button = "contact_button"
    ∧ (get_path ["contact"; "button"] doc = None →
       button = {| Views.emoji := VNone; Views.label := VStr "Contact";
                   Views.style := Views.secondary;
                   Views.custom_id := "contact_button" |}).
Proof.
  intros Hpart Hfetch Hview Hcontact.
  destruct (recursively_resolve_keys_spec _default_config doc eq_refl eq_refl Hpart)
    as (loaded' & Hrun & _ & Hstored & Hbase & Hmissing).
  unfold fetch in Hfetch. rewrite Hfetch in Hrun. injection Hrun as <-.
  (* the select options *)
  destruct (Hbase ["contact"; "select"; "options"]) as [options Hoptions];
    [by eexists|].
  pose proof Hoptions as Hoptions'.
  apply get_path_getitem in Hoptions' as (contact & Hc & Hoptions').
  rewrite Hcontact in Hc. injection Hc as <-.
  apply get_path_getitem in Hoptions' as (select & Hselect & Hoptions').
  apply get_path_getitem in Hoptions' as (options' & Hgetoptions & [= ->]).
  (* the button dictionary *)
  assert (Hbutton : ∃ button,
            getitem "button" (Views.config (Views.manager w)) = Ok (VDict button)
            ∧ (get_path ["contact"; "button"] doc = None → button = [])).
  { destruct (get_path ["contact"; "button"] doc) as [v|] eqn:Hdoc.
    - assert (Hv : is_dict v = true).
      { by apply (partial_document_dict ["contact"; "button"] _default_config doc v []). }
      destruct (Hstored _ _ Hdoc) as (v' & Hv' & Hdict & _).
      apply get_path_getitem in Hv' as (contact & Hc & Hv').
      rewrite Hcontact in Hc. injection Hc as <-.
      apply get_path_getitem in Hv' as (b & Hb & [= <-]).
      rewrite Hv in Hdict. destruct b as [ | | | | | button]; try discriminate.
      exists button. by split.
    - assert (Hdefault : get_path ["contact"; "button"] loaded = Some (VDict [])).
      { destruct doc as [ | | | | | d]; try discriminate.
        destruct (dict_get "contact" d) as [c|] eqn:Hd.
        - assert (Hcdict : is_dict c = true).
          { eapply (partial_document_dict ["contact"] _default_config (VDict d) c);
              [exact Hpart | by simpl; rewrite Hd | reflexivity]. }
          destruct c as [ | | | | | cd]; try discriminate.
          apply (Hmissing ["contact"] "button" (VDict []) cd).
          + simpl. by rewrite Hd.
          + simpl in Hdoc. rewrite Hd in Hdoc. by destruct (dict_get "button" cd).
          + reflexivity.
        - pose proof (Hmissing [] "contact" contact_config d eq_refl Hd eq_refl) as Hall.
          apply get_path_getitem in Hall as (contact & Hc & [= ->]).
          change (get_path ["contact"; "button"] loaded)
            with (get_path ("contact" :: ["button"]) loaded).
          destruct loaded as [ | | | | | ld]; try discriminate.
          simpl in Hc. simpl. destruct (dict_get "contact" ld); [|discriminate].
          by injection Hc as ->. }
      apply get_path_getitem in Hdefault as (contact & Hc & Hdefault).
      rewrite Hcontact in Hc. injection Hc as <-.
      apply get_path_getitem in Hdefault as (b & Hb & [= ->]).
      exists []. by split. }
  destruct Hbutton as (button & Hbutton & Hnone).
  unfold Views.ContactView__init__, Views.BaseView__init__, Views.set_view,
    mbind, M_bind, gets, modify, raise, lift, mret, M_ret.
  cbv beta iota. cbn [Views.manager Views.views Views.view Views.config].
  rewrite Hview. cbn [Views.manager Views.views Views.view Views.config].
  rewrite Hselect, Hgetoptions. cbv beta iota.
  cbn [Views.manager Views.views Views.view Views.config].
  rewrite Hbutton. cbn [get]. cbv beta iota.
  cbn [Views.manager Views.views Views.view Views.config].
  eexists _, options, _. split; [reflexivity|].
  cbn [Views.views]. rewrite !lookup_alter_eq, lookup_insert_eq. simpl.
  split; [reflexivity|]. split; [exact Hoptions|]. split; [reflexivity|].
  intros Hdoc. rewrite (Hnone Hdoc). reflexivity.
Qed.

(** ** The contact panel at work *)

Lemma py_eq_str_l (s : string) (v : value) :
  ContactFlow.py_eq (VStr s) v = true ↔ v = VStr s.
Proof.
  destruct v as [ | | | t | | ]; simpl; try (split; discriminate).
  rewrite bool_decide_eq_true. split; [by intros -> | by intros [= ->]].
Qed.

Lemma py_eq_str_r (s : string) (v : value) :
  ContactFlow.py_eq v (VStr s) = true ↔ v = VStr s.
Proof.
  destruct v as [ | | | t | | ]; simpl; try (split; discriminate).
  rewrite bool_decide_eq_true. split; [by intros -> | by intros [= ->]].
Qed.

(** X17: [get_option] returns the first option of the menu whose value is
    the submitted string, and raises [ValueError] exactly when no option
    has it. *)
Theorem get_option_first (options : list ContactFlow.SelectOption) (value : string) :
  match ContactFlow.get_option options value with
  | Ok option =>
      ContactFlow.opt_value option = VStr value
      ∧ ∃ before after,
          options = (before ++ option :: after)%list
          ∧ Forall (λ o, ContactFlow.opt_value o ≠ VStr value) before
  | Raise e =>
      exn_type e = "ValueError"
      ∧ Forall (λ o, ContactFlow.opt_value o ≠ VStr value) options
  end.
Proof.
  induction options as [|o options IH]; cbn [ContactFlow.get_option].
  { split; [reflexivity | constructor]. }
  destruct (ContactFlow.py_eq (VStr value) (ContactFlow.opt_value o)) eqn:Heq.
  - apply py_eq_str_l in Heq. split; [exact Heq|]. by exists [], options.
  - assert (Hne : ContactFlow.opt_value o ≠ VStr value).
    { intros Hl. apply py_eq_str_l in Hl. congruence. }
    destruct (ContactFlow.get_option options value) as [option|e].
    + destruct IH as (Hlabel & before & after & -> & Hbefore).
      split; [exact Hlabel|]. exists (o :: before), after. split; [reflexivity|].
      by constructor.
    + destruct IH as [Htype Hall]. split; [exact Htype|]. by constructor.
Qed.

Lemma get_option_Ok (options : list ContactFlow.SelectOption) (value : string)
    (option : ContactFlow.SelectOption) :
  ContactFlow.get_option options value = Ok option →
  option ∈ options ∧ ContactFlow.opt_value option = VStr value.
Proof.
  induction options as [|o options IH]; cbn [ContactFlow.get_option]; [discriminate|].
  destruct (ContactFlow.py_eq (VStr value) (ContactFlow.opt_value o)) eqn:Heq.
  - intros [= <-]. split; [by left | by apply py_eq_str_l].
  - intros Hrun. destruct (IH Hrun) as [Hin Hvalue]. split; [by right | exact Hvalue].
Qed.

Lemma get_option_Raise (options : list ContactFlow.SelectOption) (value : string) (e : exn) :
  ContactFlow.get_option options value = Raise e →
  Forall (λ o, ContactFlow.opt_value o ≠ VStr value) options.
Proof.
  induction options as [|o options IH]; cbn [ContactFlow.get_option]; [constructor|].
  destruct (ContactFlow.py_eq (VStr value) (ContactFlow.opt_value o)) eqn:Heq; [discriminate|].
  intros Hrun. constructor; [|by apply IH].
  intros Hl. apply py_eq_str_l in Hl. congruence.
Qed.

(** The options are built from dictionaries, label by label, and the value
    of each is its label. *)
Lemma build_options_labels (datas : list value) :
  ∀ options, ContactFlow.build_options datas = Ok options →
  Forall2 (λ data o, get "label" data = Ok (ContactFlow.opt_label o)
                     ∧ ContactFlow.opt_value o = ContactFlow.opt_label o) datas options.
Proof.
  induction datas as [|data datas IH]; intros options; simpl.
  { intros [= <-]. constructor. }
  unfold ContactFlow.build_option, mbind, result_bind.
  destruct data as [ | | | | | d]; try discriminate. simpl.
  destruct (dict_get "label" d) as [label|] eqn:Hlabel; [|discriminate].
  destruct (ContactFlow.SelectOption__init__ (default VNone (dict_get "emoji" d)) label
              (default VNone (dict_get "description" d))) as [o|e] eqn:Hinit;
    [|discriminate].
  destruct (ContactFlow.build_options datas) as [options'|e]; [|discriminate].
  intros [= <-]. constructor; [|by apply IH].
  unfold ContactFlow.SelectOption__init__ in Hinit.
  destruct (default VNone (dict_get "emoji" d)); try discriminate;
    injection Hinit as <-; simpl; by rewrite Hlabel.
Qed.

Lemma iter_build_options (select_options : value) (datas : list value)
    (options : list ContactFlow.SelectOption) :
  ContactFlow.iter select_options = Ok datas →
  ContactFlow.build_options datas = Ok options →
  datas ≠ [] →
  select_options = VList datas.
Proof.
  destruct select_options as [ | | | s | l | d]; try discriminate; simpl.
  - intros [= <-]. destruct s as [|c s]; [done|]. discriminate.
  - by intros [= <-].
  - intros [= <-]. destruct d as [|[k v] d]; [done|]. discriminate.
Qed.

Lemma find_category_id_spec (v : string) (datas : list value) (category_id : value) :
  ContactFlow.find_category_id datas (VStr v) = Ok category_id →
  category_id ≠ VNone →
  ∃ before data after,
    datas = (before ++ data :: after)%list
    ∧ Forall (λ d, get "label" d ≠ Ok (VStr v)) before
    ∧ get "label" data = Ok (VStr v)
    ∧ get "category" data = Ok category_id.
Proof.
  induction datas as [|data datas IH]; simpl.
  { intros [= <-] Hne. done. }
  unfold mbind, result_bind.
  destruct (get "label" data) as [label|e] eqn:Hlabel; [|discriminate].
  destruct (ContactFlow.py_eq label (VStr v)) eqn:Heq.
  - apply py_eq_str_r in Heq as ->. intros Hcat _. by exists [], data, datas.
  - intros Hrun Hne. destruct (IH Hrun Hne) as (before & d & after & -> & Hbefore & Hd & Hcat).
    exists (data :: before), d, after. split; [reflexivity|]. split; [|done].
    constructor; [|exact Hbefore]. rewrite Hlabel. intros [= ->].
    assert (ContactFlow.py_eq (VStr v) (VStr v) = true) by by apply py_eq_str_r.
    congruence.
Qed.

Lemma lift_inv {W A} (x : result A) (w w' : W) (r : result A) :
  lift x w = (r, w') → x = r ∧ w' = w.
Proof. by intros [= <- <-]. Qed.

(** What [choose_category] has found when it returns. *)
Lemma choose_category_result (h : ContactFlow.Host) (view : Views.ContactView)
    (config : value) (evs evs' : list ContactFlow.Event)
    (r : result (option (option Z))) :
  ContactFlow.choose_category h view config evs = (r, evs') →
  match r with
  | Ok (Some (Some c)) =>
      ∃ v category_id,
        routed h view v category_id
        ∧ ContactFlow.int_ h category_id = Ok c ∧ ContactFlow.get_channel h c = true
  | Ok (Some None) =>
      (∃ select_options,
         Views.select_options view = Some select_options
         ∧ ContactFlow.truthy select_options = false)
      ∨ (∃ v category_id n,
           routed h view v category_id
           ∧ ContactFlow.int_ h category_id = Ok n ∧ ContactFlow.get_channel h n = false)
  | Ok None =>
      ∃ datas,
        Views.select_options view = Some (VList datas) ∧ datas ≠ []
        ∧ ∀ v, ContactFlow.submitted h = Some v →
               Forall (λ d, get "label" d ≠ Ok (VStr v)) datas
  | Raise _ => True
  end.
Proof.
  intros Hrun. unfold ContactFlow.choose_category in Hrun.
  destruct (Views.select_options view) as [so|] eqn:Hso; [|by injection Hrun as <- <-].
  destruct (ContactFlow.truthy so) eqn:Htruthy.
  2:{ injection Hrun as <- <-. left. by exists so. }
  apply bind_inv in Hrun as [(datas & w1 & Hiter & Hrun) | (e & _ & ->)]; [|exact I].
  apply lift_inv in Hiter as [Hiter ->].
  apply bind_inv in Hrun as [(options & w1 & Hbuild & Hrun) | (e & _ & ->)]; [|exact I].
  apply lift_inv in Hbuild as [Hbuild ->].
  assert (Hlist : so = VList datas).
  { apply (iter_build_options so datas options Hiter Hbuild).
    intros ->. destruct so; try discriminate; simpl in *.
    - destruct s; [discriminate|]. discriminate.
    - injection Hiter as ->. discriminate.
    - destruct d; [discriminate|]. discriminate. }
  subst so.
  assert (Hnonempty : datas ≠ []).
  { intros ->. discriminate. }
  pose proof (build_options_labels datas options Hbuild) as Hlabels.
  apply bind_inv in Hrun as [(select & w1 & Hselect & Hrun) | (e & _ & ->)]; [|exact I].
  apply lift_inv in Hselect as [Hselect ->].
  apply bind_inv in Hrun as [(placeholder & w1 & Hph & Hrun) | (e & _ & ->)]; [|exact I].
  apply lift_inv in Hph as [Hph ->].
  apply bind_inv in Hrun as [([] & w1 & Hsend & Hrun) | (e & _ & ->)]; [|exact I].
  apply lift_inv in Hsend as [Hsend ->].
  apply bind_inv in Hrun as [([] & w1 & _ & Hrun) | (e & _ & ->)]; [|exact I].
  apply bind_inv in Hrun as [(inputs & w2 & Hinputs & Hrun) | (e & _ & ->)]; [|exact I].
  assert (Hin : match inputs with
                | Some option => ∃ v, ContactFlow.submitted h = Some v
                                      ∧ ContactFlow.opt_label option = VStr v
                | None => ∀ v, ContactFlow.submitted h = Some v →
                               Forall (λ d, get "label" d ≠ Ok (VStr v)) datas
                end).
  { destruct (ContactFlow.submitted h) as [v|].
    - unfold ContactFlow.dropdown_callback in Hinputs.
      destruct (ContactFlow.get_option options v) as [option|e] eqn:Hget.
      + injection Hinputs as <- _. exists v. split; [reflexivity|].
        apply get_option_Ok in Hget as [Hmember Hvalue].
        clear -Hlabels Hmember Hvalue.
        induction Hlabels as [|data o datas options [_ Hl] _ IH].
        * by apply elem_of_nil in Hmember.
        * apply elem_of_cons in Hmember as [->|Hmember]; [congruence | by apply IH].
      + injection Hinputs as <- _. intros v' [= <-].
        apply get_option_Raise in Hget.
        clear -Hlabels Hget. induction Hlabels as [|data o datas options [Hl Hv] _ IH].
        * constructor.
        * apply Forall_cons in Hget as [Ho Hget]. constructor; [|by apply IH].
          rewrite Hl. intros [= Heq]. apply Ho. congruence.
    - injection Hinputs as <- _. intros v ?. discriminate. }
  clear Hinputs. destruct inputs as [option|].
  2:{ injection Hrun as <- _. by exists datas. }
  destruct Hin as (v & Hv & Hlabel). rewrite Hlabel in Hrun.
  apply bind_inv in Hrun as [(category_id & w3 & Hfind & Hrun) | (e & _ & ->)]; [|exact I].
  apply lift_inv in Hfind as [Hfind ->].
  assert (Hrouted : category_id ≠ VNone → routed h view v category_id).
  { intros Hne.
    destruct (find_category_id_spec v datas category_id Hfind Hne)
      as (before & data & after & -> & Hbefore & Hdata & Hcat).
    by exists (before ++ data :: after)%list, before, data, after. }
  destruct category_id as [ | b | n | s | l | d];
    [by injection Hrun as <- _ | | | | | ].
  all: specialize (Hrouted ltac:(discriminate)).
  all: apply bind_inv in Hrun as [(c & w4 & Hint & Hrun) | (e & _ & ->)]; [|exact I].
  all: apply lift_inv in Hint as [Hint ->].
  all: destruct (ContactFlow.get_channel h c) eqn:Hchannel.
  all: try (injection Hrun as <- _; eexists v, _; by split).
  all: apply bind_inv in Hrun as [([] & w4 & _ & Hrun) | (e & _ & ->)]; [|exact I].
  all: injection Hrun as <- _; right; eexists v, _, c; by split.
Qed.

Lemma creates_app (evs evs' : list ContactFlow.Event) :
  creates (evs ++ evs') = (creates evs ++ creates evs')%list.
Proof. apply omap_app. Qed.

Lemma no_thread_event_creates (evs : list ContactFlow.Event) :
  no_thread_event evs = true → creates evs = [].
Proof.
  induction evs as [|e evs IH]; [done|]. unfold no_thread_event. simpl.
  intros [He Hevs]%andb_true_iff. unfold creates. simpl.
  destruct e; try discriminate; by apply IH.
Qed.

Lemma no_thread_event_send (evs : list ContactFlow.Event) (title description : string) :
  no_thread_event evs = true → ContactFlow.ThreadSend title description ∉ evs.
Proof.
  unfold no_thread_event. rewrite forallb_forall. intros Hall Hin.
  apply list_elem_of_In in Hin. by specialize (Hall _ Hin).
Qed.

#[local] Instance quiet_refl : Reflexive quiet.
Proof. intros evs. exists []. by rewrite app_nil_r. Qed.

#[local] Instance quiet_trans : Transitive quiet.
Proof.
  intros evs1 evs2 evs3 (new & -> & Hnew) (new' & -> & Hnew').
  exists (new ++ new')%list. split; [by rewrite app_assoc|].
  unfold no_thread_event in *. by rewrite forallb_app, Hnew, Hnew'.
Qed.

Lemma keeps_emit (e : ContactFlow.Event) :
  is_thread_event e = false → keeps quiet (ContactFlow.emit e).
Proof.
  intros He. apply (keeps_modify quiet). intros evs. exists [e].
  split; [reflexivity|]. unfold no_thread_event. simpl. by rewrite He.
Qed.

(** Nothing that happens before the thread creation is about the thread. *)
Lemma choose_category_quiet (h : ContactFlow.Host) (view : Views.ContactView)
    (config : value) :
  keeps quiet (ContactFlow.choose_category h view config).
Proof.
  unfold ContactFlow.choose_category.
  destruct (Views.select_options view) as [so|]; [|apply (keeps_raise quiet)].
  destruct (ContactFlow.truthy so); [|apply (keeps_ret quiet)].
  apply (keeps_bind quiet); [apply (keeps_lift quiet) | intros datas].
  apply (keeps_bind quiet); [apply (keeps_lift quiet) | intros options].
  apply (keeps_bind quiet); [apply (keeps_lift quiet) | intros select].
  apply (keeps_bind quiet); [apply (keeps_lift quiet) | intros placeholder].
  apply (keeps_bind quiet); [apply (keeps_lift quiet) | intros _].
  apply (keeps_bind quiet); [by apply keeps_emit | intros _].
  apply (keeps_bind quiet).
  { destruct (ContactFlow.submitted h) as [v|]; [|apply (keeps_ret quiet)].
    unfold ContactFlow.dropdown_callback.
    destruct (ContactFlow.get_option options v).
    - apply (keeps_bind quiet); [by apply keeps_emit | intros _].
      apply (keeps_bind quiet); [by apply keeps_emit | intros _].
      apply (keeps_ret quiet).
    - apply (keeps_bind quiet); [by apply keeps_emit | intros _].
      apply (keeps_ret quiet). }
  intros [chosen|]; [|apply (keeps_ret quiet)].
  apply (keeps_bind quiet); [apply (keeps_lift quiet) | intros category_id].
  assert (Hrest : keeps quiet
    (channel_id ← lift (ContactFlow.int_ h category_id);
     if ContactFlow.get_channel h channel_id then mret (Some (Some channel_id))
     else
       ContactFlow.emit
         (ContactFlow.LoggerError
            ("Category with ID " ++ ContactFlow.format_value h category_id ++ " not found."));;
       mret (Some None) : M (list ContactFlow.Event) (option (option Z)))).
  { apply (keeps_bind quiet); [apply (keeps_lift quiet) | intros channel_id].
    destruct (ContactFlow.get_channel h channel_id); [apply (keeps_ret quiet)|].
    apply (keeps_bind quiet); [by apply keeps_emit | intros _].
    apply (keeps_ret quiet). }
  destruct category_id; first [apply (keeps_raise quiet) | exact Hrest].
Qed.

(** The run of [handle_interaction]: the events of the first part are not
    about the thread, and the rest follows the category that the first part
    returns. *)
Lemma handle_interaction_run (h : ContactFlow.Host) (view : Views.ContactView)
    (config : value) (user : Views.InteractionUser) (r : result unit)
    (evs' : list ContactFlow.Event) :
  ContactFlow.handle_interaction h view config user [] = (r, evs') →
  ∃ rc first,
    ContactFlow.choose_category h view config [ContactFlow.ResponseDefer]
    = (rc, (ContactFlow.ResponseDefer :: first)%list)
    ∧ no_thread_event (ContactFlow.ResponseDefer :: first) = true
    ∧ match rc with
      | Raise e => r = Raise e ∧ evs' = (ContactFlow.ResponseDefer :: first)%list
      | Ok None => r = Ok tt ∧ evs' = (ContactFlow.ResponseDefer :: first)%list
      | Ok (Some category) =>
          let create := ContactFlow.ManagerCreate (Views.user_id user) category in
          r = (after_creation h).1
          ∧ if (after_creation h).2
            then ∃ title description,
                   evs' = ((ContactFlow.ResponseDefer :: first)
                             ++ [create; ContactFlow.ThreadSend title description])%list
            else evs' = ((ContactFlow.ResponseDefer :: first) ++ [create])%list
      end.
Proof.
  intros Hrun. unfold ContactFlow.handle_interaction in Hrun.
  apply bind_inv in Hrun as [([] & w1 & Hdefer & Hrun) | (e & ? & _)]; [|discriminate].
  injection Hdefer as <-. simpl in Hrun.
  destruct (ContactFlow.choose_category h view config [ContactFlow.ResponseDefer])
    as [rc w2] eqn:Hchoose.
  destruct (choose_category_quiet h view config _ _ _ Hchoose) as (first & -> & Hfirst).
  exists rc, first. split; [reflexivity|]. split; [exact Hfirst|].
  apply bind_inv in Hrun as [(category & w3 & Hc & Hrun) | (e & Hc & ->)];
    rewrite Hchoose in Hc; injection Hc as -> <-; [|done].
  destruct category as [category|]; [|by injection Hrun as <- <-].
  apply bind_inv in Hrun as [([] & w4 & Hcreate & Hrun) | (e & ? & _)]; [|discriminate].
  injection Hcreate as <-. cbv zeta. unfold after_creation.
  apply bind_inv in Hrun as [(cancelled & w5 & Hc & Hrun) | (e & Hc & ->)];
    apply lift_inv in Hc as [-> Hw]; [|by subst evs'].
  subst w5. destruct cancelled; [by injection Hrun as <- <-|].
  apply bind_inv in Hrun as [([] & w6 & Hc & Hrun) | (e & Hc & ->)];
    apply lift_inv in Hc as [-> Hw]; [|by subst evs'].
  subst w6.
  apply bind_inv in Hrun as [([] & w7 & Hc & Hrun) | (e & Hc & ->)];
    apply lift_inv in Hc as [-> Hw]; [|by subst evs'].
  subst w7. injection Hrun as <- <-. split; [reflexivity|]. eexists _, _.
  by rewrite <- app_assoc.
Qed.

(** X18: the thread that [handle_interaction] asks for.  At most one thread
    is asked for, for the interacting user.  It is asked for in a category
    only when the user chose a label in the dropdown, the first select
    option with that label has a category id, and the id is that of a
    channel the bot sees; it is asked for in the main category only when
    the view has no select options, or when the category id of the chosen
    label is the id of no channel. *)
Theorem handle_interaction_routing (h : ContactFlow.Host) (view : Views.ContactView)
    (config : value) (user : Views.InteractionUser) (r : result unit)
    (evs' : list ContactFlow.Event) :
  ContactFlow.handle_interaction h view config user [] = (r, evs') →
  (creates evs' = [] ∨ ∃ category, creates evs' = [(Views.user_id user, category)])
  ∧ (∀ recipient c, (recipient, Some c) ∈ creates evs' →
       ∃ v category_id,
         routed h view v category_id
         ∧ ContactFlow.int_ h category_id = Ok c ∧ ContactFlow.get_channel h c = true)
  ∧ (∀ recipient, (recipient, None) ∈ creates evs' →
       (∃ select_options,
          Views.select_options view = Some select_options
          ∧ ContactFlow.truthy select_options = false)
       ∨ (∃ v category_id n,
            routed h view v category_id
            ∧ ContactFlow.int_ h category_id = Ok n
            ∧ ContactFlow.get_channel h n = false)).
Proof.
  intros Hrun.
  destruct (handle_interaction_run h view config user r evs' Hrun)
    as (rc & first & Hchoose & Hfirst & Hrest).
  pose proof (choose_category_result h view config _ _ _ Hchoose) as Hresult.
  apply no_thread_event_creates in Hfirst.
  assert (Hcreates : creates evs' = []
            ∨ ∃ category, rc = Ok (Some category)
                          ∧ creates evs' = [(Views.user_id user, category)]).
  { destruct rc as [[category|]|e].
    - right. exists category. split; [reflexivity|].
      cbv beta iota zeta in Hrest. destruct Hrest as [_ Hevs].
      destruct (after_creation h).2.
      + destruct Hevs as (title & description & ->). by rewrite creates_app, Hfirst.
      + rewrite Hevs. by rewrite creates_app, Hfirst.
    - left. by destruct Hrest as [_ ->].
    - left. by destruct Hrest as [_ ->]. }
  split; [|split].
  - destruct Hcreates as [Hnone | (category & _ & Hone)]; [by left|].
    right. by exists category.
  - intros recipient c Hin.
    destruct Hcreates as [Hnone | (category & -> & Hone)].
    + rewrite Hnone in Hin. by apply elem_of_nil in Hin.
    + rewrite Hone in Hin. apply list_elem_of_singleton in Hin.
      injection Hin as -> <-. exact Hresult.
  - intros recipient Hin.
    destruct Hcreates as [Hnone | (category & -> & Hone)].
    + rewrite Hnone in Hin. by apply elem_of_nil in Hin.
    + rewrite Hone in Hin. apply list_elem_of_singleton in Hin.
      injection Hin as -> <-. exact Hresult.
Qed.

(** X19: when [handle_interaction] asks for no thread, and what an
    exception means.  The interaction is deferred before anything else.
    When the view has select options and the dropdown is left alone, or
    comes back with a value that is the label of no option, no thread is
    asked for.  An exception leaves no thread asked for, unless it was
    raised by the creation itself or, for a thread that is not cancelled,
    by the wait for the thread or by the message sent into it; once a
    thread is asked for, the handler returns or raises as these three calls
    do.  The message in the thread is sent only after a creation that
    returned a thread that is not cancelled and a wait that returned. *)
Theorem handle_interaction_no_thread (h : ContactFlow.Host) (view : Views.ContactView)
    (config : value) (user : Views.InteractionUser) (r : result unit)
    (evs' : list ContactFlow.Event) :
  ContactFlow.handle_interaction h view config user [] = (r, evs') →
  (∃ rest, evs' = ContactFlow.ResponseDefer :: rest)
  ∧ (∀ datas,
       Views.select_options view = Some (VList datas) → datas ≠ [] →
       (∀ v, ContactFlow.submitted h = Some v →
             Forall (λ d, get "label" d ≠ Ok (VStr v)) datas) →
       creates evs' = [])
  ∧ (∀ e, r = Raise e →
       creates evs' = []
       ∨ ContactFlow.manager_create h = Raise e
       ∨ (ContactFlow.manager_create h = Ok false
          ∧ (ContactFlow.wait_until_ready h = Raise e
             ∨ (ContactFlow.wait_until_ready h = Ok tt
                ∧ ContactFlow.thread_channel_send h = Raise e))))
  ∧ (creates evs' ≠ [] → r = (after_creation h).1)
  ∧ (∀ title description,
       ContactFlow.ThreadSend title description ∈ evs' →
       ContactFlow.manager_create h = Ok false
       ∧ ContactFlow.wait_until_ready h = Ok tt
       ∧ ContactFlow.thread_channel_send h = Ok tt
       ∧ r = Ok tt
       ∧ creates evs' ≠ []).
Proof.
  intros Hrun.
  destruct (handle_interaction_run h view config user r evs' Hrun)
    as (rc & first & Hchoose & Hfirst & Hrest).
  pose proof (choose_category_result h view config _ _ _ Hchoose) as Hresult.
  pose proof (no_thread_event_creates _ Hfirst) as Hquiet.
  pose proof (λ t d, no_thread_event_send _ t d Hfirst) as Hsent.
  assert (Hasked : ∀ category, rc = Ok (Some category) →
            r = (after_creation h).1 ∧ creates evs' ≠ []
            ∧ ∀ t d, ContactFlow.ThreadSend t d ∈ evs' → (after_creation h).2 = true).
  { intros category ->. cbv beta iota zeta in Hrest. destruct Hrest as [Hr Hevs].
    split; [exact Hr|]. destruct (after_creation h).2.
    - destruct Hevs as (title & description & ->). split; [|done].
      by rewrite creates_app, Hquiet.
    - rewrite Hevs. split; [by rewrite creates_app, Hquiet|].
      intros t d Hin. exfalso.
      apply elem_of_app in Hin as [Hin|Hin]; [by apply (Hsent t d)|].
      by apply list_elem_of_singleton in Hin. }
  assert (Hquiet' : (∀ category, rc ≠ Ok (Some category)) →
            evs' = (ContactFlow.ResponseDefer :: first)%list).
  { intros Hrc. destruct rc as [[category|]|e].
    - by destruct (Hrc category).
    - by destruct Hrest as [_ ->].
    - by destruct Hrest as [_ ->]. }
  assert (Houtcome : ∀ e, (after_creation h).1 = Raise e →
            ContactFlow.manager_create h = Raise e
            ∨ (ContactFlow.manager_create h = Ok false
               ∧ (ContactFlow.wait_until_ready h = Raise e
                  ∨ (ContactFlow.wait_until_ready h = Ok tt
                     ∧ ContactFlow.thread_channel_send h = Raise e)))).
  { intros e. unfold after_creation.
    destruct (ContactFlow.manager_create h) as [[]|e1]; simpl.
    - discriminate.
    - destruct (ContactFlow.wait_until_ready h) as [[]|e2]; simpl.
      + destruct (ContactFlow.thread_channel_send h) as [[]|e3]; simpl; [discriminate|].
        intros [= ->]. right. split; [reflexivity|]. right. by split.
      + intros [= ->]. right. split; [reflexivity|]. by left.
    - intros [= ->]. by left. }
  assert (Hsent' : (after_creation h).2 = true →
            ContactFlow.manager_create h = Ok false
            ∧ ContactFlow.wait_until_ready h = Ok tt
            ∧ ContactFlow.thread_channel_send h = Ok tt
            ∧ (after_creation h).1 = Ok tt).
  { unfold after_creation.
    destruct (ContactFlow.manager_create h) as [[]|e1]; simpl; try discriminate.
    destruct (ContactFlow.wait_until_ready h) as [[]|e2]; simpl; try discriminate.
    destruct (ContactFlow.thread_channel_send h) as [[]|e3]; simpl; try discriminate.
    done. }
  split; [|split; [|split; [|split]]].
  - destruct rc as [[category|]|e].
    + cbv beta iota zeta in Hrest. destruct Hrest as [_ Hevs].
      destruct (after_creation h).2.
      * destruct Hevs as (t & d & ->). by eexists.
      * rewrite Hevs. by eexists.
    + destruct Hrest as [_ ->]. by eexists.
    + destruct Hrest as [_ ->]. by eexists.
  - intros datas Hso Hne Hlabels.
    assert (Hnot : ∀ v category_id, ¬ routed h view v category_id).
    { intros v cid (datas' & before & data & after & Hso' & Hv & -> & _ & Hdata & _).
      rewrite Hso in Hso'. injection Hso' as ->.
      specialize (Hlabels v Hv). rewrite Forall_forall in Hlabels.
      apply (Hlabels data); [|exact Hdata].
      apply elem_of_app. right. by left. }
    rewrite Hquiet'; [exact Hquiet|]. intros category ->.
    destruct category as [c|].
    + destruct Hresult as (v & cid & Hrouted & _). by destruct (Hnot v cid).
    + destruct Hresult as [(so & Hso' & Hfalsy) | (v & cid & n & Hrouted & _)].
      * rewrite Hso in Hso'. injection Hso' as <-. simpl in Hfalsy.
        by apply bool_decide_eq_false in Hfalsy.
      * by destruct (Hnot v cid).
  - intros e ->. destruct rc as [[category|]|e'].
    + destruct (Hasked category eq_refl) as (Hr & _). right. apply Houtcome. by rewrite <- Hr.
    + left. rewrite Hquiet'; [exact Hquiet | discriminate].
    + left. rewrite Hquiet'; [exact Hquiet | discriminate].
  - intros Hcreated. destruct rc as [[category|]|e].
    + by destruct (Hasked category eq_refl) as (Hr & _).
    + destruct Hcreated. rewrite Hquiet'; [exact Hquiet | discriminate].
    + destruct Hcreated. rewrite Hquiet'; [exact Hquiet | discriminate].
  - intros title description Hin. destruct rc as [[category|]|e].
    + destruct (Hasked category eq_refl) as (Hr & Hcreated & Hmessage).
      destruct (Hsent' (Hmessage title description Hin)) as (Hc & Hw & Hs & Hok).
      rewrite Hr. done.
    + rewrite Hquiet' in Hin by discriminate. by destruct (Hsent title description).
    + rewrite Hquiet' in Hin by discriminate. by destruct (Hsent title description).
Qed.

(** ** Concrete runs of the further properties *)

(** Alice is listed third.  Two members joined strictly earlier, one of
    those listed before her joined at the same time and one of those listed
    after her did: she is the fourth to join. *)
Lemma join_position_rank_witness :
  join_position_of crowded_host alice = Ok 4
  ∧ length (joined_before alice (crowd_before ++ alice :: crowd_after)) = 2%nat
  ∧ length (joined_with alice crowd_before) = 1%nat
  ∧ length (joined_no_later alice (crowd_before ++ alice :: crowd_after)) = 5%nat.
Proof.
  split; [|by vm_compute].
  exact (proj1 (join_position_rank crowded_host alice) crowd_before crowd_after eq_refl
           ltac:(repeat (constructor; [by vm_compute|]); constructor)
           ltac:(repeat (constructor; [by vm_compute|]); constructor)).
Defined.

(** Twenty-seven invites fill a first page of 25 lines and leave two for
    the continued page; the most used invite comes first. *)
Lemma invites_list_pages_witness :
  ∃ lines first second,
    InviteCommands.invites_list user_name many_invites = Ok (pages_of [first; second])
    ∧ Forall2 (λ i line, InviteCommands.invite_line user_name i = Ok line)
        (listing many_invites) lines
    ∧ (first ++ second)%list = lines
    ∧ length first = 25%nat ∧ length second = 2%nat
    ∧ InviteCommands.page_title <$> pages_of [first; second]
      = ["List of Invites"; "List of Invites (Continued)"]
    ∧ uses <$> listing many_invites = reverse (seqZ 1 27).
Proof.
  destruct (proj1 (proj2 (invites_list_pages user_name many_invites)))
    as (lines & groups & Hlines & Hrun & Hconcat & Hsizes & Hlen).
  - by vm_compute.
  - apply Forall_fmap, Forall_forall. intros n _. by eexists.
  - assert (Hpages : (Z.of_nat (length many_invites) + 24) `div` 25 = 2) by reflexivity.
    rewrite Hpages in Hlen.
    assert (Htotal : length lines = 27%nat).
    { rewrite <- (Forall2_length _ _ _ Hlines). by vm_compute. }
    destruct groups as [|first [|second [|third groups]]]; simpl in Hlen; try lia.
    destruct (Hsizes 0%nat first eq_refl) as [_ Hfirst]. simpl in Hfirst.
    specialize (Hfirst ltac:(lia)).
    simpl in Hconcat. rewrite app_nil_r in Hconcat.
    assert (Hsecond : length second = 2%nat).
    { rewrite <- Hconcat, length_app in Htotal. lia. }
    exists lines, first, second.
    split; [exact Hrun|]. split; [exact Hlines|]. split; [exact Hconcat|].
    split; [exact Hfirst|]. split; [exact Hsecond|]. split; [reflexivity|].
    by vm_compute.
Defined.

(** The new invite is added to the cached invites of the guild 7. *)
Lemma on_invite_create_cache_witness :
  ∃ r w' cached',
    InviteCommands.on_invite_create (sample_host true (Ok created_webhook) []) MainColor
      created_invite join_world = (r, w')
    ∧ invite_cache (tracker w') !! 7 = Some cached'
    ∧ is_Some (cached' !! "new")
    ∧ cached' !! "abc" = Some (invite_abc 3).
Proof.
  destruct (proj2 (on_invite_create_cache (sample_host true (Ok created_webhook) [])
                     MainColor created_invite join_world join_world sample_config eq_refl)
              eq_refl)
    as (r & w' & Hrun & Hcached & _).
  destruct (Hcached (snapshot [invite_abc 3; invite_xyz 1]) eq_refl)
    as (cached' & Hc & Hnew & Hkeep & _).
  exists r, w', cached'. split; [exact Hrun|]. split; [exact Hc|]. split; [exact Hnew|].
  apply Hkeep. reflexivity.
Defined.

(** The webhook that the bot owns is found behind a foreign one, and one is
    created where the channel has none. *)
Lemma get_or_create_webhook_reuses_witness :
  _get_or_create_webhook webhook_host log_channel empty_world
  = (Ok (Some created_webhook), empty_world)
  ∧ _get_or_create_webhook (sample_host true (Ok created_webhook) []) log_channel empty_world
    = (Ok (Some created_webhook), empty_world).
Proof.
  split.
  - apply (proj1 (get_or_create_webhook_reuses webhook_host log_channel empty_world
                    eq_refl eq_refl) [foreign_webhook] created_webhook []).
    + reflexivity.
    + constructor; [reflexivity | constructor].
    + discriminate.
  - apply (proj2 (get_or_create_webhook_reuses (sample_host true (Ok created_webhook) [])
                    log_channel empty_world eq_refl eq_refl)).
    constructor.
Defined.

(** The URL of the created webhook is stored by the first log embed and
    used by the second one. *)
Lemma send_log_embed_remembers_witness :
  ∃ w1,
    send_log_embed (sample_host true (Ok created_webhook) []) log_channel
      (plain_embed "first") empty_world = (Ok tt, w1)
    ∧ stored_webhook (channel_guild log_channel) w1 = Some (webhook_url created_webhook)
    ∧ send_log_embed (sample_host false (Raise creation_error) []) log_channel
        (plain_embed "second") w1
      = (Ok tt,
         log_calls
           [WebhookSend
              {| webhook_url := webhook_url created_webhook; webhook_token := None |}
              (plain_embed "second") "Modmail"
              "https://cdn.discordapp.com/avatars/99.png" true] w1).
Proof.
  destruct (send_log_embed_remembers (sample_host true (Ok created_webhook) [])
              (sample_host false (Raise creation_error) []) log_channel
              (plain_embed "first") (plain_embed "second") empty_world created_webhook
              {| webhook_url := webhook_url created_webhook; webhook_token := None |})
    as (w1 & Hfirst & Hstored & _ & Hsecond & _).
  - reflexivity.
  - split; [reflexivity|]. split; [reflexivity|]. right. split; reflexivity.
  - reflexivity.
  - exists w1. split; [exact Hfirst|]. split; [exact Hstored | exact Hsecond].
Defined.

(** A join in a guild whose logging is disabled is ignored. *)
Lemma on_member_join_ignored_witness :
  on_member_join (sample_host true (Ok created_webhook) [invite_abc 4]) alice disabled_world
  = (Ok tt, disabled_world).
Proof.
  destruct (on_member_join_ignored (sample_host true (Ok created_webhook) [invite_abc 4])
              alice disabled_world disabled_world disabled_config eq_refl)
    as (_ & _ & _ & Hignored & _).
  apply Hignored; [reflexivity|]. left. reflexivity.
Defined.

(** The embed of a leave shows the stored invite code. *)
Lemma on_member_remove_embed_witness :
  ∃ r w',
    on_member_remove (sample_host true (Ok created_webhook) []) alice leave_world = (r, w')
    ∧ ("Invite code:", "abc")
        ∈ fields (leave_embed (sample_host true (Ok created_webhook) []) alice
                    (Some (invite_data (invite_abc 4)))).
Proof.
  destruct (on_member_remove_embed (sample_host true (Ok created_webhook) []) alice
              leave_world leave_world sample_config log_channel
              eq_refl eq_refl eq_refl eq_refl)
    as (r & w' & Hrun & _ & Hcode & _).
  exists r, w'. split; [exact Hrun|].
  apply (Hcode "abc"). exists (invite_data (invite_abc 4)). split; reflexivity.
Defined.

(** Alice joins the guild 7 through the invite [abc] and leaves: no record
    is left. *)
Lemma join_leave_round_trip_witness :
  ∃ r w',
    on_member_remove (sample_host true (Ok created_webhook) []) alice
      (on_member_join (sample_host true (Ok created_webhook) [invite_abc 4; invite_xyz 1])
         alice join_world).2 = (r, w')
    ∧ user_records (tracker w') = user_records (tracker join_world).
Proof.
  destruct (join_leave_round_trip
              (sample_host true (Ok created_webhook) [invite_abc 4; invite_xyz 1])
              (sample_host true (Ok created_webhook) []) alice join_world join_world
              (get_used_invite
                 (sample_host true (Ok created_webhook) [invite_abc 4; invite_xyz 1])
                 alice join_world).2
              (on_member_join
                 (sample_host true (Ok created_webhook) [invite_abc 4; invite_xyz 1])
                 alice join_world).2
              sample_config log_channel 1 (invite_abc 4))
    as (r & w' & Hrun & Hback & _).
  - reflexivity.
  - reflexivity.
  - reflexivity.
  - reflexivity.
  - reflexivity.
  - reflexivity.
  - vm_compute. reflexivity.
  - vm_compute. reflexivity.
  - exists r, w'. split; [exact Hrun|]. apply Hback. intros d Hd. discriminate.
Defined.

(** Loading the loaded document changes nothing. *)
Lemma recursively_resolve_keys_idempotent_witness :
  fetch stored_document = Ok loaded_document
  ∧ fetch loaded_document = Ok loaded_document.
Proof.
  assert (Hfetch : fetch stored_document = Ok loaded_document) by (vm_compute; reflexivity).
  split; [exact Hfetch|].
  apply (recursively_resolve_keys_idempotent _default_config stored_document loaded_document);
    [reflexivity | exact Hfetch].
Defined.

(** With nothing stored, the loaded document is the defaults. *)
Lemma recursively_resolve_keys_empty_witness :
  fetch (VDict []) = Ok _default_config ∧ fetch _default_config = Ok _default_config.
Proof.
  exact (recursively_resolve_keys_empty
           (match _default_config with VDict items => items | _ => [] end) eq_refl).
Defined.

(** The panel built from the loaded document has the grey button labelled
    Contact. *)
Lemma fetch_then_ContactView_witness :
  ∃ w' options,
    Views.ContactView__init__ 1 (Some 11) loaded_world = (Ok tt, w')
    ∧ Views.views w' !! 1%nat
      = Some {| Views.message := Some 11; Views.timeout := None;
                Views.select_options := Some options;
                Views.children :=
                  [{| Views.emoji := VNone; Views.label := VStr "Contact";
                      Views.style := Views.secondary;
                      Views.custom_id := "contact_button" |}] |}.
Proof.
  destruct (fetch_then_ContactView stored_document loaded_document 1 (Some 11) loaded_world)
    as (w' & options & button & Hrun & Hview & _ & _ & Hbutton).
  - reflexivity.
  - vm_compute. reflexivity.
  - reflexivity.
  - vm_compute. reflexivity.
  - exists w', options. split; [exact Hrun|]. rewrite Hview, Hbutton; reflexivity.
Defined.

(** Carol chooses Billing: the thread is asked for in the category 42. *)
Lemma handle_interaction_routing_witness :
  ∃ v category_id,
    routed (contact_host (Some "Billing")) panel_view v category_id
    ∧ ContactFlow.int_ (contact_host (Some "Billing")) category_id = Ok 42
    ∧ ContactFlow.get_channel (contact_host (Some "Billing")) 42 = true.
Proof.
  apply (proj1 (proj2 (handle_interaction_routing (contact_host (Some "Billing")) panel_view
                         contact_config carol
                         (ContactFlow.handle_interaction (contact_host (Some "Billing"))
                            panel_view contact_config carol []).1
                         (ContactFlow.handle_interaction (contact_host (Some "Billing"))
                            panel_view contact_config carol []).2
                         eq_refl)) 3 42).
  vm_compute. constructor.
Defined.

(** Carol leaves the dropdown alone: no thread is asked for.  Carol chooses
    Billing and the message in the new thread is refused: the handler
    raises after the thread was asked for. *)
Lemma handle_interaction_no_thread_witness :
  creates (ContactFlow.handle_interaction (contact_host None) panel_view contact_config
             carol []).2 = []
  ∧ (ContactFlow.handle_interaction (silent_thread_host (Some "Billing")) panel_view
       contact_config carol []).1 = Raise forbidden
  ∧ creates (ContactFlow.handle_interaction (silent_thread_host (Some "Billing")) panel_view
               contact_config carol []).2 = [(3, Some 42)].
Proof.
  split; [|split].
  - apply (proj1 (proj2 (handle_interaction_no_thread (contact_host None) panel_view
                           contact_config carol
                           (ContactFlow.handle_interaction (contact_host None)
                              panel_view contact_config carol []).1
                           (ContactFlow.handle_interaction (contact_host None)
                              panel_view contact_config carol []).2
                           eq_refl)) panel_options).
    + reflexivity.
    + discriminate.
    + intros v Hv. discriminate.
  - apply (proj1 (proj2 (proj2 (proj2
             (handle_interaction_no_thread (silent_thread_host (Some "Billing")) panel_view
                contact_config carol
                (ContactFlow.handle_interaction (silent_thread_host (Some "Billing"))
                   panel_view contact_config carol []).1
                (ContactFlow.handle_interaction (silent_thread_host (Some "Billing"))
                   panel_view contact_config carol []).2
                eq_refl))))).
    vm_compute. discriminate.
  - vm_compute. reflexivity.
Defined.

(** ** The inputs of a modal *)

Lemma on_submit_snoc (children : list ModalFlow.TextInput) (child : ModalFlow.TextInput)
    (inputs : ModalFlow.Inputs) :
  ModalFlow.on_submit (children ++ [child]) inputs
  = <[ModalFlow.name child :=
        if bool_decide (ModalFlow.value child = "") then None
        else Some (ModalFlow.value child)]> (ModalFlow.on_submit children inputs).
Proof. unfold ModalFlow.on_submit. by rewrite foldl_app. Qed.

(** X21: the inputs that [Modal.on_submit] leaves in the view.  Every text
    input has an entry under its name, that of the last input with the
    name: the typed text, or [None] when nothing was typed.  No entry that
    it writes holds the empty string, and the entries under other names
    are kept. *)
Theorem on_submit_inputs (children : list ModalFlow.TextInput) (inputs : ModalFlow.Inputs) :
  let inputs' := ModalFlow.on_submit children inputs in
  (∀ key, Forall (λ c, ModalFlow.name c ≠ key) children → inputs' !! key = inputs !! key)
  ∧ (∀ before child after,
       children = (before ++ child :: after)%list →
       Forall (λ c, ModalFlow.name c ≠ ModalFlow.name child) after →
       inputs' !! ModalFlow.name child
       = Some (if bool_decide (ModalFlow.value child = "") then None
               else Some (ModalFlow.value child)))
  ∧ (∀ child, child ∈ children → inputs' !! ModalFlow.name child ≠ Some (Some ""))
  ∧ (∀ child, child ∈ children → is_Some (inputs' !! ModalFlow.name child)).
Proof.
  intros inputs'.
  assert (Hkeep : ∀ children key,
            Forall (λ c, ModalFlow.name c ≠ key) children →
            ModalFlow.on_submit children inputs !! key = inputs !! key).
  { clear. induction children as [|child children IH] using rev_ind; intros key Hall.
    - reflexivity.
    - apply Forall_app in Hall as [Hall Hchild]. rewrite Forall_singleton in Hchild.
      rewrite on_submit_snoc. simpl in Hchild.
      rewrite lookup_insert_ne; [by apply IH | exact Hchild]. }
  assert (Hlast : ∀ children child, child ∈ children →
            ∃ last, last ∈ children ∧ ModalFlow.name last = ModalFlow.name child
                    ∧ ModalFlow.on_submit children inputs !! ModalFlow.name child
                      = Some (if bool_decide (ModalFlow.value last = "") then None
                              else Some (ModalFlow.value last))).
  { clear. induction children as [|c children IH] using rev_ind; intros child Hin.
    - by apply elem_of_nil in Hin.
    - rewrite on_submit_snoc.
      destruct (decide (ModalFlow.name c = ModalFlow.name child)) as [Heq|Hne].
      + exists c. split; [apply elem_of_app; right; by left|]. split; [exact Heq|].
        by rewrite Heq, lookup_insert_eq.
      + apply elem_of_app in Hin as [Hin|Hin].
        * destruct (IH child Hin) as (last & Hlast & Hname & Hget).
          exists last. split; [apply elem_of_app; by left|]. split; [exact Hname|].
          by rewrite lookup_insert_ne.
        * apply list_elem_of_singleton in Hin. by subst. }
  split; [|split; [|split]].
  - intros key. apply Hkeep.
  - intros before child after -> Hafter. subst inputs'.
    revert Hafter. induction after as [|c after IH] using rev_ind; intros Hafter.
    + by rewrite on_submit_snoc, lookup_insert_eq.
    + apply Forall_app in Hafter as [Hafter Hc]. rewrite Forall_singleton in Hc.
      replace (before ++ child :: after ++ [c])%list
        with ((before ++ child :: after) ++ [c])%list by (by rewrite <- app_assoc).
      rewrite on_submit_snoc. simpl in Hc.
      rewrite lookup_insert_ne; [by apply IH | exact Hc].
  - intros child Hin. destruct (Hlast children child Hin) as (last & _ & _ & Hget).
    subst inputs'. rewrite Hget. case_bool_decide as Hempty; [discriminate|].
    intros [= Heq]. by apply Hempty.
  - intros child Hin. destruct (Hlast children child Hin) as (last & _ & _ & Hget).
    subst inputs'. rewrite Hget. by eexists.
Qed.
